(** * shaper-react: the [ShaperDashboard] component

    A shallow embedding of the React component [ShaperDashboard]
    (the version with [jwt], [refreshJwt], [vars], [onVarsChanged] and
    [onLoadError] props) together with the part of the browser it talks to:
    the [window.shaper.dashboard] factory slot, the script elements of the
    document and the hook machinery of React ([useState], [useRef],
    [useEffect] with dependency arrays and cleanup functions).

    Everything the component does to the outside world (calling the factory,
    [update], [destroy], the refresh action, a promise resolver, the load
    error callback) is appended to a log of calls, so that statements about
    "how often" and "in which order" become statements about lists. *)

From stdpp Require Import base option list numbers strings gmap.
From Stdlib Require Import Ascii NArith Lia.

Local Open Scope N_scope.
Local Open Scope nat_scope.

(** ** JavaScript values that cross the component boundary *)

(** A value of [Record<string, string | string[]>]. *)
Inductive VarValue : Type :=
  | VStr (s : string)
  | VArr (l : list string).

(** An object: its address (what [Object.is] compares) and its own
    enumerable properties in enumeration order (what [JSON.stringify] and
    [for ... in] walk through). *)
Record JsObject : Type := mkObject {
  obj_addr : nat;
  obj_entries : list (string * VarValue)
}.

(** [ShaperDashboardVars = Record<string, string | string[]> | undefined] *)
Definition ShaperDashboardVars : Type := option JsObject.

(** Host functions are opaque: only their identity is observable. *)
Definition FnId : Type := nat.

#[global] Instance VarValue_eq_dec : EqDecision VarValue.
Proof. solve_decision. Defined.

#[global] Instance JsObject_eq_dec : EqDecision JsObject.
Proof. solve_decision. Defined.

(** [Object.is] on the values the dependency arrays hold. Strings, booleans
    and [undefined] compare by value, objects and functions by identity. *)
Definition Object_is_vars (a b : ShaperDashboardVars) : bool :=
  match a, b with
  | None, None => true
  | Some x, Some y => bool_decide (obj_addr x = obj_addr y)
  | _, _ => false
  end.

Definition Object_is_fn (a b : option FnId) : bool := bool_decide (a = b).

Definition Object_is_str (a b : string) : bool := bool_decide (a = b).

Definition Object_is_ostr (a b : option string) : bool := bool_decide (a = b).

(** ** [JSON.stringify] on [ShaperDashboardVars] *)

Module JSON.

Definition dquote : ascii := ascii_of_nat 34.
Definition backslash : ascii := ascii_of_nat 92.

Definition hex_digit (n : nat) : ascii :=
  if n <? 10 then ascii_of_nat (48 + n) else ascii_of_nat (87 + n).

(** One character of [QuoteJSONString]. *)
Definition escape_char (c : ascii) : string :=
  let n := nat_of_ascii c in
  if n =? 8 then "\b"
  else if n =? 9 then "\t"
  else if n =? 10 then "\n"
  else if n =? 12 then "\f"
  else if n =? 13 then "\r"
  else if n =? 34 then String backslash (String dquote "")
  else if n =? 92 then "\\"
  else if n <? 32 then
    "\u00" +:+ String (hex_digit (n / 16)) (String (hex_digit (n mod 16)) "")
  else String c "".

Fixpoint escape (s : string) : string :=
  match s with
  | EmptyString => ""
  | String c s' => escape_char c +:+ escape s'
  end.

Definition quote (s : string) : string :=
  String dquote (escape s +:+ String dquote "").

(** Elements separated by commas, as [SerializeJSONArray] and
    [SerializeJSONObject] do. *)
Fixpoint join (l : list string) : string :=
  match l with
  | [] => ""
  | [x] => x
  | x :: l' => x +:+ "," +:+ join l'
  end.

Definition stringify_value (v : VarValue) : string :=
  match v with
  | VStr s => quote s
  | VArr l => "[" +:+ join (map quote l) +:+ "]"
  end.

Definition stringify_entry (e : string * VarValue) : string :=
  quote e.1 +:+ ":" +:+ stringify_value e.2.

Definition stringify_object (o : JsObject) : string :=
  "{" +:+ join (map stringify_entry (obj_entries o)) +:+ "}".

(** [JSON.stringify(undefined)] is [undefined], not a string. *)
Definition stringify (v : ShaperDashboardVars) : option string :=
  match v with
  | None => None
  | Some o => Some (stringify_object o)
  end.

End JSON.

(** ** Props *)

Module Props.

Record t : Type := mk {
  id : string;
  baseUrl : string;
  jwt : option string;
  refreshJwt : FnId;
  vars : ShaperDashboardVars;
  onVarsChanged : option FnId;
  (** [None]: the prop is absent and the default [() => { }] is used, a
      fresh function in every render. *)
  onLoadError : option FnId
}.

End Props.

Abbreviation ShaperDashboardProps := Props.t.

(** ** Calls made by the component, in the order they happen *)

(** The arguments of one call of [window.shaper.dashboard] (the container
    and the two closures are determined by the calling component). *)
Record EmbedArgs : Type := mkEmbedArgs {
  arg_baseUrl : string;
  arg_dashboardId : string;
  arg_vars : ShaperDashboardVars
}.

Inductive Call : Type :=
  (** [window.shaper.dashboard(args)] by component [c], returning instance [i] *)
  | CallFactory (c : nat) (i : nat) (args : EmbedArgs)
  (** [dashboardRef.current.update({ vars })] *)
  | CallUpdate (c : nat) (i : nat) (v : ShaperDashboardVars)
  (** [dashboardRef.current.destroy()] *)
  | CallDestroy (c : nat) (i : nat)
  (** [refreshRef.current()]; [None] is the initial [() => { }] *)
  | CallRefresh (c : nat) (f : option FnId)
  (** [resolve(jwt)] for the promise [p] *)
  | CallResolve (c : nat) (p : nat) (v : string)
  (** [onLoadErrorRef.current(msg)]; [None] is the default [() => { }] *)
  | CallOnLoadError (c : nat) (f : option FnId) (msg : string)
  (** [onVarsChangedRef.current(newVars)] *)
  | CallOnVarsChanged (c : nat) (f : FnId) (v : ShaperDashboardVars).

#[global] Instance EmbedArgs_eq_dec : EqDecision EmbedArgs.
Proof. solve_decision. Defined.

#[global] Instance Call_eq_dec : EqDecision Call.
Proof. solve_decision. Defined.

(** ** The page: what all mounted components share *)

Inductive TagStatus : Type := Loading | Loaded | Failed.

#[global] Instance TagStatus_eq_dec : EqDecision TagStatus.
Proof. solve_decision. Defined.

(** A [<script>] element. [waiters] are the components whose load and error
    handlers are attached to it, in the order of attachment: the component
    that created the element first ([script.onload], [script.onerror]),
    then those that found it ([addEventListener]). Every handler pair
    closes over a [scriptUrl] equal to [src]. *)
Record ScriptTag : Type := mkTag {
  src : string;
  waiters : list nat;
  status : TagStatus
}.

Record Page : Type := mkPage {
  (** [window.shaper?.dashboard] is defined *)
  shaper_dashboard : bool;
  (** the script elements of the document, in document order *)
  scripts : list ScriptTag;
  next_instance : nat;
  next_promise : nat;
  calls : list Call
}.

Definition log (cs : list Call) (pg : Page) : Page :=
  mkPage (shaper_dashboard pg) (scripts pg) (next_instance pg)
         (next_promise pg) (calls pg ++ cs).

Definition set_scripts (ss : list ScriptTag) (pg : Page) : Page :=
  mkPage (shaper_dashboard pg) ss (next_instance pg) (next_promise pg)
         (calls pg).

Definition set_shaper_dashboard (b : bool) (pg : Page) : Page :=
  mkPage b (scripts pg) (next_instance pg) (next_promise pg) (calls pg).

Definition alloc_instance (pg : Page) : Page :=
  mkPage (shaper_dashboard pg) (scripts pg) (S (next_instance pg))
         (next_promise pg) (calls pg).

Definition alloc_promise (pg : Page) : Page :=
  mkPage (shaper_dashboard pg) (scripts pg) (next_instance pg)
         (S (next_promise pg)) (calls pg).

(** The characters that do not stand for themselves between the double
    quotes of a CSS string: the quote ends the string, the backslash starts
    an escape, a line break (LF, FF, CR) makes the string a bad one, and NUL
    is read as U+FFFD. *)
Definition css_string_special (a : ascii) : bool :=
  let n := nat_of_ascii a in
  bool_decide (n = 34) || bool_decide (n = 92) || bool_decide (n = 10)
  || bool_decide (n = 12) || bool_decide (n = 13) || bool_decide (n = 0).

(** A URL that, spliced between the quotes of [script[src="..."]], gives the
    selector of the elements whose [src] attribute is that URL. *)
Fixpoint selector_safe (url : string) : bool :=
  match url with
  | EmptyString => true
  | String a rest => negb (css_string_special a) && selector_safe rest
  end.

(** [document.querySelector(`script[src="${scriptUrl}"]`)]: the index of the
    first script element whose [src] attribute is [scriptUrl]. The source
    splices the URL into the selector unescaped, so this is what the lookup
    does for a [selector_safe] URL only: with a backslash the selector
    denotes another string, and with a quote or a line break it is another
    selector or none at all. What is proved about the element a URL selects
    is proved for [selector_safe] URLs. *)
Fixpoint querySelector (scriptUrl : string) (ss : list ScriptTag) : option nat :=
  match ss with
  | [] => None
  | t :: ss' =>
      if bool_decide (src t = scriptUrl) then Some 0
      else S <$> querySelector scriptUrl ss'
  end.

Definition add_waiter (c : nat) (t : ScriptTag) : ScriptTag :=
  mkTag (src t) (waiters t ++ [c]) (status t).

Definition set_status (s : TagStatus) (t : ScriptTag) : ScriptTag :=
  mkTag (src t) (waiters t) s.

(** ** The state of one mounted [ShaperDashboard] *)

Record Comp : Type := mkComp {
  (** the component is mounted *)
  alive : bool;
  (** props and [scriptLoaded] of the last committed render: what the
      dependency arrays of the next render are compared with *)
  props : ShaperDashboardProps;
  committedScriptLoaded : bool;
  (** [const [scriptLoaded, setScriptLoaded] = useState(false)] *)
  scriptLoaded : bool;
  (** [containerRef.current] is the rendered [<div>] *)
  containerRef : bool;
  dashboardRef : option nat;
  resolveJwtRef : list nat;
  (** [None]: the initial [() => { }] *)
  refreshRef : option FnId;
  (** [varsRef.current]: the object the variables effect stored, with the
      properties it had when it was stored. The source holds the reference,
      so these are the properties the factory finds later only if the host
      has not changed the object in place meanwhile, which is what
      [unchanged_if_same_object], [immutable_chain] and [objects_immutable]
      require of the host. *)
  varsRef : ShaperDashboardVars;
  (** [varsJsonRef.current]: a string, fixed when it is stored *)
  varsJsonRef : option string;
  onVarsChangedRef : option FnId;
  onLoadErrorRef : option FnId;
  (** the last run of the initialising effect returned its cleanup function *)
  initCleanup : bool
}.

Definition set_alive (v : bool) (c : Comp) : Comp :=
  mkComp v (props c) (committedScriptLoaded c) (scriptLoaded c)
    (containerRef c) (dashboardRef c) (resolveJwtRef c) (refreshRef c)
    (varsRef c) (varsJsonRef c) (onVarsChangedRef c) (onLoadErrorRef c)
    (initCleanup c).

Definition set_committed (p : ShaperDashboardProps) (sl : bool) (c : Comp) : Comp :=
  mkComp (alive c) p sl (scriptLoaded c)
    (containerRef c) (dashboardRef c) (resolveJwtRef c) (refreshRef c)
    (varsRef c) (varsJsonRef c) (onVarsChangedRef c) (onLoadErrorRef c)
    (initCleanup c).

Definition setScriptLoaded (v : bool) (c : Comp) : Comp :=
  mkComp (alive c) (props c) (committedScriptLoaded c) v
    (containerRef c) (dashboardRef c) (resolveJwtRef c) (refreshRef c)
    (varsRef c) (varsJsonRef c) (onVarsChangedRef c) (onLoadErrorRef c)
    (initCleanup c).

Definition set_containerRef (v : bool) (c : Comp) : Comp :=
  mkComp (alive c) (props c) (committedScriptLoaded c) (scriptLoaded c)
    v (dashboardRef c) (resolveJwtRef c) (refreshRef c)
    (varsRef c) (varsJsonRef c) (onVarsChangedRef c) (onLoadErrorRef c)
    (initCleanup c).

Definition set_dashboardRef (v : option nat) (c : Comp) : Comp :=
  mkComp (alive c) (props c) (committedScriptLoaded c) (scriptLoaded c)
    (containerRef c) v (resolveJwtRef c) (refreshRef c)
    (varsRef c) (varsJsonRef c) (onVarsChangedRef c) (onLoadErrorRef c)
    (initCleanup c).

Definition set_resolveJwtRef (v : list nat) (c : Comp) : Comp :=
  mkComp (alive c) (props c) (committedScriptLoaded c) (scriptLoaded c)
    (containerRef c) (dashboardRef c) v (refreshRef c)
    (varsRef c) (varsJsonRef c) (onVarsChangedRef c) (onLoadErrorRef c)
    (initCleanup c).

Definition set_refreshRef (v : option FnId) (c : Comp) : Comp :=
  mkComp (alive c) (props c) (committedScriptLoaded c) (scriptLoaded c)
    (containerRef c) (dashboardRef c) (resolveJwtRef c) v
    (varsRef c) (varsJsonRef c) (onVarsChangedRef c) (onLoadErrorRef c)
    (initCleanup c).

Definition set_vars (v : ShaperDashboardVars) (s : option string) (c : Comp) : Comp :=
  mkComp (alive c) (props c) (committedScriptLoaded c) (scriptLoaded c)
    (containerRef c) (dashboardRef c) (resolveJwtRef c) (refreshRef c)
    v s (onVarsChangedRef c) (onLoadErrorRef c)
    (initCleanup c).

Definition set_onVarsChangedRef (v : option FnId) (c : Comp) : Comp :=
  mkComp (alive c) (props c) (committedScriptLoaded c) (scriptLoaded c)
    (containerRef c) (dashboardRef c) (resolveJwtRef c) (refreshRef c)
    (varsRef c) (varsJsonRef c) v (onLoadErrorRef c)
    (initCleanup c).

Definition set_onLoadErrorRef (v : option FnId) (c : Comp) : Comp :=
  mkComp (alive c) (props c) (committedScriptLoaded c) (scriptLoaded c)
    (containerRef c) (dashboardRef c) (resolveJwtRef c) (refreshRef c)
    (varsRef c) (varsJsonRef c) (onVarsChangedRef c) v
    (initCleanup c).

Definition set_initCleanup (v : bool) (c : Comp) : Comp :=
  mkComp (alive c) (props c) (committedScriptLoaded c) (scriptLoaded c)
    (containerRef c) (dashboardRef c) (resolveJwtRef c) (refreshRef c)
    (varsRef c) (varsJsonRef c) (onVarsChangedRef c) (onLoadErrorRef c)
    v.

(** The hooks' values before the first commit. [useRef(onLoadError)] starts
    with the prop of the first render; the [<div>] is attached before any
    effect runs. *)
Definition initial_comp (p : ShaperDashboardProps) : Comp :=
  mkComp true p false false true None [] None None None None
         (Props.onLoadError p) false.

(** ** The effects of [ShaperDashboard], one definition per [useEffect] *)

Section Effects.

(** [cid] names the component whose effects run; [p] are the props of the
    render being committed. *)
Variable cid : nat.
Variable p : ShaperDashboardProps.

(** [useEffect(() => { refreshRef.current = refreshJwt; }, [refreshJwt])] *)
Definition effect_refresh (c : Comp) : Comp :=
  set_refreshRef (Some (Props.refreshJwt p)) c.

(** [useEffect(() => { onLoadErrorRef.current = onLoadError; }, [onLoadError])] *)
Definition effect_onLoadError (c : Comp) : Comp :=
  set_onLoadErrorRef (Props.onLoadError p) c.

(** [if (jwt)] on [string | undefined] *)
Definition truthy (j : option string) : bool :=
  match j with
  | None => false
  | Some s => negb (bool_decide (s = ""))
  end.

(** [useEffect(() => { if (jwt) { for (const resolve of
    resolveJwtRef.current) resolve(jwt); resolveJwtRef.current = []; } },
    [jwt])] *)
Definition effect_jwt (c : Comp) (pg : Page) : Comp * Page :=
  match Props.jwt p with
  | Some v =>
      if truthy (Some v) then
        (set_resolveJwtRef [] c,
         log (map (fun r => CallResolve cid r v) (resolveJwtRef c)) pg)
      else (c, pg)
  | None => (c, pg)
  end.

Definition scriptUrl : string := Props.baseUrl p +:+ "/embed/shaper.js".

(** The script loading effect, dependencies [[baseUrl]]. *)
Definition effect_script (c : Comp) (pg : Page) : Comp * Page :=
  if shaper_dashboard pg then (setScriptLoaded true c, pg)
  else
    match querySelector scriptUrl (scripts pg) with
    | Some i =>
        (* existingScript.addEventListener("load" / "error", ...) *)
        (c, set_scripts (alter (add_waiter cid) i (scripts pg)) pg)
    | None =>
        (* document.body.appendChild(script) *)
        (c, set_scripts (scripts pg ++ [mkTag scriptUrl [cid] Loading]) pg)
    end.

(** The variables effect, dependencies [[vars]]. *)
Definition effect_vars (c : Comp) (pg : Page) : Comp * Page :=
  let s := JSON.stringify (Props.vars p) in
  if Object_is_ostr s (varsJsonRef c) then (c, pg)
  else
    let c' := set_vars (Props.vars p) s c in
    match dashboardRef c' with
    | Some i => (c', log [CallUpdate cid i (Props.vars p)] pg)
    | None => (c', pg)
    end.

(** [useEffect(() => { onVarsChangedRef.current = onVarsChanged; },
    [onVarsChanged])] *)
Definition effect_onVarsChanged (c : Comp) : Comp :=
  set_onVarsChangedRef (Props.onVarsChanged p) c.

(** The initialising effect, dependencies [[scriptLoaded, baseUrl, id]].
    [sl] is the [scriptLoaded] of the render whose closure this is. An early
    [return;] yields no cleanup function. *)
Definition effect_init (sl : bool) (c : Comp) (pg : Page) : Comp * Page :=
  if negb sl || negb (shaper_dashboard pg) || negb (containerRef c)
     || bool_decide (is_Some (dashboardRef c))
  then (set_initCleanup false c, pg)
  else
    let i := next_instance pg in
    (set_initCleanup true (set_dashboardRef (Some i) c),
     log [CallFactory cid i
            (mkEmbedArgs (Props.baseUrl p) (Props.id p) (varsRef c))]
         (alloc_instance pg)).

(** The cleanup function the initialising effect returns. *)
Definition cleanup_init (c : Comp) (pg : Page) : Comp * Page :=
  match dashboardRef c with
  | Some i => (set_dashboardRef None c, log [CallDestroy cid i] pg)
  | None => (c, pg)
  end.

End Effects.

(** ** React: committing a render *)

(** [onLoadError = () => { }] in the parameter list builds a new function in
    every render in which the prop is absent, so the dependency
    [[onLoadError]] is unchanged only between two renders that both pass the
    same host function. *)
Definition Object_is_default_fn (a b : option FnId) : bool :=
  match a, b with
  | Some x, Some y => bool_decide (x = y)
  | _, _ => false
  end.

Definition when (b : bool) (f : Comp -> Page -> Comp * Page)
    (s : Comp * Page) : Comp * Page :=
  if b then f s.1 s.2 else s.

Definition pure_effect (f : Comp -> Comp) (c : Comp) (pg : Page) : Comp * Page :=
  (f c, pg).

(** The initialising effect runs again when one of
    [[scriptLoaded, baseUrl, id]] differs from the last commit. *)
Definition init_deps_changed (p : ShaperDashboardProps) (c : Comp) : bool :=
  negb (bool_decide (committedScriptLoaded c = scriptLoaded c))
  || negb (Object_is_str (Props.baseUrl (props c)) (Props.baseUrl p))
  || negb (Object_is_str (Props.id (props c)) (Props.id p)).

(** One commit of component [cid] rendered with props [p]: first the cleanup
    functions of the effects whose dependencies changed (only the
    initialising effect has one), then these effects in the order of their
    [useEffect] calls. Every closure sees the [scriptLoaded] of its render.
    [first] is the commit of the mount, in which every effect runs. *)
Definition commit (first : bool) (cid : nat) (p : ShaperDashboardProps)
    (c : Comp) (pg : Page) : Comp * Page :=
  let old := props c in
  let sl := scriptLoaded c in
  let ch_init := first || init_deps_changed p c in
  let s0 := when (negb first && ch_init && initCleanup c) (cleanup_init cid) (c, pg) in
  let s1 := when (first || negb (bool_decide (Props.refreshJwt old = Props.refreshJwt p)))
                 (pure_effect (effect_refresh p)) s0 in
  let s2 := when (first || negb (Object_is_default_fn (Props.onLoadError old) (Props.onLoadError p)))
                 (pure_effect (effect_onLoadError p)) s1 in
  let s3 := when (first || negb (Object_is_ostr (Props.jwt old) (Props.jwt p)))
                 (effect_jwt cid p) s2 in
  let s4 := when (first || negb (Object_is_str (Props.baseUrl old) (Props.baseUrl p)))
                 (effect_script cid p) s3 in
  let s5 := when (first || negb (Object_is_vars (Props.vars old) (Props.vars p)))
                 (effect_vars cid p) s4 in
  let s6 := when (first || negb (Object_is_fn (Props.onVarsChanged old) (Props.onVarsChanged p)))
                 (pure_effect (effect_onVarsChanged p)) s5 in
  let s7 := when ch_init (effect_init cid p sl) s6 in
  (set_committed p sl s7.1, s7.2).

(** A state update made during the commit ([setScriptLoaded(true)] in the
    script effect) renders the component once more with the same props. *)
Definition flush (cid : nat) (c : Comp) (pg : Page) : Comp * Page :=
  if bool_decide (scriptLoaded c = committedScriptLoaded c) then (c, pg)
  else commit false cid (props c) c pg.

Definition render (cid : nat) (p : ShaperDashboardProps) (c : Comp) (pg : Page)
    : Comp * Page :=
  let s := commit false cid p c pg in flush cid s.1 s.2.

Definition mount (cid : nat) (p : ShaperDashboardProps) (pg : Page) : Comp * Page :=
  let s := commit true cid p (initial_comp p) pg in flush cid s.1 s.2.

(** Unmounting runs the cleanup function of the initialising effect, if its
    last run returned one, and detaches the [<div>]. *)
Definition unmount (cid : nat) (c : Comp) (pg : Page) : Comp * Page :=
  let s := when (initCleanup c) (cleanup_init cid) (c, pg) in
  (set_initCleanup false (set_containerRef false (set_alive false s.1)), s.2).

(** ** The closures the component hands out *)

(** [getJwt: async () => { const p = new Promise((resolve) => {
    resolveJwtRef.current.push(resolve); }); refreshRef.current(); return p; }].
    The promise is named by a fresh number. *)
Definition getJwt (cid : nat) (c : Comp) (pg : Page) : Comp * Page :=
  let r := next_promise pg in
  (set_resolveJwtRef (resolveJwtRef c ++ [r]) c,
   log [CallRefresh cid (refreshRef c)] (alloc_promise pg)).

(** [onVarsChanged: (newVars) => { if (onVarsChangedRef.current)
    onVarsChangedRef.current(newVars); }] *)
Definition onVarsChanged_closure (cid : nat) (v : ShaperDashboardVars)
    (c : Comp) (pg : Page) : Comp * Page :=
  match onVarsChangedRef c with
  | Some f => (c, log [CallOnVarsChanged cid f v] pg)
  | None => (c, pg)
  end.

(** The load handler [() => { setScriptLoaded(true); }]. React drops state
    updates of an unmounted component. *)
Definition on_load (cid : nat) (c : Comp) (pg : Page) : Comp * Page :=
  if alive c then flush cid (setScriptLoaded true c) pg else (c, pg).

Definition load_error_message (url : string) : string :=
  "Failed to load Shaper script from " +:+ url.

(** The error handler
    [() => { onLoadErrorRef.current(`Failed to load Shaper script from ${scriptUrl}`); }] *)
Definition on_error (cid : nat) (url : string) (c : Comp) (pg : Page) : Comp * Page :=
  (c, log [CallOnLoadError cid (onLoadErrorRef c) (load_error_message url)] pg).

(** ** The world: the page and the components mounted into it *)

Record World : Type := mkWorld {
  page : Page;
  comps : list Comp
}.

Definition with_comp (cid : nat) (f : Comp -> Page -> Comp * Page) (w : World) : World :=
  match comps w !! cid with
  | Some c => let s := f c (page w) in mkWorld s.2 (<[cid := s.1]> (comps w))
  | None => w
  end.

(** What the host, the browser and the widget can do. *)
Inductive Action : Type :=
  (** the host mounts a new [<ShaperDashboard {...p} />] *)
  | Mount (p : ShaperDashboardProps)
  (** the host renders component [cid] again with props [p] *)
  | Render (cid : nat) (p : ShaperDashboardProps)
  | Unmount (cid : nat)
  (** script element [i] has run and fires its load event; [registers]: the
      script has set [window.shaper.dashboard] *)
  | ScriptLoad (i : nat) (registers : bool)
  (** script element [i] fires its error event *)
  | ScriptError (i : nat)
  (** the widget calls the [getJwt] it was given by component [cid] *)
  | GetJwt (cid : nat)
  (** the widget calls the [onVarsChanged] it was given by component [cid] *)
  | VarsChanged (cid : nat) (v : ShaperDashboardVars).

Definition notify (h : nat -> Comp -> Page -> Comp * Page) (cs : list nat)
    (w : World) : World :=
  foldl (fun w cid => with_comp cid (h cid) w) w cs.

Definition step (a : Action) (w : World) : World :=
  match a with
  | Mount p =>
      let s := mount (length (comps w)) p (page w) in
      mkWorld s.2 (comps w ++ [s.1])
  | Render cid p =>
      with_comp cid (fun c pg => if alive c then render cid p c pg else (c, pg)) w
  | Unmount cid =>
      with_comp cid (fun c pg => if alive c then unmount cid c pg else (c, pg)) w
  | ScriptLoad i registers =>
      match scripts (page w) !! i with
      | Some t =>
          if bool_decide (status t = Loading) then
            let pg := set_shaper_dashboard (shaper_dashboard (page w) || registers)
                        (set_scripts (<[i := set_status Loaded t]> (scripts (page w)))
                                     (page w)) in
            notify on_load (waiters t) (mkWorld pg (comps w))
          else w
      | None => w
      end
  | ScriptError i =>
      match scripts (page w) !! i with
      | Some t =>
          if bool_decide (status t = Loading) then
            let pg := set_scripts (<[i := set_status Failed t]> (scripts (page w)))
                                  (page w) in
            notify (fun cid => on_error cid (src t)) (waiters t) (mkWorld pg (comps w))
          else w
      | None => w
      end
  | GetJwt cid => with_comp cid (getJwt cid) w
  | VarsChanged cid v => with_comp cid (onVarsChanged_closure cid v) w
  end.

Definition run (acts : list Action) (w : World) : World :=
  foldl (fun w a => step a w) w acts.

Definition empty_page : Page := mkPage false [] 0 0 [].

Definition initial_world : World := mkWorld empty_page [].

(** ** Reading the log *)

Definition factory_calls_of (cid : nat) (cs : list Call) : list nat :=
  omap (fun x => match x with
                 | CallFactory c i _ => if bool_decide (c = cid) then Some i else None
                 | _ => None
                 end) cs.

Definition destroy_calls_of (cid : nat) (cs : list Call) : list nat :=
  omap (fun x => match x with
                 | CallDestroy c i => if bool_decide (c = cid) then Some i else None
                 | _ => None
                 end) cs.

Definition update_calls_of (cid : nat) (cs : list Call)
    : list (nat * ShaperDashboardVars) :=
  omap (fun x => match x with
                 | CallUpdate c i v => if bool_decide (c = cid) then Some (i, v) else None
                 | _ => None
                 end) cs.

Definition resolve_calls_of (cid : nat) (cs : list Call) : list (nat * string) :=
  omap (fun x => match x with
                 | CallResolve c r v => if bool_decide (c = cid) then Some (r, v) else None
                 | _ => None
                 end) cs.

Definition refresh_calls_of (cid : nat) (cs : list Call) : list (option FnId) :=
  omap (fun x => match x with
                 | CallRefresh c f => if bool_decide (c = cid) then Some f else None
                 | _ => None
                 end) cs.

Definition load_error_calls_of (cid : nat) (cs : list Call)
    : list (option FnId * string) :=
  omap (fun x => match x with
                 | CallOnLoadError c f m => if bool_decide (c = cid) then Some (f, m) else None
                 | _ => None
                 end) cs.

Definition call_owner (x : Call) : nat :=
  match x with
  | CallFactory c _ _ | CallUpdate c _ _ | CallDestroy c _ | CallRefresh c _
  | CallResolve c _ _ | CallOnLoadError c _ _ | CallOnVarsChanged c _ _ => c
  end.

(** ** Frames: what an effect leaves alone *)

Definition frames_comp {A} (proj : Comp -> A) (f : Comp -> Page -> Comp * Page) : Prop :=
  forall c pg, proj (f c pg).1 = proj c.

Definition frames_page {A} (proj : Page -> A) (f : Comp -> Page -> Comp * Page) : Prop :=
  forall c pg, proj (f c pg).2 = proj pg.

(** ** The outcome of one commit, in terms of the state before it *)

Section CommitOutcome.

Variables (first : bool) (cid : nat) (p : ShaperDashboardProps).
Variables (c : Comp) (pg : Page).

(** The dependency tests of the commit. *)
Definition ch_init : bool := first || init_deps_changed p c.
Definition ch_jwt : bool :=
  first || negb (Object_is_ostr (Props.jwt (props c)) (Props.jwt p)).
Definition ch_script : bool :=
  first || negb (Object_is_str (Props.baseUrl (props c)) (Props.baseUrl p)).
Definition ch_vars : bool :=
  first || negb (Object_is_vars (Props.vars (props c)) (Props.vars p)).

(** The cleanup function runs. *)
Definition cleans : bool := negb first && ch_init && initCleanup c.

(** [dashboardRef.current] once the cleanup phase is over. *)
Definition dashboard_after_cleanup : option nat :=
  if cleans then None else dashboardRef c.

(** The variables effect runs and finds a new serialisation. *)
Definition vars_differ : bool :=
  ch_vars && negb (Object_is_ostr (JSON.stringify (Props.vars p)) (varsJsonRef c)).

Definition vars_after : ShaperDashboardVars :=
  if vars_differ then Props.vars p else varsRef c.

(** The initialising effect runs and gets past its guard. *)
Definition creates : bool :=
  ch_init && scriptLoaded c && shaper_dashboard pg && containerRef c
  && negb (bool_decide (is_Some dashboard_after_cleanup)).

Definition destroy_part : list Call :=
  if cleans then
    match dashboardRef c with Some i => [CallDestroy cid i] | None => [] end
  else [].

Definition resolve_part : list Call :=
  match Props.jwt p with
  | Some v =>
      if ch_jwt && truthy (Some v)
      then map (fun r => CallResolve cid r v) (resolveJwtRef c) else []
  | None => []
  end.

Definition update_part : list Call :=
  if vars_differ then
    match dashboard_after_cleanup with
    | Some i => [CallUpdate cid i (Props.vars p)]
    | None => []
    end
  else [].

Definition factory_part : list Call :=
  if creates then
    [CallFactory cid (next_instance pg)
       (mkEmbedArgs (Props.baseUrl p) (Props.id p) vars_after)]
  else [].

Definition scripts_after : list ScriptTag :=
  if ch_script && negb (shaper_dashboard pg) then
    match querySelector (scriptUrl p) (scripts pg) with
    | Some i => alter (add_waiter cid) i (scripts pg)
    | None => scripts pg ++ [mkTag (scriptUrl p) [cid] Loading]
    end
  else scripts pg.

End CommitOutcome.

(** ** Invariants of a component *)

(** What holds of a component after each of its commits. *)
Record comp_inv (c : Comp) : Prop := mk_comp_inv {
  inv_cleanup : initCleanup c = bool_decide (is_Some (dashboardRef c));
  inv_json : varsJsonRef c = JSON.stringify (varsRef c);
  inv_refresh : refreshRef c = Some (Props.refreshJwt (props c));
  inv_onLoadError : onLoadErrorRef c = Props.onLoadError (props c);
  inv_onVarsChanged : onVarsChangedRef c = Props.onVarsChanged (props c);
  inv_live_loaded : is_Some (dashboardRef c) -> scriptLoaded c = true;
  inv_dead : alive c = false -> dashboardRef c = None;
  inv_container : alive c = true -> containerRef c = true
}.

(** What holds of a component between two actions: moreover no render is
    pending. *)
Definition comp_ok (c : Comp) : Prop :=
  comp_inv c /\ scriptLoaded c = committedScriptLoaded c.


(** ** Reading [JSON.stringify] back *)

(** The decoder is only used to show that two values with the same
    serialisation have the same properties in the same order. *)



(** Structural equality of two values of the [vars] prop: both [undefined],
    or two objects with the same keys and the same value under every key. *)
Definition struct_eq (a b : ShaperDashboardVars) : Prop :=
  match a, b with
  | None, None => True
  | Some x, Some y =>
      (list_to_map (obj_entries x) : gmap string VarValue)
      = list_to_map (obj_entries y)
  | _, _ => False
  end.


(** ** Assumptions on the host and words of the specification *)







(** ** Example inputs *)

Definition vars_x0 : ShaperDashboardVars := Some (mkObject 1 [("x", VStr "0")]).
Definition vars_ab : ShaperDashboardVars :=
  Some (mkObject 2 [("a", VStr "1"); ("b", VStr "2")]).
Definition vars_ba : ShaperDashboardVars :=
  Some (mkObject 3 [("b", VStr "2"); ("a", VStr "1")]).

(** The object of [vars_x0] after the host has changed it in place. *)
Definition vars_x1_in_place : ShaperDashboardVars :=
  Some (mkObject 1 [("x", VStr "1")]).

Definition props_with (j : option string) (v : ShaperDashboardVars)
    : ShaperDashboardProps :=
  Props.mk "d1" "http://h" j 7 v None (Some 9).

(** A component that has been mounted and whose script has loaded. *)
Definition live_world : World :=
  run [Mount (props_with None vars_x0); ScriptLoad 0 true] initial_world.

Definition live_comp : Comp :=
  default (initial_comp (props_with None vars_x0)) (comps live_world !! 0).

(** A component that has been mounted and still waits for its script. *)
Definition waiting_world : World :=
  run [Mount (props_with None vars_x0)] initial_world.

Definition waiting_comp : Comp :=
  default (initial_comp (props_with None vars_x0)) (comps waiting_world !! 0).

(** ** Invariants of the world *)

(** The instances ever constructed, whoever constructed them. *)
Definition instances_of (cs : list Call) : list nat :=
  omap (fun x => match x with CallFactory _ i _ => Some i | _ => None end) cs.

(** Instances are numbered in the order of their construction. *)
Definition fresh_instances (pg : Page) : Prop :=
  instances_of (calls pg) = seq 0 (next_instance pg).

(** Every instance a component has constructed has been destroyed, in the
    order of construction, except the one it holds. *)
Definition account (cid : nat) (c : Comp) (pg : Page) : Prop :=
  factory_calls_of cid (calls pg) =
    destroy_calls_of cid (calls pg) ++ option_list (dashboardRef c).

(** The log grows by calls of component [cid] only. *)
Definition extends_by (cid : nat) (pg pg' : Page) : Prop :=
  exists delta, calls pg' = calls pg ++ delta
                /\ Forall (fun x => call_owner x = cid) delta.

(** What one commit of component [cid] can do to the script elements. *)
Definition script_change (cid : nat) (ss ss' : list ScriptTag) : Prop :=
  ss' = ss
  \/ (exists i t, ss !! i = Some t /\ ss' = <[i := add_waiter cid t]> ss)
  \/ (exists url, (url ∉ map src ss) /\ ss' = ss ++ [mkTag url [cid] Loading]).

(** What a handler of component [cid] does to the page. *)
Record page_step (cid : nat) (pg pg' : Page) : Prop := mk_page_step {
  ps_calls : extends_by cid pg pg';
  ps_fresh : fresh_instances pg -> fresh_instances pg';
  ps_scripts : script_change cid (scripts pg) (scripts pg');
  ps_factory : shaper_dashboard pg' = shaper_dashboard pg
}.

(** The handlers that can run for a mounted component. *)
Inductive comp_step (cid : nat) (c : Comp) (pg : Page) : Comp * Page -> Prop :=
  | cs_render p : alive c = true -> comp_step cid c pg (render cid p c pg)
  | cs_unmount : alive c = true -> comp_step cid c pg (unmount cid c pg)
  | cs_on_load : comp_step cid c pg (on_load cid c pg)
  | cs_on_error url : comp_step cid c pg (on_error cid url c pg)
  | cs_getJwt : comp_step cid c pg (getJwt cid c pg)
  | cs_onVarsChanged v : comp_step cid c pg (onVarsChanged_closure cid v c pg)
  | cs_skip : comp_step cid c pg (c, pg).

Record world_ok (w : World) : Prop := mk_world_ok {
  wok_comps : Forall comp_ok (comps w);
  wok_account : forall cid c, comps w !! cid = Some c -> account cid c (page w);
  wok_fresh : fresh_instances (page w);
  wok_bounded : Forall (fun x => call_owner x < length (comps w)) (calls (page w));
  wok_srcs : NoDup (map src (scripts (page w)))
}.

(** ** One component among the others *)

(** The log grows by calls of components other than [cid]. *)
Definition quiet (cid : nat) (pg pg' : Page) : Prop :=
  exists delta, calls pg' = calls pg ++ delta
                /\ Forall (fun x => call_owner x <> cid) delta.

(** What the other components and the browser can do to the script elements,
    seen from component [cid]: no element goes away, no element changes its
    [src], [cid] is not attached anywhere, and an element that has loaded or
    failed stays so. *)
Definition tags_other (cid : nat) (ss ss' : list ScriptTag) : Prop :=
  (forall i t, ss !! i = Some t ->
     exists t', ss' !! i = Some t' /\ src t' = src t
                /\ (cid ∈ waiters t' <-> cid ∈ waiters t)
                /\ (status t <> Loading -> status t' = status t))
  /\ (forall i t', ss !! i = None -> ss' !! i = Some t' -> cid ∉ waiters t').

Record others_step (cid : nat) (w w' : World) : Prop := mk_others_step {
  os_comp : comps w' !! cid = comps w !! cid;
  os_quiet : quiet cid (page w) (page w');
  os_tags : tags_other cid (scripts (page w)) (scripts (page w'))
}.

(** The handlers of component [cid] that action [a] can run, on the
    component [c] and the page [pg] it finds; [pg0] is the page at the
    start of the action. *)
Definition self_step (a : Action) (cid : nat) (pg0 : Page) (c : Comp) (pg : Page)
    (s : Comp * Page) : Prop :=
  match a with
  | Mount _ => False
  | Render c' p => c' = cid /\ alive c = true /\ s = render cid p c pg
  | Unmount c' => c' = cid /\ alive c = true /\ s = unmount cid c pg
  | ScriptLoad i _ =>
      exists t, scripts pg0 !! i = Some t /\ status t = Loading
                /\ cid ∈ waiters t /\ s = on_load cid c pg
  | ScriptError i =>
      exists t, scripts pg0 !! i = Some t /\ status t = Loading
                /\ cid ∈ waiters t /\ s = on_error cid (src t) c pg
  | GetJwt c' => c' = cid /\ s = getJwt cid c pg
  | VarsChanged c' v => c' = cid /\ s = onVarsChanged_closure cid v c pg
  end.

(** Actions that leave the identity of component [cid] alone: no render
    changes [baseUrl] or [id], and the component is not unmounted. *)
Definition keeps_identity (cid : nat) (b d : string) (a : Action) : Prop :=
  match a with
  | Render c p => c = cid -> Props.baseUrl p = b /\ Props.id p = d
  | Unmount c => c <> cid
  | _ => True
  end.



(** The [vars] objects a run passes to components. *)
Definition passed_objects (acts : list Action) : list JsObject :=
  omap (fun a => match a with
                 | Mount p => Props.vars p
                 | Render _ p => Props.vars p
                 | _ => None
                 end) acts.

(** React's contract for props over a whole run: the host never changes a
    [vars] object in place, so an object that is passed again, to any
    component, has the properties it had before. *)
Definition objects_immutable (acts : list Action) : Prop :=
  forall x y, x ∈ passed_objects acts -> y ∈ passed_objects acts ->
              obj_addr x = obj_addr y -> x = y.


(** What stays true of component [cid] while its identity is kept: it is
    mounted with the same [baseUrl] and [id], it has destroyed nothing more
    than the instances [D0], it has constructed at least the instances [F0],
    and its [update] calls beyond [U0] went to the instance it held. *)
Record identity_kept (cid : nat) (b d : string) (D0 F0 : list nat)
    (U0 : list (nat * ShaperDashboardVars)) (held : option nat)
    (w : World) : Prop := mk_identity_kept {
  ik_comp : exists c, comps w !! cid = Some c /\ alive c = true
                      /\ Props.baseUrl (props c) = b /\ Props.id (props c) = d;
  ik_destroy : destroy_calls_of cid (calls (page w)) = D0;
  ik_factory : F0 `prefix_of` factory_calls_of cid (calls (page w));
  ik_update : forall i, held = Some i ->
     exists vs, update_calls_of cid (calls (page w))
                = U0 ++ map (fun v => (i, v)) vs
}.

Definition props_other_id : ShaperDashboardProps :=
  Props.mk "d2" "http://h" None 7 vars_x0 None (Some 9).

(** What stays true of component [cid] after the script element [i] it
    waits for has failed: the component is not loaded, the element stays
    failed, the component waits for no other element, and it has constructed
    nothing more than [F0] and reported nothing more than [L1]. *)
Record load_failed (cid : nat) (b : string) (i : nat) (u : string)
    (F0 : list nat) (L1 : list (option FnId * string)) (w : World) : Prop :=
  mk_load_failed {
  lf_comp : exists c, comps w !! cid = Some c /\ scriptLoaded c = false
                      /\ Props.baseUrl (props c) = b;
  lf_tag : exists t, scripts (page w) !! i = Some t /\ src t = u
                     /\ status t = Failed;
  lf_only : forall j t, scripts (page w) !! j = Some t -> cid ∈ waiters t -> j = i;
  lf_factory : factory_calls_of cid (calls (page w)) = F0;
  lf_errors : load_error_calls_of cid (calls (page w)) = L1
}.

(** The calls of the error handlers of the components [cs]. *)
Definition error_calls (url : string) (cs : list nat) (w : World) : list Call :=
  omap (fun c' => (fun c => CallOnLoadError c' (onLoadErrorRef c)
                              (load_error_message url)) <$> comps w !! c') cs.

(** ** Example runs *)

Definition props_with_token : ShaperDashboardProps :=
  props_with (Some "tok") vars_x0.

Definition props_with_token2 : ShaperDashboardProps :=
  props_with (Some "tok2") vars_x0.

Definition props_empty_token : ShaperDashboardProps :=
  props_with (Some "") vars_x0.

(** The props of [live_comp] with another refresh action. *)
Definition props_other_refresh : ShaperDashboardProps :=
  Props.mk "d1" "http://h" None 8 vars_x0 None (Some 9).

(** The live component after two calls of [getJwt]. *)
Definition asking_state : Comp * Page :=
  Nat.iter 2 (fun s => getJwt 0 s.1 s.2) (live_comp, page live_world).

Definition unmounting_run : list Action :=
  [Mount (props_with None vars_x0); ScriptLoad 0 true;
   Render 0 props_other_id; Unmount 0; ScriptLoad 0 true].

Definition unmounted_comp : Comp :=
  default (initial_comp (props_with None vars_x0))
          (comps (run unmounting_run initial_world) !! 0).

(** Renders and events that keep [id] and [baseUrl]. *)
Definition identity_keeping_run : list Action :=
  [Render 0 (props_with (Some "tok") vars_ab); GetJwt 0;
   Render 0 (props_with None vars_ba); VarsChanged 0 vars_x0].

Definition waiting_tag : ScriptTag :=
  default (mkTag "" [] Loading) (scripts (page waiting_world) !! 0).



(** ** Properties that hold of every component in every reachable world *)

(** [P] holds of every component ever mounted into the world. *)
Definition all_comps (P : nat -> Comp -> Page -> Prop) (w : World) : Prop :=
  forall cid c, comps w !! cid = Some c -> P cid c (page w).

(** The instance component [cid] holds after the calls [cs], started
    holding [held], when its calls follow the protocol of an instance: the
    factory is called only while no instance is held, [update] and [destroy]
    only on the instance that is held. [None]: the protocol is broken. *)
Fixpoint instance_protocol (cid : nat) (held : option nat) (cs : list Call)
    : option (option nat) :=
  match cs with
  | [] => Some held
  | CallFactory c i _ :: cs' =>
      if bool_decide (c = cid) then
        match held with
        | None => instance_protocol cid (Some i) cs'
        | Some _ => None
        end
      else instance_protocol cid held cs'
  | CallUpdate c i _ :: cs' =>
      if bool_decide (c = cid) then
        if bool_decide (held = Some i) then instance_protocol cid held cs'
        else None
      else instance_protocol cid held cs'
  | CallDestroy c i :: cs' =>
      if bool_decide (c = cid) then
        if bool_decide (held = Some i) then instance_protocol cid None cs'
        else None
      else instance_protocol cid held cs'
  | _ :: cs' => instance_protocol cid held cs'
  end.

(** The promises of component [cid] in the order of their numbers: those
    resolved so far, as the log has them, then those still queued. *)
Definition promises_of (cid : nat) (c : Comp) (pg : Page) : list nat :=
  map fst (resolve_calls_of cid (calls pg)) ++ resolveJwtRef c.

(** What the widget of component [cid] has been told about the variables:
    the [vars] of each factory call and of each [update], with the instance
    that received them. *)
Definition sent_vars (cid : nat) (cs : list Call)
    : list (nat * ShaperDashboardVars) :=
  omap (fun x => match x with
                 | CallFactory c i a =>
                     if bool_decide (c = cid) then Some (i, arg_vars a) else None
                 | CallUpdate c i v =>
                     if bool_decide (c = cid) then Some (i, v) else None
                 | _ => None
                 end) cs.

(** No instance is told the same serialisation twice in a row. *)
Fixpoint no_repeat (l : list (nat * ShaperDashboardVars)) : Prop :=
  match l with
  | x :: l' =>
      match l' with
      | y :: _ => (x.1 = y.1 -> JSON.stringify x.2 <> JSON.stringify y.2)
      | [] => True
      end /\ no_repeat l'
  | [] => True
  end.

Definition onVarsChanged_calls_of (cid : nat) (cs : list Call)
    : list (FnId * ShaperDashboardVars) :=
  omap (fun x => match x with
                 | CallOnVarsChanged c f v =>
                     if bool_decide (c = cid) then Some (f, v) else None
                 | _ => None
                 end) cs.

(** Every number is smaller than the one after it. *)
Fixpoint increasing (l : list nat) : bool :=
  match l with
  | x :: l' =>
      match l' with
      | y :: _ => x <? y
      | [] => true
      end && increasing l'
  | [] => true
  end.

(** The widget of component [cid] is in step with the component: the stored
    serialisation is that of the stored snapshot, the instances it was told
    about are old ones, no instance was told the same serialisation twice in
    a row, and the instance that is held was last told the stored snapshot. *)
Definition vars_sync (cid : nat) (c : Comp) (pg : Page) : Prop :=
  varsJsonRef c = JSON.stringify (varsRef c)
  /\ Forall (fun x => x.1 < next_instance pg) (sent_vars cid (calls pg))
  /\ no_repeat (sent_vars cid (calls pg))
  /\ (forall i, dashboardRef c = Some i ->
        last (sent_vars cid (calls pg)) = Some (i, varsRef c)).

(** Component [cid] is unmounted and the calls it has made to the factory,
    to its instances and to promise resolvers are [F], [D], [U] and [R]. *)
Definition silent (cid : nat) (F D : list nat)
    (U : list (nat * ShaperDashboardVars)) (R : list (nat * string))
    (w : World) : Prop :=
  exists c, comps w !! cid = Some c /\ alive c = false
            /\ factory_calls_of cid (calls (page w)) = F
            /\ destroy_calls_of cid (calls (page w)) = D
            /\ update_calls_of cid (calls (page w)) = U
            /\ resolve_calls_of cid (calls (page w)) = R.

(** Renders of component [cid] keep [baseUrl] and [id]; everything else,
    the unmount included, may happen. *)
Definition same_identity (cid : nat) (b d : string) (a : Action) : Prop :=
  match a with
  | Render c p => c = cid -> Props.baseUrl p = b /\ Props.id p = d
  | _ => True
  end.

(** Component [cid] has seen its script load, holds no instance, has
    [baseUrl] [b] and [id] [d] and has called the factory for the instances
    [F]. *)
Definition loaded_without_instance (cid : nat) (b d : string) (F : list nat)
    (w : World) : Prop :=
  exists c, comps w !! cid = Some c /\ scriptLoaded c = true
            /\ dashboardRef c = None
            /\ Props.baseUrl (props c) = b /\ Props.id (props c) = d
            /\ factory_calls_of cid (calls (page w)) = F.

(** ** More example runs *)

(** Two token requests, a token, one more request. *)
Definition token_run : list Action :=
  [Mount (props_with None vars_x0); ScriptLoad 0 true; GetJwt 0; GetJwt 0;
   Render 0 props_with_token; GetJwt 0].

Definition token_comp : Comp :=
  default (initial_comp (props_with None vars_x0))
          (comps (run token_run initial_world) !! 0).

(** Variables that change, stay and change back on a live component. *)
Definition vars_run : list Action :=
  [Mount (props_with None vars_x0); ScriptLoad 0 true;
   Render 0 (props_with None vars_ab); Render 0 (props_with None vars_ab);
   Render 0 (props_with None vars_x0)].

Definition vars_comp : Comp :=
  default (initial_comp (props_with None vars_x0))
          (comps (run vars_run initial_world) !! 0).

(** What may still happen around an unmounted component. *)
Definition after_unmount_run : list Action :=
  [GetJwt 0; VarsChanged 0 vars_ab; ScriptLoad 0 true;
   Mount (props_with None vars_x0); Render 0 props_with_token].

Definition props_with_callbacks : ShaperDashboardProps :=
  Props.mk "d1" "http://h" None 8 vars_x0 (Some 5) (Some 11).

Definition props_other_base : ShaperDashboardProps :=
  Props.mk "d1" "http://other" None 7 vars_x0 None (Some 9).

(** A component whose script has loaded without defining the factory. *)
Definition factoryless_world : World :=
  run [Mount (props_with None vars_x0); ScriptLoad 0 false] initial_world.

Definition factoryless_comp : Comp :=
  default (initial_comp (props_with None vars_x0)) (comps factoryless_world !! 0).

(** Another component brings the factory; the first one is rendered again. *)
Definition late_factory_run : list Action :=
  [Mount props_other_base; ScriptLoad 1 true;
   Render 0 (props_with (Some "tok") vars_ab); ScriptLoad 0 true].



(** * The version that shows load errors itself

    The earlier [ShaperDashboard] without the [onLoadError] prop: it keeps
    the error message in a state variable [scriptError] and renders
    [<div className="shaper-dashboard-error">Error: {scriptError}</div>] in
    place of the container once it is set. Its refs and its six effects are
    those of the latest version word for word, except that the two error
    handlers call [setScriptError]; the latest version's additional effect
    only writes [onLoadErrorRef], which this version does not have. So a
    commit of this version is a commit of the latest one on a component
    whose [containerRef] follows what was rendered. *)

Module ErrorDiv.

(** [ShaperDashboardProps] of this version. *)
Record OldProps : Type := mkProps {
  id : string;
  baseUrl : string;
  jwt : option string;
  refreshJwt : FnId;
  vars : ShaperDashboardVars;
  onVarsChanged : option FnId
}.

Definition lift (p : OldProps) : ShaperDashboardProps :=
  Props.mk (id p) (baseUrl p) (jwt p) (refreshJwt p) (vars p) (onVarsChanged p) None.

(** The component: the refs and [scriptLoaded] as in the latest version,
    and [const [scriptError, setScriptError] = useState<string | null>(null)]. *)
Record t : Type := mk {
  core : Comp;
  scriptError : option string
}.

(** What the component renders. *)
Inductive View : Type :=
  (** [<div className="shaper-dashboard-error">Error: {scriptError}</div>] *)
  | ViewError (text : string)
  (** [<div ref={containerRef} />] *)
  | ViewContainer.

(** [if (scriptError) { return ...error... } return <div ref={containerRef} />;]
    The empty string is falsy. *)
Definition view (c : t) : View :=
  match scriptError c with
  | Some m => if bool_decide (m = "") then ViewContainer else ViewError ("Error: " +:+ m)
  | None => ViewContainer
  end.

(** React sets [containerRef.current] when it commits the output, before the
    effects run: the element when the container is rendered, [null] when the
    error is. *)
Definition attach (c : t) : Comp :=
  set_containerRef match view c with ViewContainer => true | ViewError _ => false end
                   (core c).

Definition recommit (first : bool) (cid : nat) (p : ShaperDashboardProps)
    (c : t) (pg : Page) : t * Page :=
  let s := commit first cid p (attach c) pg in
  (mk s.1 (scriptError c), s.2).

(** A [setScriptLoaded(true)] made during the commit renders once more. *)
Definition settle (cid : nat) (c : t) (pg : Page) : t * Page :=
  if bool_decide (scriptLoaded (core c) = committedScriptLoaded (core c)) then (c, pg)
  else recommit false cid (props (core c)) c pg.

Definition rerender (cid : nat) (p : OldProps) (c : t) (pg : Page) : t * Page :=
  let s := recommit false cid (lift p) c pg in settle cid s.1 s.2.

Definition first_render (cid : nat) (p : OldProps) (pg : Page) : t * Page :=
  let s := recommit true cid (lift p) (mk (initial_comp (lift p)) None) pg in
  settle cid s.1 s.2.

Definition teardown (cid : nat) (c : t) (pg : Page) : t * Page :=
  let s := unmount cid (core c) pg in (mk s.1 (scriptError c), s.2).

(** [() => { setScriptLoaded(true); }] *)
Definition load_handler (cid : nat) (c : t) (pg : Page) : t * Page :=
  if alive (core c)
  then settle cid (mk (setScriptLoaded true (core c)) (scriptError c)) pg
  else (c, pg).

(** [() => { setScriptError(`Failed to load Shaper script from ${scriptUrl}`); }]:
    the state changes and the component renders again with the props it has. *)
Definition error_handler (cid : nat) (url : string) (c : t) (pg : Page) : t * Page :=
  if alive (core c) then
    let s := recommit false cid (props (core c))
               (mk (core c) (Some (load_error_message url))) pg in
    settle cid s.1 s.2
  else (c, pg).

Definition token_request (cid : nat) (c : t) (pg : Page) : t * Page :=
  let s := getJwt cid (core c) pg in (mk s.1 (scriptError c), s.2).

Definition vars_changed (cid : nat) (v : ShaperDashboardVars) (c : t) (pg : Page)
    : t * Page :=
  let s := onVarsChanged_closure cid v (core c) pg in (mk s.1 (scriptError c), s.2).

(** What can happen to one component and its page. *)
Inductive Event : Type :=
  | EvRender (p : OldProps)
  | EvUnmount
  (** a script element the component has a load handler on fires it;
      [registers]: the script has set [window.shaper.dashboard] *)
  | EvLoad (registers : bool)
  (** a script element with URL [url] the component has an error handler on
      fires it *)
  | EvError (url : string)
  | EvGetJwt
  | EvVarsChanged (v : ShaperDashboardVars)
  (** a script of another component sets [window.shaper.dashboard] *)
  | EvFactoryDefined.

Definition handle (cid : nat) (s : t * Page) (e : Event) : t * Page :=
  match e with
  | EvRender p => if alive (core s.1) then rerender cid p s.1 s.2 else s
  | EvUnmount => if alive (core s.1) then teardown cid s.1 s.2 else s
  | EvLoad registers =>
      load_handler cid s.1 (set_shaper_dashboard (shaper_dashboard s.2 || registers) s.2)
  | EvError url => error_handler cid url s.1 s.2
  | EvGetJwt => token_request cid s.1 s.2
  | EvVarsChanged v => vars_changed cid v s.1 s.2
  | EvFactoryDefined => (s.1, set_shaper_dashboard true s.2)
  end.

Definition handle_all (cid : nat) (es : list Event) (s : t * Page) : t * Page :=
  foldl (handle cid) s es.

End ErrorDiv.

(** * Two earlier versions that forward props to the instance themselves *)

(** The script effect, as every version has it, seen from the page: whether
    it called [setScriptLoaded(true)], and the page it leaves. *)
Definition load_script (cid : nat) (url : string) (pg : Page) : bool * Page :=
  if shaper_dashboard pg then (true, pg)
  else
    match querySelector url (scripts pg) with
    | Some i => (false, set_scripts (alter (add_waiter cid) i (scripts pg)) pg)
    | None => (false, set_scripts (scripts pg ++ [mkTag url [cid] Loading]) pg)
    end.

(** ** The version with an update effect on [[vars, onVarsChanged]]

    It has no [varsRef]: the factory is called without [vars] and without
    [onVarsChanged], and an effect declared after the initialising one
    forwards both with [update] whenever one of them is another object. Its
    props are those of the version above. *)

Module UpdateEffect.

Inductive Call : Type :=
  (** [window.shaper.dashboard({ baseUrl, container, dashboardId: id, getJwt })],
      returning instance [i] *)
  | Factory (i : nat) (baseUrl dashboardId : string)
  (** [dashboardRef.current.update({ vars, onVarsChanged })] *)
  | Update (i : nat) (vars : ShaperDashboardVars) (onVarsChanged : option FnId)
  | Destroy (i : nat)
  (** [refreshRef.current()]; [None] is the initial [() => { }] *)
  | Refresh (f : option FnId)
  | Resolve (r : nat) (v : string).

Record t : Type := mk {
  alive : bool;
  (** props, [scriptLoaded] of the last committed render *)
  props : ErrorDiv.OldProps;
  committedScriptLoaded : bool;
  scriptLoaded : bool;
  scriptError : option string;
  containerRef : bool;
  dashboardRef : option nat;
  getJwtResolveRef : list nat;
  refreshRef : option FnId;
  initCleanup : bool
}.

(** The component, the page (its [calls] are not used here) and the calls
    of this version. *)
Record World : Type := mkWorld {
  comp : t;
  page : Page;
  log : list Call
}.

(** [if (scriptError) { return ...error... } return <div ref={containerRef} />;] *)
Definition shows_container (err : option string) : bool :=
  match err with
  | Some m => bool_decide (m = "")
  | None => true
  end.

(** One commit with props [p]: the rendered element sets [containerRef],
    the cleanup of the initialising effect runs if its dependencies
    [[scriptLoaded, baseUrl, id]] changed, then the five effects run in the
    order of their [useEffect] calls, each if its dependencies changed. *)
Definition commit (first : bool) (cid : nat) (p : ErrorDiv.OldProps) (w : World)
    : World :=
  let c := comp w in
  let old := props c in
  let sl := scriptLoaded c in
  let container := shows_container (scriptError c) in
  let ch_init :=
    first || negb (bool_decide (committedScriptLoaded c = sl))
    || negb (Object_is_str (ErrorDiv.baseUrl old) (ErrorDiv.baseUrl p))
    || negb (Object_is_str (ErrorDiv.id old) (ErrorDiv.id p)) in
  (* the cleanup function of the initialising effect *)
  let cleans := negb first && ch_init && initCleanup c in
  let log0 :=
    log w ++ (if cleans then
                match dashboardRef c with Some i => [Destroy i] | None => [] end
              else []) in
  let d0 := if cleans then None else dashboardRef c in
  (* refreshRef.current = refreshJwt; [refreshJwt] *)
  let refresh :=
    if first || negb (bool_decide (ErrorDiv.refreshJwt old = ErrorDiv.refreshJwt p))
    then Some (ErrorDiv.refreshJwt p) else refreshRef c in
  (* if (jwt) { resolve all; getJwtResolveRef.current = [] }; [jwt] *)
  let resolves :=
    (first || negb (Object_is_ostr (ErrorDiv.jwt old) (ErrorDiv.jwt p)))
    && truthy (ErrorDiv.jwt p) in
  let log1 :=
    log0 ++ match ErrorDiv.jwt p with
            | Some v => if resolves then map (fun r => Resolve r v) (getJwtResolveRef c)
                        else []
            | None => []
            end in
  let waiters1 := if resolves then [] else getJwtResolveRef c in
  (* the script effect; [baseUrl] *)
  let ls :=
    if first || negb (Object_is_str (ErrorDiv.baseUrl old) (ErrorDiv.baseUrl p))
    then load_script cid (ErrorDiv.baseUrl p +:+ "/embed/shaper.js") (page w)
    else (false, page w) in
  let pg1 := ls.2 in
  let sl1 := ls.1 || sl in
  (* the initialising effect; [scriptLoaded, baseUrl, id] *)
  let creates :=
    ch_init && sl && shaper_dashboard pg1 && container
    && negb (bool_decide (is_Some d0)) in
  let i := next_instance pg1 in
  let d1 := if creates then Some i else d0 in
  let pg2 := if creates then alloc_instance pg1 else pg1 in
  let log2 :=
    log1 ++ (if creates then [Factory i (ErrorDiv.baseUrl p) (ErrorDiv.id p)] else []) in
  let cleanup1 := if ch_init then creates else initCleanup c in
  (* the update effect; [vars, onVarsChanged] *)
  let ch_update :=
    first || negb (Object_is_vars (ErrorDiv.vars old) (ErrorDiv.vars p))
    || negb (Object_is_fn (ErrorDiv.onVarsChanged old) (ErrorDiv.onVarsChanged p)) in
  let log3 :=
    log2 ++ (if ch_update then
               match d1 with
               | Some j => [Update j (ErrorDiv.vars p) (ErrorDiv.onVarsChanged p)]
               | None => []
               end
             else []) in
  mkWorld (mk (alive c) p sl sl1 (scriptError c) container d1 waiters1 refresh cleanup1)
          pg2 log3.

(** A [setScriptLoaded(true)] made during the commit renders once more. *)
Definition flush (cid : nat) (w : World) : World :=
  if bool_decide (scriptLoaded (comp w) = committedScriptLoaded (comp w)) then w
  else commit false cid (props (comp w)) w.

Definition render (cid : nat) (p : ErrorDiv.OldProps) (w : World) : World :=
  flush cid (commit false cid p w).

Definition initial (p : ErrorDiv.OldProps) : t :=
  mk true p false false None true None [] None false.

Definition mount (cid : nat) (p : ErrorDiv.OldProps) (pg : Page) (l : list Call)
    : World :=
  flush cid (commit true cid p (mkWorld (initial p) pg l)).

Definition set_state (sl : bool) (err : option string) (c : t) : t :=
  mk (alive c) (props c) (committedScriptLoaded c) sl err (containerRef c)
     (dashboardRef c) (getJwtResolveRef c) (refreshRef c) (initCleanup c).

(** [() => { setScriptLoaded(true); }] *)
Definition on_load (cid : nat) (w : World) : World :=
  if alive (comp w)
  then flush cid (mkWorld (set_state true (scriptError (comp w)) (comp w))
                          (page w) (log w))
  else w.

(** [() => { setScriptError(`Failed to load Shaper script from ${scriptUrl}`); }] *)
Definition on_error (cid : nat) (url : string) (w : World) : World :=
  if alive (comp w)
  then flush cid
         (commit false cid (props (comp w))
            (mkWorld (set_state (scriptLoaded (comp w))
                                (Some (load_error_message url)) (comp w))
                     (page w) (log w)))
  else w.

(** The script has run and has set [window.shaper.dashboard]. *)
Definition factory_defined (w : World) : World :=
  mkWorld (comp w) (set_shaper_dashboard true (page w)) (log w).

(** Unmounting runs the cleanup function of the initialising effect. *)
Definition unmount (w : World) : World :=
  let c := comp w in
  let cleans := initCleanup c in
  mkWorld (mk false (props c) (committedScriptLoaded c) (scriptLoaded c)
              (scriptError c) false (if cleans then None else dashboardRef c)
              (getJwtResolveRef c) (refreshRef c) false)
          (page w)
          (log w ++ (if cleans then
                       match dashboardRef c with Some i => [Destroy i] | None => [] end
                     else [])).

(** [getJwt: async () => { const p = new Promise((resolve) => {
    getJwtResolveRef.current.push(resolve); }); refreshRef.current(); return p; }] *)
Definition getJwt (w : World) : World :=
  let c := comp w in
  let r := next_promise (page w) in
  mkWorld (mk (alive c) (props c) (committedScriptLoaded c) (scriptLoaded c)
              (scriptError c) (containerRef c) (dashboardRef c)
              (getJwtResolveRef c ++ [r]) (refreshRef c) (initCleanup c))
          (alloc_promise (page w))
          (log w ++ [Refresh (refreshRef c)]).

(** The calls made to the factory and to instances. *)
Definition instance_calls (l : list Call) : list Call :=
  List.filter (fun x => match x with Refresh _ | Resolve _ _ => false | _ => true end) l.

End UpdateEffect.

(** ** The version that spreads its props

    The first version takes the props of the widget ([baseUrl],
    [dashboardId], [getJwt], [vars], [onVarsChanged]) as one object, passes
    [{ container, ...props }] to the factory and [props] to [update]. Its
    initialising effect depends on [[props]], the object itself, and has no
    test of [scriptLoaded]; a state variable [isReady] gates the update
    effect; until the script has loaded it renders a loading element. *)

Module PropsSpread.

(** The props object: its address (what the dependency [[props]] compares)
    and its properties. Each render of the host makes a new object. *)
Record SpreadProps : Type := mkProps {
  addr : nat;
  baseUrl : string;
  dashboardId : string;
  getJwt : FnId;
  vars : ShaperDashboardVars;
  onVarsChanged : option FnId
}.

Inductive Call : Type :=
  (** [window.shaper.dashboard({ container: containerRef.current, ...props })],
      returning instance [i] *)
  | Factory (i : nat) (p : SpreadProps)
  (** [dashboardRef.current.update(props)] *)
  | Update (i : nat) (p : SpreadProps)
  | Destroy (i : nat).

Inductive View : Type :=
  (** [<div className="shaper-dashboard-error">Error: {scriptError}</div>] *)
  | ViewError (text : string)
  (** [<div className="shaper-dashboard-loading">Loading Shaper Dashboard...</div>] *)
  | ViewLoading
  (** [<div ref={containerRef} />] *)
  | ViewContainer.

Record t : Type := mk {
  alive : bool;
  (** props, [scriptLoaded] and [isReady] of the last committed render *)
  props : SpreadProps;
  committedScriptLoaded : bool;
  committedIsReady : bool;
  scriptLoaded : bool;
  scriptError : option string;
  isReady : bool;
  containerRef : bool;
  dashboardRef : option nat;
  initCleanup : bool
}.

Record World : Type := mkWorld {
  comp : t;
  page : Page;
  log : list Call
}.

(** The three [return]s of the component, with the state of the render and
    [window.shaper?.dashboard] as the render finds it. *)
Definition view (err : option string) (sl : bool) (factory : bool) : View :=
  match err with
  | Some m =>
      if bool_decide (m = "") then
        if negb sl || negb factory then ViewLoading else ViewContainer
      else ViewError ("Error: " +:+ m)
  | None => if negb sl || negb factory then ViewLoading else ViewContainer
  end.

(** One commit with the props object [p]. The cleanup of the initialising
    effect runs if [[props]] changed; then the script effect
    ([[props.baseUrl]]), the initialising effect ([[props]]) and the update
    effect ([[props, isReady]]) run in this order, each if its dependencies
    changed. *)
Definition commit (first : bool) (cid : nat) (p : SpreadProps) (w : World) : World :=
  let c := comp w in
  let old := props c in
  let sl := scriptLoaded c in
  let rdy := isReady c in
  let container :=
    match view (scriptError c) sl (shaper_dashboard (page w)) with
    | ViewContainer => true
    | _ => false
    end in
  let ch_props := first || negb (bool_decide (addr old = addr p)) in
  (* the cleanup function of the initialising effect *)
  let cleans := negb first && ch_props && initCleanup c in
  let log0 :=
    log w ++ (if cleans then
                match dashboardRef c with Some i => [Destroy i] | None => [] end
              else []) in
  let d0 := if cleans then None else dashboardRef c in
  (* the script effect; [props.baseUrl] *)
  let ls :=
    if first || negb (Object_is_str (baseUrl old) (baseUrl p))
    then load_script cid (baseUrl p +:+ "/embed/shaper.js") (page w)
    else (false, page w) in
  let pg1 := ls.2 in
  let sl1 := ls.1 || sl in
  (* the initialising effect; [props] *)
  let creates :=
    ch_props && shaper_dashboard pg1 && container
    && negb (bool_decide (is_Some d0)) in
  let i := next_instance pg1 in
  let d1 := if creates then Some i else d0 in
  let pg2 := if creates then alloc_instance pg1 else pg1 in
  let log1 := log0 ++ (if creates then [Factory i p] else []) in
  (* setIsReady(true) *)
  let rdy1 := creates || rdy in
  let cleanup1 := if ch_props then creates else initCleanup c in
  (* the update effect; [props, isReady] *)
  let ch_update := ch_props || negb (bool_decide (committedIsReady c = rdy)) in
  let log2 :=
    log1 ++ (if ch_update && rdy then
               match d1 with Some j => [Update j p] | None => [] end
             else []) in
  mkWorld (mk (alive c) p sl rdy sl1 (scriptError c) rdy1 container d1 cleanup1)
          pg2 log2.

(** State updates made during the commit ([setScriptLoaded(true)],
    [setIsReady(true)]) render once more, with the same props object. *)
Definition flush (cid : nat) (w : World) : World :=
  if bool_decide (scriptLoaded (comp w) = committedScriptLoaded (comp w))
     && bool_decide (isReady (comp w) = committedIsReady (comp w))
  then w
  else commit false cid (props (comp w)) w.

Definition render (cid : nat) (p : SpreadProps) (w : World) : World :=
  flush cid (commit false cid p w).

Definition initial (p : SpreadProps) : t :=
  mk true p false false false None false false None false.

Definition mount (cid : nat) (p : SpreadProps) (pg : Page) (l : list Call) : World :=
  flush cid (commit true cid p (mkWorld (initial p) pg l)).

Definition set_state (sl : bool) (err : option string) (c : t) : t :=
  mk (alive c) (props c) (committedScriptLoaded c) (committedIsReady c) sl err
     (isReady c) (containerRef c) (dashboardRef c) (initCleanup c).

(** [() => { setScriptLoaded(true); }] *)
Definition on_load (cid : nat) (w : World) : World :=
  if alive (comp w)
  then flush cid (mkWorld (set_state true (scriptError (comp w)) (comp w))
                          (page w) (log w))
  else w.

(** [() => { setScriptError(`Failed to load Shaper script from ${scriptUrl}`); }] *)
Definition on_error (cid : nat) (url : string) (w : World) : World :=
  if alive (comp w)
  then flush cid
         (commit false cid (props (comp w))
            (mkWorld (set_state (scriptLoaded (comp w))
                                (Some (load_error_message url)) (comp w))
                     (page w) (log w)))
  else w.

Definition unmount (w : World) : World :=
  let c := comp w in
  let cleans := initCleanup c in
  mkWorld (mk false (props c) (committedScriptLoaded c) (committedIsReady c)
              (scriptLoaded c) (scriptError c) (isReady c) false
              (if cleans then None else dashboardRef c) false)
          (page w)
          (log w ++ (if cleans then
                       match dashboardRef c with Some i => [Destroy i] | None => [] end
                     else [])).

(** The script has run and has set [window.shaper.dashboard]. *)
Definition factory_defined (w : World) : World :=
  mkWorld (comp w) (set_shaper_dashboard true (page w)) (log w).

End PropsSpread.

(** ** Example runs of the earlier versions *)

Definition old_props : ErrorDiv.OldProps :=
  ErrorDiv.mkProps "d1" "http://h" None 7 vars_x0 None.

Definition old_props_ab : ErrorDiv.OldProps :=
  ErrorDiv.mkProps "d1" "http://h" None 7 vars_ab None.

Definition old_props_other_id : ErrorDiv.OldProps :=
  ErrorDiv.mkProps "d2" "http://h" None 7 vars_ab None.

Definition old_props_other_base : ErrorDiv.OldProps :=
  ErrorDiv.mkProps "d1" "http://other" None 7 vars_x0 None.

(** A component of the version that shows load errors itself, mounted and
    loaded. *)
Definition error_div_live : ErrorDiv.t * Page :=
  ErrorDiv.handle_all 0 [ErrorDiv.EvLoad true]
    (ErrorDiv.first_render 0 old_props empty_page).

Definition after_error_events : list ErrorDiv.Event :=
  [ErrorDiv.EvRender old_props_other_base; ErrorDiv.EvLoad true;
   ErrorDiv.EvGetJwt; ErrorDiv.EvRender old_props_other_id].

(** A component of the version with an update effect, mounted and loaded. *)
Definition update_effect_live : UpdateEffect.World :=
  UpdateEffect.on_load 0
    (UpdateEffect.factory_defined (UpdateEffect.mount 0 old_props empty_page [])).

Definition spread_props (a : nat) (v : ShaperDashboardVars) : PropsSpread.SpreadProps :=
  PropsSpread.mkProps a "http://h" "d1" 7 v None.

(** A component of the version that spreads its props, mounted, loaded and
    rendered once more by the host. *)
Definition props_spread_live : PropsSpread.World :=
  PropsSpread.render 0 (spread_props 2 vars_x0)
    (PropsSpread.on_load 0
       (PropsSpread.factory_defined
          (PropsSpread.mount 0 (spread_props 1 vars_x0) empty_page []))).

(** The loaded components of the two versions after a stale error handler
    has run: they show the load error and still hold their instance. *)
Definition update_effect_failed : UpdateEffect.World :=
  UpdateEffect.on_error 0 "http://h/embed/shaper.js" update_effect_live.

Definition props_spread_failed : PropsSpread.World :=
  PropsSpread.on_error 0 "http://h/embed/shaper.js" props_spread_live.
(** * Properties *)

(** ** Frames: what an effect leaves alone *)

Lemma when_frames_comp {A} (proj : Comp -> A) b f s :
  frames_comp proj f -> proj (when b f s).1 = proj s.1.
Proof. intros H. unfold when. destruct b; [apply H | done]. Qed.

Lemma when_frames_page {A} (proj : Page -> A) b f s :
  frames_page proj f -> proj (when b f s).2 = proj s.2.
Proof. intros H. unfold when. destruct b; [apply H | done]. Qed.

Ltac unfold_effects :=
  unfold cleanup_init, effect_init, effect_vars, effect_script, effect_jwt,
    pure_effect, effect_refresh, effect_onLoadError, effect_onVarsChanged,
    getJwt, onVarsChanged_closure, on_error in *.

Ltac frame_tac :=
  intros ??; unfold_effects; repeat case_match; simpl;
  rewrite ?omap_app; simpl; rewrite ?app_nil_r; try done.

Ltac frame_comp proj := rewrite ?(when_frames_comp proj) by frame_tac.
Ltac frame_page proj := rewrite ?(when_frames_page proj) by frame_tac.

(** What the four effects that call out add to the log, and what the
    variables effect and the cleanup leave in the refs. *)

Lemma calls_when_cleanup cid b s :
  calls (when b (cleanup_init cid) s).2 =
    calls s.2 ++
    (if b then match dashboardRef s.1 with
               | Some i => [CallDestroy cid i]
               | None => []
               end
     else []).
Proof.
  destruct b; simpl; [|by rewrite app_nil_r].
  unfold cleanup_init. case_match; simpl; by rewrite ?app_nil_r.
Qed.

Lemma calls_when_jwt cid p b s :
  calls (when b (effect_jwt cid p) s).2 =
    calls s.2 ++
    match Props.jwt p with
    | Some v => if b && truthy (Some v)
                then map (fun r => CallResolve cid r v) (resolveJwtRef s.1)
                else []
    | None => []
    end.
Proof.
  unfold effect_jwt.
  destruct b, (Props.jwt p) as [v|]; simpl; rewrite ?app_nil_r; try done.
  destruct (bool_decide (v = "")); simpl; by rewrite ?app_nil_r.
Qed.

Lemma calls_when_vars cid p b s :
  calls (when b (effect_vars cid p) s).2 =
    calls s.2 ++
    (if b && negb (Object_is_ostr (JSON.stringify (Props.vars p)) (varsJsonRef s.1))
     then match dashboardRef s.1 with
          | Some i => [CallUpdate cid i (Props.vars p)]
          | None => []
          end
     else []).
Proof.
  unfold effect_vars.
  destruct b; simpl; rewrite ?app_nil_r; try done.
  destruct (Object_is_ostr _ _); simpl; rewrite ?app_nil_r; try done.
  case_match; simpl; by rewrite ?app_nil_r.
Qed.

Lemma varsRef_when_vars cid p b s :
  varsRef (when b (effect_vars cid p) s).1 =
    if b && negb (Object_is_ostr (JSON.stringify (Props.vars p)) (varsJsonRef s.1))
    then Props.vars p else varsRef s.1.
Proof.
  unfold effect_vars. destruct b; simpl; try done.
  destruct (Object_is_ostr _ _); simpl; try done. by case_match.
Qed.

Lemma calls_when_init cid p sl b s :
  calls (when b (effect_init cid p sl) s).2 =
    calls s.2 ++
    (if b && sl && shaper_dashboard s.2 && containerRef s.1
        && negb (bool_decide (is_Some (dashboardRef s.1)))
     then [CallFactory cid (next_instance s.2)
             (mkEmbedArgs (Props.baseUrl p) (Props.id p) (varsRef s.1))]
     else []).
Proof.
  unfold effect_init.
  destruct b; simpl; rewrite ?app_nil_r; try done.
  destruct sl, (shaper_dashboard s.2), (containerRef s.1),
    (bool_decide (is_Some (dashboardRef s.1))); simpl; by rewrite ?app_nil_r.
Qed.

Lemma cleanup_dashboardRef cid b c pg :
  dashboardRef (when b (cleanup_init cid) (c, pg)).1 =
    if b then None else dashboardRef c.
Proof. destruct b; simpl; [|done]. unfold cleanup_init. by case_match. Qed.


(** ** What one commit does, field by field *)

Section Commit.

Variables (first : bool) (cid : nat) (p : ShaperDashboardProps).
Variables (c : Comp) (pg : Page).

Lemma commit_alive : alive (commit first cid p c pg).1 = alive c.
Proof. unfold commit. cbv zeta. simpl. by frame_comp alive. Qed.

Lemma commit_containerRef :
  containerRef (commit first cid p c pg).1 = containerRef c.
Proof. unfold commit. cbv zeta. simpl. by frame_comp containerRef. Qed.

Lemma commit_props : props (commit first cid p c pg).1 = p.
Proof. done. Qed.

Lemma commit_committedScriptLoaded :
  committedScriptLoaded (commit first cid p c pg).1 = scriptLoaded c.
Proof. done. Qed.

Lemma commit_scriptLoaded :
  scriptLoaded (commit first cid p c pg).1 =
    if (ch_script first p c) && shaper_dashboard pg then true else scriptLoaded c.
Proof.
  unfold commit. cbv zeta. simpl. frame_comp scriptLoaded.
  unfold when at 1. fold (ch_script first p c).
  destruct (ch_script first p c); simpl; [|by frame_comp scriptLoaded].
  unfold effect_script. frame_page shaper_dashboard. simpl.
  destruct (shaper_dashboard pg); simpl; [done|].
  case_match; simpl; by frame_comp scriptLoaded.
Qed.

Lemma commit_shaper_dashboard :
  shaper_dashboard (commit first cid p c pg).2 = shaper_dashboard pg.
Proof. unfold commit. cbv zeta. simpl. by frame_page shaper_dashboard. Qed.

Lemma commit_next_promise :
  next_promise (commit first cid p c pg).2 = next_promise pg.
Proof. unfold commit. cbv zeta. simpl. by frame_page next_promise. Qed.

Lemma commit_resolveJwtRef :
  resolveJwtRef (commit first cid p c pg).1 =
    if (ch_jwt first p c) && truthy (Props.jwt p) then [] else resolveJwtRef c.
Proof.
  unfold commit. cbv zeta. simpl. frame_comp resolveJwtRef.
  unfold when at 1. fold (ch_jwt first p c).
  destruct (ch_jwt first p c); simpl; [|by frame_comp resolveJwtRef].
  unfold effect_jwt. destruct (Props.jwt p) as [v|]; simpl;
    [|by frame_comp resolveJwtRef].
  destruct (bool_decide (v = "")); simpl; by frame_comp resolveJwtRef.
Qed.

Lemma commit_refreshRef :
  refreshRef (commit first cid p c pg).1 =
    if first || negb (bool_decide (Props.refreshJwt (props c) = Props.refreshJwt p))
    then Some (Props.refreshJwt p) else refreshRef c.
Proof.
  unfold commit. cbv zeta. simpl. frame_comp refreshRef.
  unfold when at 1. case_match; simpl; by frame_comp refreshRef.
Qed.

Lemma commit_onLoadErrorRef :
  onLoadErrorRef (commit first cid p c pg).1 =
    if first || negb (Object_is_default_fn (Props.onLoadError (props c))
                                           (Props.onLoadError p))
    then Props.onLoadError p else onLoadErrorRef c.
Proof.
  unfold commit. cbv zeta. simpl. frame_comp onLoadErrorRef.
  unfold when at 1. case_match; simpl; by frame_comp onLoadErrorRef.
Qed.

Lemma commit_onVarsChangedRef :
  onVarsChangedRef (commit first cid p c pg).1 =
    if first || negb (Object_is_fn (Props.onVarsChanged (props c))
                                   (Props.onVarsChanged p))
    then Props.onVarsChanged p else onVarsChangedRef c.
Proof.
  unfold commit. cbv zeta. simpl. frame_comp onVarsChangedRef.
  unfold when at 1. case_match; simpl; by frame_comp onVarsChangedRef.
Qed.

Lemma commit_varsRef : varsRef (commit first cid p c pg).1 = (vars_after first p c).
Proof.
  unfold commit, vars_after, vars_differ. cbv zeta. simpl. frame_comp varsRef.
  unfold when at 1. fold (ch_vars first p c).
  destruct (ch_vars first p c); simpl; [|by frame_comp varsRef].
  unfold effect_vars. frame_comp varsJsonRef. frame_comp dashboardRef.
  destruct (Object_is_ostr _ _); simpl; [by frame_comp varsRef|].
  by case_match.
Qed.

Lemma commit_varsJsonRef :
  varsJsonRef (commit first cid p c pg).1 =
    if (vars_differ first p c) then JSON.stringify (Props.vars p) else varsJsonRef c.
Proof.
  unfold commit, vars_differ. cbv zeta. simpl. frame_comp varsJsonRef.
  unfold when at 1. fold (ch_vars first p c).
  destruct (ch_vars first p c); simpl; [|by frame_comp varsJsonRef].
  unfold effect_vars. frame_comp varsJsonRef. frame_comp dashboardRef.
  destruct (Object_is_ostr _ _); simpl; [by frame_comp varsJsonRef|].
  by case_match.
Qed.

Lemma commit_dashboardRef :
  dashboardRef (commit first cid p c pg).1 =
    if (creates first p c pg) then Some (next_instance pg) else (dashboard_after_cleanup first p c).
Proof.
  unfold commit, creates, dashboard_after_cleanup. cbv zeta. simpl.
  fold (ch_init first p c) (cleans first p c).
  unfold when at 1. destruct (ch_init first p c); simpl.
  - unfold effect_init. frame_page shaper_dashboard. frame_comp containerRef.
    frame_comp dashboardRef. frame_page next_instance.
    rewrite cleanup_dashboardRef. simpl.
    destruct (scriptLoaded c), (shaper_dashboard pg), (containerRef c),
      (bool_decide (is_Some (if (cleans first p c) then None else dashboardRef c)));
      simpl; frame_comp dashboardRef; by rewrite ?cleanup_dashboardRef.
  - frame_comp dashboardRef. by rewrite cleanup_dashboardRef.
Qed.

Lemma commit_initCleanup :
  initCleanup (commit first cid p c pg).1 =
    if (ch_init first p c) then (creates first p c pg) else initCleanup c.
Proof.
  unfold commit, creates, dashboard_after_cleanup. cbv zeta. simpl.
  fold (ch_init first p c) (cleans first p c).
  unfold when at 1. destruct (ch_init first p c); simpl.
  - unfold effect_init. frame_page shaper_dashboard. frame_comp containerRef.
    frame_comp dashboardRef. rewrite cleanup_dashboardRef. simpl.
    by destruct (scriptLoaded c), (shaper_dashboard pg), (containerRef c),
      (bool_decide (is_Some (if (cleans first p c) then None else dashboardRef c))).
  - by frame_comp initCleanup.
Qed.

Lemma commit_next_instance :
  next_instance (commit first cid p c pg).2 =
    if (creates first p c pg) then S (next_instance pg) else next_instance pg.
Proof.
  unfold commit, creates, dashboard_after_cleanup. cbv zeta. simpl.
  fold (ch_init first p c) (cleans first p c).
  unfold when at 1. destruct (ch_init first p c); simpl.
  - unfold effect_init. frame_page shaper_dashboard. frame_comp containerRef.
    frame_comp dashboardRef. rewrite cleanup_dashboardRef. simpl.
    destruct (scriptLoaded c), (shaper_dashboard pg), (containerRef c),
      (bool_decide (is_Some (if (cleans first p c) then None else dashboardRef c)));
      simpl; by frame_page next_instance.
  - by frame_page next_instance.
Qed.

(** The script effect either finds the factory, finds the element, or
    appends a new element. *)
Lemma commit_scripts : scripts (commit first cid p c pg).2 = (scripts_after first cid p c pg).
Proof.
  unfold commit, scripts_after. cbv zeta. simpl. frame_page scripts.
  unfold when at 1. fold (ch_script first p c).
  destruct (ch_script first p c); simpl; [|by frame_page scripts].
  unfold effect_script. frame_page shaper_dashboard. simpl.
  destruct (shaper_dashboard pg); simpl; [by frame_page scripts|].
  frame_page scripts. simpl. by case_match.
Qed.

Lemma commit_calls :
  calls (commit first cid p c pg).2 =
    calls pg ++ (destroy_part first cid p c) ++ (resolve_part first cid p c) ++ (update_part first cid p c) ++ (factory_part first cid p c pg).
Proof.
  unfold commit. cbv zeta. simpl. fold (ch_init first p c) (cleans first p c) (ch_jwt first p c) (ch_vars first p c).
  rewrite calls_when_init. frame_page calls.
  rewrite calls_when_vars. frame_page calls.
  rewrite calls_when_jwt. frame_page calls.
  rewrite calls_when_cleanup. simpl.
  frame_page shaper_dashboard. frame_comp containerRef.
  frame_comp resolveJwtRef. frame_comp dashboardRef.
  frame_comp varsRef. rewrite varsRef_when_vars.
  frame_comp varsJsonRef. frame_comp dashboardRef. frame_comp varsRef.
  frame_page next_instance.
  rewrite ?cleanup_dashboardRef. frame_comp dashboardRef.
  rewrite ?cleanup_dashboardRef. simpl.
  rewrite <- !app_assoc. by repeat f_equal.
Qed.

End Commit.

(** ** Re-rendering with the same props *)

Lemma Object_is_ostr_refl a : Object_is_ostr a a = true.
Proof. by apply bool_decide_eq_true. Qed.

Lemma Object_is_str_refl a : Object_is_str a a = true.
Proof. by apply bool_decide_eq_true. Qed.

Lemma Object_is_fn_refl a : Object_is_fn a a = true.
Proof. by apply bool_decide_eq_true. Qed.

Lemma Object_is_vars_refl a : Object_is_vars a a = true.
Proof. destruct a; simpl; [by apply bool_decide_eq_true | done]. Qed.

Section Flush.

Variables (cid : nat) (c : Comp) (pg : Page).

Lemma ch_jwt_same : ch_jwt false (props c) c = false.
Proof. unfold ch_jwt. by rewrite Object_is_ostr_refl. Qed.

Lemma ch_script_same : ch_script false (props c) c = false.
Proof. unfold ch_script. by rewrite Object_is_str_refl. Qed.

Lemma ch_vars_same : ch_vars false (props c) c = false.
Proof. unfold ch_vars. by rewrite Object_is_vars_refl. Qed.

Lemma ch_init_same :
  ch_init false (props c) c =
    negb (bool_decide (committedScriptLoaded c = scriptLoaded c)).
Proof.
  unfold ch_init, init_deps_changed. rewrite !Object_is_str_refl. simpl.
  by rewrite !orb_false_r.
Qed.

Lemma flush_alive : alive (flush cid c pg).1 = alive c.
Proof. unfold flush. case_bool_decide; [done | apply commit_alive]. Qed.

Lemma flush_props : props (flush cid c pg).1 = props c.
Proof. unfold flush. by case_bool_decide. Qed.

Lemma flush_containerRef : containerRef (flush cid c pg).1 = containerRef c.
Proof. unfold flush. case_bool_decide; [done | apply commit_containerRef]. Qed.

Lemma flush_scriptLoaded : scriptLoaded (flush cid c pg).1 = scriptLoaded c.
Proof.
  unfold flush. case_bool_decide; [done|].
  by rewrite commit_scriptLoaded, ch_script_same.
Qed.

Lemma flush_settled :
  committedScriptLoaded (flush cid c pg).1 = scriptLoaded c.
Proof. unfold flush. by case_bool_decide. Qed.

Lemma flush_resolveJwtRef : resolveJwtRef (flush cid c pg).1 = resolveJwtRef c.
Proof.
  unfold flush. case_bool_decide; [done|].
  by rewrite commit_resolveJwtRef, ch_jwt_same.
Qed.

Lemma flush_refreshRef : refreshRef (flush cid c pg).1 = refreshRef c.
Proof.
  unfold flush. case_bool_decide; [done|].
  rewrite commit_refreshRef. simpl. by rewrite bool_decide_eq_true_2.
Qed.

Lemma flush_onVarsChangedRef :
  onVarsChangedRef (flush cid c pg).1 = onVarsChangedRef c.
Proof.
  unfold flush. case_bool_decide; [done|].
  rewrite commit_onVarsChangedRef. by rewrite Object_is_fn_refl.
Qed.

Lemma flush_onLoadErrorRef :
  onLoadErrorRef c = Props.onLoadError (props c) ->
  onLoadErrorRef (flush cid c pg).1 = onLoadErrorRef c.
Proof.
  intros H. unfold flush. case_bool_decide; [done|].
  rewrite commit_onLoadErrorRef. by case_match.
Qed.


Lemma flush_varsJsonRef : varsJsonRef (flush cid c pg).1 = varsJsonRef c.
Proof.
  unfold flush. case_bool_decide; [done|].
  rewrite commit_varsJsonRef. unfold vars_differ. by rewrite ch_vars_same.
Qed.

Lemma flush_scripts : scripts (flush cid c pg).2 = scripts pg.
Proof.
  unfold flush. case_bool_decide; [done|].
  rewrite commit_scripts. unfold scripts_after. by rewrite ch_script_same.
Qed.

Lemma flush_shaper_dashboard :
  shaper_dashboard (flush cid c pg).2 = shaper_dashboard pg.
Proof. unfold flush. case_bool_decide; [done | apply commit_shaper_dashboard]. Qed.

Lemma flush_next_promise : next_promise (flush cid c pg).2 = next_promise pg.
Proof. unfold flush. case_bool_decide; [done | apply commit_next_promise]. Qed.

(** The second commit can only run the cleanup and the initialising
    effect. *)
Lemma flush_calls :
  calls (flush cid c pg).2 =
    calls pg ++
    (if bool_decide (scriptLoaded c = committedScriptLoaded c) then []
     else destroy_part false cid (props c) c
          ++ factory_part false cid (props c) c pg).
Proof.
  unfold flush. case_bool_decide; [by rewrite app_nil_r|].
  rewrite commit_calls. unfold resolve_part, update_part, vars_differ.
  rewrite ch_jwt_same, ch_vars_same. simpl. by case_match.
Qed.


Lemma flush_initCleanup :
  initCleanup (flush cid c pg).1 =
    if bool_decide (scriptLoaded c = committedScriptLoaded c)
    then initCleanup c
    else creates false (props c) c pg.
Proof.
  unfold flush. case_bool_decide as E; [done|].
  rewrite commit_initCleanup, ch_init_same.
  rewrite bool_decide_eq_false_2; [done | congruence].
Qed.

Lemma flush_next_instance :
  next_instance (flush cid c pg).2 =
    if bool_decide (scriptLoaded c = committedScriptLoaded c)
    then next_instance pg
    else if creates false (props c) c pg then S (next_instance pg)
         else next_instance pg.
Proof. unfold flush. case_bool_decide; [done | apply commit_next_instance]. Qed.

End Flush.

Lemma is_Some_Some_b {A} (x : A) : bool_decide (is_Some (Some x)) = true.
Proof. apply bool_decide_eq_true_2. eauto. Qed.

Lemma is_Some_None_b {A} : bool_decide (is_Some (@None A)) = false.
Proof. apply bool_decide_eq_false_2. by intros [??]. Qed.

Lemma creates_loaded first p c pg :
  creates first p c pg = true -> scriptLoaded c = true.
Proof.
  unfold creates. intros H.
  repeat (apply andb_true_iff in H as [H ?]). done.
Qed.

Lemma commit_inv cid p c pg :
  comp_inv c -> alive c = true -> comp_inv (commit false cid p c pg).1.
Proof.
  intros [Hcl Hjs Hre Hle Hvc Hll Hd Hco] Hal. split.
  - rewrite commit_initCleanup, commit_dashboardRef.
    unfold creates, dashboard_after_cleanup, cleans. simpl.
    destruct (init_deps_changed p c); simpl; [|done].
    rewrite Hcl.
    destruct (dashboardRef c); rewrite ?is_Some_Some_b, ?is_Some_None_b; simpl;
      rewrite ?is_Some_None_b, andb_true_r;
      destruct (_ && _ && _); simpl; by rewrite ?is_Some_Some_b, ?is_Some_None_b.
  - rewrite commit_varsJsonRef, commit_varsRef. unfold vars_after.
    by destruct (vars_differ false p c).
  - rewrite commit_refreshRef. simpl.
    destruct (bool_decide (Props.refreshJwt _ = _)) eqn:E; simpl; [|done].
    apply bool_decide_eq_true in E. by rewrite Hre, E.
  - rewrite commit_onLoadErrorRef. simpl.
    unfold Object_is_default_fn. rewrite Hle.
    destruct (Props.onLoadError (props c)), (Props.onLoadError p); simpl; try done.
    destruct (bool_decide (_ = _)) eqn:E; simpl; [|done].
    apply bool_decide_eq_true in E. congruence.
  - rewrite commit_onVarsChangedRef. simpl. unfold Object_is_fn.
    destruct (bool_decide (_ = _)) eqn:E; simpl; [|done].
    apply bool_decide_eq_true in E. by rewrite Hvc, E.
  - rewrite commit_dashboardRef, commit_scriptLoaded.
    destruct (creates false p c pg) eqn:E.
    + intros _. apply creates_loaded in E. rewrite E. by case_match.
    + unfold dashboard_after_cleanup. destruct (cleans false p c).
      * by intros [??].
      * intros H. rewrite (Hll H). by case_match.
  - rewrite commit_alive. congruence.
  - rewrite commit_alive, commit_containerRef. done.
Qed.

Lemma commit_inv_first cid p pg :
  comp_inv (commit true cid p (initial_comp p) pg).1.
Proof.
  split.
  - rewrite commit_initCleanup, commit_dashboardRef.
    unfold creates, dashboard_after_cleanup, cleans. simpl.
    by rewrite ?is_Some_None_b.
  - rewrite commit_varsJsonRef, commit_varsRef. unfold vars_after.
    by destruct (vars_differ true p _).
  - by rewrite commit_refreshRef.
  - by rewrite commit_onLoadErrorRef.
  - by rewrite commit_onVarsChangedRef.
  - rewrite commit_dashboardRef. unfold creates. simpl. by intros [??].
  - by rewrite commit_alive.
  - by rewrite commit_containerRef.
Qed.

Lemma setScriptLoaded_inv c : comp_inv c -> comp_inv (setScriptLoaded true c).
Proof. intros []. by split. Qed.

Lemma flush_ok cid c pg :
  comp_inv c -> alive c = true -> comp_ok (flush cid c pg).1.
Proof.
  intros H Hal. split.
  - unfold flush. case_bool_decide; [done | by apply commit_inv].
  - by rewrite flush_scriptLoaded, flush_settled.
Qed.

Lemma render_ok cid p c pg :
  comp_ok c -> alive c = true -> comp_ok (render cid p c pg).1.
Proof.
  intros [H _] Hal. unfold render. apply flush_ok.
  - by apply commit_inv.
  - by rewrite commit_alive.
Qed.

Lemma mount_ok cid p pg : comp_ok (mount cid p pg).1.
Proof.
  unfold mount. apply flush_ok.
  - apply commit_inv_first.
  - by rewrite commit_alive.
Qed.

Lemma unmount_ok cid c pg : comp_ok c -> comp_ok (unmount cid c pg).1.
Proof.
  intros [[Hcl Hjs Hre Hle Hvc Hll Hd Hco] Hs]. unfold unmount. simpl.
  assert (dashboardRef (when (initCleanup c) (cleanup_init cid) (c, pg)).1 = None) as HN.
  { rewrite cleanup_dashboardRef, Hcl. case_bool_decide as E; [done|].
    destruct (dashboardRef c); [|done]. destruct E; eauto. }
  split; [split|]; simpl.
  - by rewrite HN.
  - frame_comp varsJsonRef. by frame_comp varsRef.
  - frame_comp refreshRef. by frame_comp props.
  - frame_comp onLoadErrorRef. by frame_comp props.
  - frame_comp onVarsChangedRef. by frame_comp props.
  - rewrite HN. by intros [??].
  - done.
  - done.
  - frame_comp scriptLoaded. by frame_comp committedScriptLoaded.
Qed.

Lemma on_load_ok cid c pg : comp_ok c -> comp_ok (on_load cid c pg).1.
Proof.
  intros H. unfold on_load. destruct (alive c) eqn:E; [|done].
  apply flush_ok; [|done]. apply setScriptLoaded_inv, H.
Qed.

Lemma getJwt_ok cid c pg : comp_ok c -> comp_ok (getJwt cid c pg).1.
Proof. intros [[] ?]. by repeat split. Qed.

Lemma on_error_ok cid url c pg : comp_ok c -> comp_ok (on_error cid url c pg).1.
Proof. done. Qed.

Lemma onVarsChanged_closure_ok cid v c pg :
  comp_ok c -> comp_ok (onVarsChanged_closure cid v c pg).1.
Proof. unfold onVarsChanged_closure. by case_match. Qed.


(** ** Reading the log of a commit *)

Lemma factory_calls_of_app cid l1 l2 :
  factory_calls_of cid (l1 ++ l2) = factory_calls_of cid l1 ++ factory_calls_of cid l2.
Proof. apply omap_app. Qed.

Lemma destroy_calls_of_app cid l1 l2 :
  destroy_calls_of cid (l1 ++ l2) = destroy_calls_of cid l1 ++ destroy_calls_of cid l2.
Proof. apply omap_app. Qed.

Lemma update_calls_of_app cid l1 l2 :
  update_calls_of cid (l1 ++ l2) = update_calls_of cid l1 ++ update_calls_of cid l2.
Proof. apply omap_app. Qed.

Lemma resolve_calls_of_app cid l1 l2 :
  resolve_calls_of cid (l1 ++ l2) = resolve_calls_of cid l1 ++ resolve_calls_of cid l2.
Proof. apply omap_app. Qed.

Lemma refresh_calls_of_app cid l1 l2 :
  refresh_calls_of cid (l1 ++ l2) = refresh_calls_of cid l1 ++ refresh_calls_of cid l2.
Proof. apply omap_app. Qed.

Lemma load_error_calls_of_app cid l1 l2 :
  load_error_calls_of cid (l1 ++ l2) =
    load_error_calls_of cid l1 ++ load_error_calls_of cid l2.
Proof. apply omap_app. Qed.

Ltac split_calls :=
  rewrite ?factory_calls_of_app, ?destroy_calls_of_app, ?update_calls_of_app,
    ?resolve_calls_of_app, ?refresh_calls_of_app, ?load_error_calls_of_app.

(** Every call a commit of component [cid] logs is a call of [cid]. *)
Lemma destroy_part_owner first cid p c :
  Forall (fun x => call_owner x = cid) (destroy_part first cid p c).
Proof. unfold destroy_part. repeat case_match; by repeat constructor. Qed.

Lemma resolve_part_owner first cid p c :
  Forall (fun x => call_owner x = cid) (resolve_part first cid p c).
Proof.
  unfold resolve_part. repeat case_match; try by constructor.
  by apply Forall_map, Forall_true.
Qed.

Lemma update_part_owner first cid p c :
  Forall (fun x => call_owner x = cid) (update_part first cid p c).
Proof. unfold update_part. repeat case_match; by repeat constructor. Qed.

Lemma factory_part_owner first cid p c pg :
  Forall (fun x => call_owner x = cid) (factory_part first cid p c pg).
Proof. unfold factory_part. repeat case_match; by repeat constructor. Qed.

Lemma resolve_calls_of_resolves cid v q :
  resolve_calls_of cid (map (fun r => CallResolve cid r v) q) =
    map (fun r => (r, v)) q.
Proof.
  induction q as [|r q IH]; [done|]. simpl.
  unfold resolve_calls_of in *. simpl.
  rewrite bool_decide_eq_true_2 by done. by rewrite IH.
Qed.

Lemma resolve_calls_of_resolve_part first cid p c :
  resolve_calls_of cid (resolve_part first cid p c) =
    match Props.jwt p with
    | Some v => if ch_jwt first p c && truthy (Some v)
                then map (fun r => (r, v)) (resolveJwtRef c) else []
    | None => []
    end.
Proof.
  unfold resolve_part. repeat case_match; try done.
  apply resolve_calls_of_resolves.
Qed.

Lemma resolve_calls_of_destroy_part cid' first cid p c :
  resolve_calls_of cid' (destroy_part first cid p c) = [].
Proof. unfold destroy_part. by repeat case_match. Qed.

Lemma resolve_calls_of_update_part cid' first cid p c :
  resolve_calls_of cid' (update_part first cid p c) = [].
Proof. unfold update_part. by repeat case_match. Qed.

Lemma resolve_calls_of_factory_part cid' first cid p c pg :
  resolve_calls_of cid' (factory_part first cid p c pg) = [].
Proof. unfold factory_part. by repeat case_match. Qed.

Lemma refresh_calls_of_destroy_part cid' first cid p c :
  refresh_calls_of cid' (destroy_part first cid p c) = [].
Proof. unfold destroy_part. by repeat case_match. Qed.

Lemma refresh_calls_of_update_part cid' first cid p c :
  refresh_calls_of cid' (update_part first cid p c) = [].
Proof. unfold update_part. by repeat case_match. Qed.

Lemma refresh_calls_of_factory_part cid' first cid p c pg :
  refresh_calls_of cid' (factory_part first cid p c pg) = [].
Proof. unfold factory_part. by repeat case_match. Qed.

Lemma refresh_calls_of_resolve_part cid' first cid p c :
  refresh_calls_of cid' (resolve_part first cid p c) = [].
Proof.
  unfold resolve_part. repeat case_match; try done.
  induction (resolveJwtRef c); done.
Qed.

(** ** The token rendezvous *)

Lemma render_resolveJwtRef cid p c pg :
  resolveJwtRef (render cid p c pg).1 =
    if ch_jwt false p c && truthy (Props.jwt p) then [] else resolveJwtRef c.
Proof. unfold render. by rewrite flush_resolveJwtRef, commit_resolveJwtRef. Qed.

Lemma render_resolve_calls cid p c pg :
  resolve_calls_of cid (calls (render cid p c pg).2) =
    resolve_calls_of cid (calls pg) ++
    match Props.jwt p with
    | Some v => if ch_jwt false p c && truthy (Some v)
                then map (fun r => (r, v)) (resolveJwtRef c) else []
    | None => []
    end.
Proof.
  unfold render. rewrite flush_calls, commit_calls. split_calls.
  rewrite resolve_calls_of_resolve_part, resolve_calls_of_destroy_part,
    resolve_calls_of_update_part, resolve_calls_of_factory_part.
  simpl. rewrite app_nil_r.
  case_bool_decide; split_calls;
    by rewrite ?resolve_calls_of_destroy_part, ?resolve_calls_of_factory_part,
         ?app_nil_r.
Qed.

Lemma render_refresh_calls cid p c pg :
  refresh_calls_of cid (calls (render cid p c pg).2) =
    refresh_calls_of cid (calls pg).
Proof.
  unfold render. rewrite flush_calls, commit_calls. split_calls.
  rewrite refresh_calls_of_resolve_part, refresh_calls_of_destroy_part,
    refresh_calls_of_update_part, refresh_calls_of_factory_part.
  simpl. rewrite app_nil_r.
  case_bool_decide; split_calls;
    by rewrite ?refresh_calls_of_destroy_part, ?refresh_calls_of_factory_part,
         ?app_nil_r.
Qed.

(** [n] calls of [getJwt] in a row. *)
Lemma getJwt_iter cid n c pg :
  let s := Nat.iter n (fun s => getJwt cid s.1 s.2) (c, pg) in
  resolveJwtRef s.1 = resolveJwtRef c ++ seq (next_promise pg) n
  /\ next_promise s.2 = next_promise pg + n
  /\ props s.1 = props c
  /\ refreshRef s.1 = refreshRef c
  /\ calls s.2 = calls pg ++ replicate n (CallRefresh cid (refreshRef c)).
Proof.
  induction n as [|n IH]; simpl.
  - by rewrite !app_nil_r, Nat.add_0_r.
  - destruct IH as (IH1 & IH2 & IH3 & IH4 & IH5).
    rewrite IH1, IH2, IH3, IH4, IH5. repeat split.
    + rewrite <- app_assoc. f_equal. symmetry. exact (seq_S n (next_promise pg)).
    + lia.
    + rewrite <- app_assoc. f_equal.
      change (CallRefresh cid (refreshRef c) :: replicate n _)
        with (replicate (S n) (CallRefresh cid (refreshRef c))).
      by rewrite replicate_S_end.
Qed.

Lemma truthy_Some v : v <> "" -> truthy (Some v) = true.
Proof. intros H. unfold truthy. by rewrite bool_decide_eq_false_2. Qed.

Lemma resolve_calls_of_refreshes cid' cid f n :
  resolve_calls_of cid' (replicate n (CallRefresh cid f)) = [].
Proof. by induction n. Qed.

Lemma refresh_calls_of_refreshes cid f n :
  refresh_calls_of cid (replicate n (CallRefresh cid f)) = replicate n f.
Proof.
  induction n as [|n IH]; [done|]. simpl. unfold refresh_calls_of in *. simpl.
  rewrite bool_decide_eq_true_2 by done. by rewrite IH.
Qed.

(** C1. [n] calls of [getJwt] made while no token value has been supplied
    leave [n] promises pending, in the order of the calls; the render that
    then supplies the token value [v] resolves every pending promise with
    [v], in the order in which they were queued, and leaves the queue
    empty. *)
Theorem pending_requests_resolve_in_order
    (cid n : nat) (c : Comp) (pg : Page) (p : ShaperDashboardProps) (v : string) :
  truthy (Props.jwt (props c)) = false ->
  v <> "" ->
  Props.jwt p = Some v ->
  let s1 := Nat.iter n (fun s => getJwt cid s.1 s.2) (c, pg) in
  let s2 := render cid p s1.1 s1.2 in
  resolveJwtRef s1.1 = resolveJwtRef c ++ seq (next_promise pg) n
  /\ resolve_calls_of cid (calls s1.2) = resolve_calls_of cid (calls pg)
  /\ resolve_calls_of cid (calls s2.2) =
       resolve_calls_of cid (calls pg)
       ++ map (fun r => (r, v)) (resolveJwtRef c ++ seq (next_promise pg) n)
  /\ resolveJwtRef s2.1 = [].
Proof.
  intros Hnone Hv Hp s1 s2.
  destruct (getJwt_iter cid n c pg) as (Q & _ & P & _ & L).
  fold s1 in Q, P, L.
  assert (Hch : ch_jwt false p s1.1 = true).
  { unfold ch_jwt, Object_is_ostr. rewrite P, Hp. simpl.
    rewrite bool_decide_eq_false_2; [done|].
    intros E. rewrite E in Hnone. by rewrite truthy_Some in Hnone. }
  repeat split.
  - done.
  - rewrite L. split_calls. by rewrite resolve_calls_of_refreshes, app_nil_r.
  - subst s2. rewrite render_resolve_calls, Hp, Hch, truthy_Some by done.
    simpl. rewrite L, Q. split_calls.
    by rewrite resolve_calls_of_refreshes, app_nil_r.
  - subst s2. rewrite render_resolveJwtRef, Hp, Hch, truthy_Some by done. done.
Qed.

(** C9. A render whose [jwt] is falsy ([undefined] or the empty string)
    resolves no pending promise and leaves the queue of waiters as it is. *)
Theorem falsy_jwt_leaves_waiters_pending
    (cid : nat) (c : Comp) (pg : Page) (p : ShaperDashboardProps) :
  truthy (Props.jwt p) = false ->
  let s := render cid p c pg in
  resolveJwtRef s.1 = resolveJwtRef c
  /\ resolve_calls_of cid (calls s.2) = resolve_calls_of cid (calls pg).
Proof.
  intros H s. subst s. split.
  - by rewrite render_resolveJwtRef, H, andb_false_r.
  - rewrite render_resolve_calls.
    destruct (Props.jwt p) as [v|]; [|by rewrite app_nil_r].
    by rewrite H, andb_false_r, app_nil_r.
Qed.

Lemma render_props cid p c pg : props (render cid p c pg).1 = p.
Proof. unfold render. by rewrite flush_props. Qed.

Lemma render_alive cid p c pg : alive (render cid p c pg).1 = alive c.
Proof. unfold render. by rewrite flush_alive, commit_alive. Qed.

Lemma render_next_promise cid p c pg :
  next_promise (render cid p c pg).2 = next_promise pg.
Proof. unfold render. by rewrite flush_next_promise, commit_next_promise. Qed.

Lemma render_refreshRef cid p c pg :
  comp_ok c -> alive c = true ->
  refreshRef (render cid p c pg).1 = Some (Props.refreshJwt p).
Proof.
  intros Hc Ha. destruct (render_ok cid p c pg Hc Ha) as [[] _].
  by rewrite render_props in *.
Qed.

Lemma getJwt_resolveJwtRef cid c pg :
  resolveJwtRef (getJwt cid c pg).1 = resolveJwtRef c ++ [next_promise pg].
Proof. done. Qed.

Lemma getJwt_calls cid c pg :
  calls (getJwt cid c pg).2 = calls pg ++ [CallRefresh cid (refreshRef c)].
Proof. done. Qed.

Lemma getJwt_props cid c pg : props (getJwt cid c pg).1 = props c.
Proof. done. Qed.

Lemma resolve_calls_of_refresh cid' cid f :
  resolve_calls_of cid' [CallRefresh cid f] = [].
Proof. done. Qed.

(** With an empty queue the token effect changes nothing at all. *)
Lemma effect_jwt_no_waiters cid p c pg :
  resolveJwtRef c = [] -> effect_jwt cid p c pg = (c, pg).
Proof.
  intros H. unfold effect_jwt. repeat case_match; try done.
  rewrite H. destruct c, pg; simpl in *; subst. unfold log. simpl.
  by rewrite app_nil_r.
Qed.

(** C4. A token value supplied while no request is pending is dropped: the
    token effect changes nothing, and a [getJwt] issued afterwards is not
    answered from that value. It queues a new promise, calls the current
    refresh action, and stays pending when the same value is supplied again;
    it is resolved by the next new token value. *)
Theorem supply_without_waiters_is_not_cached
    (cid : nat) (c : Comp) (pg : Page) (p p2 : ShaperDashboardProps) (v v2 : string) :
  comp_ok c -> alive c = true ->
  resolveJwtRef c = [] ->
  Props.jwt p = Some v ->
  Props.jwt p2 = Some v2 -> v2 <> v -> v2 <> "" ->
  let s := render cid p c pg in
  let s' := getJwt cid s.1 s.2 in
  let r := next_promise pg in
  (effect_jwt cid p c pg = (c, pg)
   /\ resolveJwtRef s.1 = []
   /\ resolve_calls_of cid (calls s.2) = resolve_calls_of cid (calls pg))
  /\ (resolveJwtRef s'.1 = [r]
      /\ calls s'.2 = calls s.2 ++ [CallRefresh cid (Some (Props.refreshJwt p))]
      /\ resolve_calls_of cid (calls s'.2) = resolve_calls_of cid (calls pg))
  /\ (let s'' := render cid p s'.1 s'.2 in
      resolveJwtRef s''.1 = [r]
      /\ resolve_calls_of cid (calls s''.2) = resolve_calls_of cid (calls pg))
  /\ (let s'' := render cid p2 s'.1 s'.2 in
      resolveJwtRef s''.1 = []
      /\ resolve_calls_of cid (calls s''.2) =
           resolve_calls_of cid (calls pg) ++ [(r, v2)]).
Proof.
  intros Hc Ha Hq Hp Hp2 Hne Hv2 s s' r.
  assert (Hs1 : resolveJwtRef s.1 = []).
  { subst s. rewrite render_resolveJwtRef, Hq. by case_match. }
  assert (Hs2 : resolve_calls_of cid (calls s.2) = resolve_calls_of cid (calls pg)).
  { subst s. rewrite render_resolve_calls, Hq, Hp.
    case_match; by rewrite app_nil_r. }
  assert (Hs3 : props s'.1 = p).
  { subst s' s. rewrite getJwt_props. apply render_props. }
  assert (Hq' : resolveJwtRef s'.1 = [r]).
  { subst s'. rewrite getJwt_resolveJwtRef, Hs1. subst s r.
    by rewrite render_next_promise. }
  assert (Hc' : resolve_calls_of cid (calls s'.2) = resolve_calls_of cid (calls pg)).
  { subst s'. rewrite getJwt_calls. split_calls.
    by rewrite resolve_calls_of_refresh, app_nil_r. }
  assert (Hr : calls s'.2 =
                 calls s.2 ++ [CallRefresh cid (Some (Props.refreshJwt p))]).
  { subst s'. rewrite getJwt_calls. subst s.
    by rewrite (render_refreshRef cid p c pg Hc Ha). }
  clearbody s'.
  split; [|split; [|split]].
  - split; [by apply effect_jwt_no_waiters | done].
  - done.
  - cbv zeta. split.
    + rewrite render_resolveJwtRef. unfold ch_jwt.
      by rewrite Hs3, Object_is_ostr_refl.
    + rewrite render_resolve_calls. unfold ch_jwt.
      rewrite Hs3, Object_is_ostr_refl, Hp, Hc'. by rewrite app_nil_r.
  - cbv zeta.
    assert (Hch : ch_jwt false p2 s'.1 = true).
    { unfold ch_jwt, Object_is_ostr. rewrite Hs3, Hp, Hp2.
      rewrite bool_decide_eq_false_2; [done | congruence]. }
    split.
    + by rewrite render_resolveJwtRef, Hch, Hp2, truthy_Some.
    + rewrite render_resolve_calls, Hp2, Hch, truthy_Some by done.
      by rewrite Hq', Hc'.
Qed.

(** C5. Every call of [getJwt] calls the current refresh action (the
    [refreshJwt] of the last committed render) once, however many requests
    are already pending: [n] calls in a row log [n] refresh calls. A render
    that passes another [refreshJwt] calls nothing and leaves the pending
    waiters as they are; the next [getJwt] calls the new action. *)
Theorem every_getJwt_calls_current_refresh
    (cid n : nat) (c : Comp) (pg : Page) (p : ShaperDashboardProps) :
  comp_ok c -> alive c = true ->
  Props.jwt p = Props.jwt (props c) ->
  let s := getJwt cid c pg in
  let sn := Nat.iter n (fun s => getJwt cid s.1 s.2) (c, pg) in
  let s1 := render cid p sn.1 sn.2 in
  let s2 := getJwt cid s1.1 s1.2 in
  (calls s.2 = calls pg ++ [CallRefresh cid (Some (Props.refreshJwt (props c)))]
   /\ resolveJwtRef s.1 = resolveJwtRef c ++ [next_promise pg])
  /\ refresh_calls_of cid (calls sn.2) =
       refresh_calls_of cid (calls pg)
       ++ replicate n (Some (Props.refreshJwt (props c)))
  /\ (resolveJwtRef s1.1 = resolveJwtRef sn.1
      /\ refresh_calls_of cid (calls s1.2) = refresh_calls_of cid (calls sn.2)
      /\ resolve_calls_of cid (calls s1.2) = resolve_calls_of cid (calls sn.2))
  /\ (calls s2.2 = calls s1.2 ++ [CallRefresh cid (Some (Props.refreshJwt p))]
      /\ resolveJwtRef s2.1 = resolveJwtRef sn.1 ++ [next_promise sn.2]).
Proof.
  intros Hc Ha Hj s sn s1 s2.
  pose proof Hc as [[_ _ Hre _ _ _ _ _] _].
  destruct (getJwt_iter cid n c pg) as (Q & N & P & R & L).
  fold sn in Q, N, P, R, L.
  assert (Hcn : comp_ok sn.1).
  { subst sn. clear -Hc. induction n; [done | by apply getJwt_ok]. }
  assert (Han : alive sn.1 = true).
  { subst sn. clear -Ha. induction n; done. }
  clearbody sn.
  assert (Hch : ch_jwt false p sn.1 = false).
  { unfold ch_jwt. by rewrite P, Hj, Object_is_ostr_refl. }
  assert (Hq1 : resolveJwtRef s1.1 = resolveJwtRef sn.1).
  { subst s1. by rewrite render_resolveJwtRef, Hch. }
  split; [|split; [|split]].
  - subst s. by rewrite getJwt_calls, getJwt_resolveJwtRef, Hre.
  - rewrite L. split_calls. by rewrite refresh_calls_of_refreshes, Hre.
  - repeat split; [done | apply render_refresh_calls |].
    subst s1. rewrite render_resolve_calls, Hch.
    case_match; by rewrite app_nil_r.
  - subst s2. rewrite getJwt_calls, getJwt_resolveJwtRef. split.
    + subst s1. by rewrite (render_refreshRef cid p _ _ Hcn Han).
    + rewrite Hq1. subst s1. by rewrite render_next_promise.
Qed.

(** ** [JSON.stringify] determines the properties and their order *)

Lemma string_app_cons a s t : String a s +:+ t = String a (s +:+ t).
Proof. done. Qed.

Lemma string_app_nil t : "" +:+ t = t.
Proof. done. Qed.







(** Elements that are self-delimiting and start with a quote can be read
    back from a comma separated list closed by a bracket. *)
Section JoinInj.

Context {A : Type} (enc : A -> string) (close : ascii).
Hypothesis enc_inj : forall a1 a2 r1 r2,
  enc a1 +:+ r1 = enc a2 +:+ r2 -> a1 = a2 /\ r1 = r2.
Hypothesis enc_head : forall a, exists r, enc a = String JSON.dquote r.
Hypothesis close_not_quote : close <> JSON.dquote.
Hypothesis close_not_comma : close <> ascii_of_nat 44.



End JoinInj.







(** ** Forwarding the variables *)

Lemma update_calls_of_destroy_part cid' first cid p c :
  update_calls_of cid' (destroy_part first cid p c) = [].
Proof. unfold destroy_part. by repeat case_match. Qed.

Lemma update_calls_of_factory_part cid' first cid p c pg :
  update_calls_of cid' (factory_part first cid p c pg) = [].
Proof. unfold factory_part. by repeat case_match. Qed.

Lemma update_calls_of_resolve_part cid' first cid p c :
  update_calls_of cid' (resolve_part first cid p c) = [].
Proof.
  unfold resolve_part. repeat case_match; try done.
  induction (resolveJwtRef c); done.
Qed.

Lemma update_calls_of_update_part first cid p c :
  update_calls_of cid (update_part first cid p c) =
    if vars_differ first p c then
      match dashboard_after_cleanup first p c with
      | Some i => [(i, Props.vars p)]
      | None => []
      end
    else [].
Proof.
  unfold update_part. repeat case_match; try done.
  unfold update_calls_of. simpl. by rewrite bool_decide_eq_true_2.
Qed.

Lemma commit_update_calls first cid p c pg :
  update_calls_of cid (calls (commit first cid p c pg).2) =
    update_calls_of cid (calls pg) ++
    if vars_differ first p c then
      match dashboard_after_cleanup first p c with
      | Some i => [(i, Props.vars p)]
      | None => []
      end
    else [].
Proof.
  rewrite commit_calls. split_calls.
  rewrite update_calls_of_destroy_part, update_calls_of_resolve_part,
    update_calls_of_update_part, update_calls_of_factory_part.
  by rewrite app_nil_r.
Qed.

(** A render that leaves [scriptLoaded] alone is a single commit. *)
Lemma render_commit cid p c pg :
  scriptLoaded c = committedScriptLoaded c ->
  ch_script false p c && shaper_dashboard pg = false ->
  render cid p c pg = commit false cid p c pg.
Proof.
  intros Hs Hn. unfold render, flush.
  rewrite commit_scriptLoaded, Hn, commit_committedScriptLoaded.
  rewrite bool_decide_eq_true_2 by done. by destruct (commit false cid p c pg).
Qed.

Lemma ch_script_same_baseUrl p c :
  Props.baseUrl p = Props.baseUrl (props c) -> ch_script false p c = false.
Proof. intros H. unfold ch_script. by rewrite H, Object_is_str_refl. Qed.

Lemma ch_init_same_identity p c :
  scriptLoaded c = committedScriptLoaded c ->
  Props.baseUrl p = Props.baseUrl (props c) ->
  Props.id p = Props.id (props c) ->
  ch_init false p c = false.
Proof.
  intros Hs Hb Hi. unfold ch_init, init_deps_changed.
  rewrite Hb, Hi, !Object_is_str_refl, Hs.
  by rewrite bool_decide_eq_true_2.
Qed.


Lemma mount_varsJsonRef cid p pg :
  varsJsonRef (mount cid p pg).1 = JSON.stringify (Props.vars p).
Proof.
  unfold mount. rewrite flush_varsJsonRef, commit_varsJsonRef.
  unfold vars_differ, ch_vars, Object_is_ostr. simpl.
  destruct (bool_decide _) eqn:E; simpl; [|done].
  by apply bool_decide_eq_true in E.
Qed.





(** Nor is the comparison made on every render: when the host has changed
    the object of the render before in place, from [{x: "0"}] to
    [{x: "1"}], and passes it again, the effect does not run and no [update]
    is called, although the value is structurally different. *)
Lemma same_object_triggers_no_update :
  ~ struct_eq vars_x1_in_place vars_x0
  /\ Object_is_vars vars_x0 vars_x1_in_place = true
  /\ update_calls_of 0
       (calls (page (run [Render 0 (props_with None vars_x1_in_place)] live_world)))
     = [].
Proof. split; [by vm_compute|]. split; by vm_compute. Qed.

(** ** Variables that change before the instance exists *)









(** ** What a handler does to the page *)

Lemma factory_calls_of_destroy_part cid' first cid p c :
  factory_calls_of cid' (destroy_part first cid p c) = [].
Proof. unfold destroy_part. by repeat case_match. Qed.

Lemma factory_calls_of_update_part cid' first cid p c :
  factory_calls_of cid' (update_part first cid p c) = [].
Proof. unfold update_part. by repeat case_match. Qed.

Lemma factory_calls_of_resolve_part cid' first cid p c :
  factory_calls_of cid' (resolve_part first cid p c) = [].
Proof.
  unfold resolve_part. repeat case_match; try done.
  induction (resolveJwtRef c); done.
Qed.

Lemma factory_calls_of_factory_part first cid p c pg :
  factory_calls_of cid (factory_part first cid p c pg) =
    if creates first p c pg then [next_instance pg] else [].
Proof.
  unfold factory_part. case_match; [|done].
  unfold factory_calls_of. simpl. by rewrite bool_decide_eq_true_2.
Qed.

Lemma destroy_calls_of_destroy_part first cid p c :
  destroy_calls_of cid (destroy_part first cid p c) =
    if cleans first p c then option_list (dashboardRef c) else [].
Proof.
  unfold destroy_part. repeat case_match; try done.
  unfold destroy_calls_of. simpl. by rewrite bool_decide_eq_true_2.
Qed.

Lemma destroy_calls_of_update_part cid' first cid p c :
  destroy_calls_of cid' (update_part first cid p c) = [].
Proof. unfold update_part. by repeat case_match. Qed.

Lemma destroy_calls_of_factory_part cid' first cid p c pg :
  destroy_calls_of cid' (factory_part first cid p c pg) = [].
Proof. unfold factory_part. by repeat case_match. Qed.

Lemma destroy_calls_of_resolve_part cid' first cid p c :
  destroy_calls_of cid' (resolve_part first cid p c) = [].
Proof.
  unfold resolve_part. repeat case_match; try done.
  induction (resolveJwtRef c); done.
Qed.

Lemma commit_factory_calls first cid p c pg :
  factory_calls_of cid (calls (commit first cid p c pg).2) =
    factory_calls_of cid (calls pg)
    ++ if creates first p c pg then [next_instance pg] else [].
Proof.
  rewrite commit_calls. split_calls.
  rewrite factory_calls_of_destroy_part, factory_calls_of_resolve_part,
    factory_calls_of_update_part, factory_calls_of_factory_part. done.
Qed.

Lemma commit_destroy_calls first cid p c pg :
  destroy_calls_of cid (calls (commit first cid p c pg).2) =
    destroy_calls_of cid (calls pg)
    ++ if cleans first p c then option_list (dashboardRef c) else [].
Proof.
  rewrite commit_calls. split_calls.
  rewrite destroy_calls_of_destroy_part, destroy_calls_of_resolve_part,
    destroy_calls_of_update_part, destroy_calls_of_factory_part.
  by rewrite !app_nil_r.
Qed.

Lemma instances_of_app l1 l2 :
  instances_of (l1 ++ l2) = instances_of l1 ++ instances_of l2.
Proof. apply omap_app. Qed.

Lemma commit_instances first cid p c pg :
  instances_of (calls (commit first cid p c pg).2) =
    instances_of (calls pg)
    ++ if creates first p c pg then [next_instance pg] else [].
Proof.
  rewrite commit_calls, !instances_of_app.
  assert (instances_of (destroy_part first cid p c) = []) as ->.
  { unfold destroy_part. by repeat case_match. }
  assert (instances_of (resolve_part first cid p c) = []) as ->.
  { unfold resolve_part. repeat case_match; try done.
    induction (resolveJwtRef c); done. }
  assert (instances_of (update_part first cid p c) = []) as ->.
  { unfold update_part. by repeat case_match. }
  unfold factory_part. by case_match.
Qed.

Lemma extends_by_refl cid pg : extends_by cid pg pg.
Proof. exists []. by rewrite app_nil_r. Qed.

Lemma extends_by_trans cid pg1 pg2 pg3 :
  extends_by cid pg1 pg2 -> extends_by cid pg2 pg3 -> extends_by cid pg1 pg3.
Proof.
  intros (d1 & E1 & F1) (d2 & E2 & F2). exists (d1 ++ d2).
  split; [by rewrite E2, E1, app_assoc | by apply Forall_app].
Qed.

Lemma commit_extends first cid p c pg :
  extends_by cid pg (commit first cid p c pg).2.
Proof.
  eexists. split; [apply commit_calls|].
  repeat apply Forall_app_2;
    auto using destroy_part_owner, resolve_part_owner, update_part_owner,
      factory_part_owner.
Qed.

Lemma commit_fresh first cid p c pg :
  fresh_instances pg -> fresh_instances (commit first cid p c pg).2.
Proof.
  unfold fresh_instances. intros H.
  rewrite commit_instances, commit_next_instance, H.
  destruct (creates first p c pg); [|by rewrite app_nil_r].
  by rewrite seq_S.
Qed.

Lemma querySelector_None url ss :
  querySelector url ss = None <-> url ∉ map src ss.
Proof.
  induction ss as [|t ss IH]; cbn [querySelector map].
  - split; [intros _; apply not_elem_of_nil | done].
  - destruct (bool_decide (src t = url)) eqn:E.
    + apply bool_decide_eq_true in E. split; [done|].
      intros H. destruct H. rewrite E. apply list_elem_of_here.
    + apply bool_decide_eq_false in E.
      rewrite fmap_None, IH, not_elem_of_cons. split; [by intros ?; split | by intros [_ ?]].
Qed.

Lemma querySelector_Some url ss i :
  querySelector url ss = Some i ->
  exists t, ss !! i = Some t /\ src t = url.
Proof.
  revert i. induction ss as [|t ss IH]; intros i; cbn [querySelector]; [done|].
  destruct (bool_decide (src t = url)) eqn:E.
  - apply bool_decide_eq_true in E. intros [= <-]. by exists t.
  - intros (j & Hj & ->)%fmap_Some. by apply IH.
Qed.

Lemma alter_add_waiter cid i t (ss : list ScriptTag) :
  ss !! i = Some t -> alter (add_waiter cid) i ss = <[i := add_waiter cid t]> ss.
Proof.
  revert i. induction ss as [|t' ss IH]; intros [|i] H; simplify_eq/=; [done|].
  f_equal. by apply IH.
Qed.

Lemma commit_script_change first cid p c pg :
  script_change cid (scripts pg) (scripts (commit first cid p c pg).2).
Proof.
  rewrite commit_scripts. unfold scripts_after.
  destruct (_ && _); [|by left].
  destruct (querySelector _ _) as [i|] eqn:E.
  - destruct (querySelector_Some _ _ _ E) as (t & Ht & _).
    right; left. exists i, t. split; [done|]. by apply alter_add_waiter.
  - right; right. eexists. split; [|done]. by apply querySelector_None.
Qed.

Lemma commit_page_step first cid p c pg :
  page_step cid pg (commit first cid p c pg).2.
Proof.
  split.
  - apply commit_extends.
  - apply commit_fresh.
  - apply commit_script_change.
  - apply commit_shaper_dashboard.
Qed.

Lemma flush_extends cid c pg : extends_by cid pg (flush cid c pg).2.
Proof.
  unfold flush. case_bool_decide; [apply extends_by_refl | apply commit_extends].
Qed.

Lemma flush_fresh cid c pg :
  fresh_instances pg -> fresh_instances (flush cid c pg).2.
Proof. unfold flush. case_bool_decide; [done | apply commit_fresh]. Qed.

(** A handler that commits once and then flushes. *)
Lemma flush_page_step cid c pg pg0 :
  page_step cid pg0 pg -> page_step cid pg0 (flush cid c pg).2.
Proof.
  intros [Hc Hf Hs Hd]. split.
  - eapply extends_by_trans; [done | apply flush_extends].
  - intros H. by apply flush_fresh, Hf.
  - by rewrite flush_scripts.
  - by rewrite flush_shaper_dashboard.
Qed.

Lemma page_step_refl cid pg : page_step cid pg pg.
Proof. split; [apply extends_by_refl | done | by left | done]. Qed.

Lemma render_page_step cid p c pg : page_step cid pg (render cid p c pg).2.
Proof. unfold render. apply flush_page_step, commit_page_step. Qed.

Lemma mount_page_step cid p pg : page_step cid pg (mount cid p pg).2.
Proof. unfold mount. apply flush_page_step, commit_page_step. Qed.

Lemma log_page_step cid pg cs :
  Forall (fun x => call_owner x = cid) cs ->
  instances_of cs = [] ->
  page_step cid pg (log cs pg).
Proof.
  intros Ho Hi. split; [by exists cs | | by left | done].
  unfold fresh_instances. simpl. by rewrite instances_of_app, Hi, app_nil_r.
Qed.

Lemma unmount_page_step cid c pg : page_step cid pg (unmount cid c pg).2.
Proof.
  unfold unmount, when, cleanup_init. cbn [snd].
  repeat case_match; try apply page_step_refl.
  apply log_page_step; [by repeat constructor | done].
Qed.

Lemma comp_step_page_step cid c pg s :
  comp_step cid c pg s -> page_step cid pg s.2.
Proof.
  intros [p Hal| Hal | | url | | v |].
  - apply render_page_step.
  - apply unmount_page_step.
  - unfold on_load. case_match; [|apply page_step_refl].
    apply flush_page_step, page_step_refl.
  - apply log_page_step; [by repeat constructor | done].
  - unfold getJwt. cbn [snd]. split; [| | by left | done].
    + exists [CallRefresh cid (refreshRef c)]. split; [done | by repeat constructor].
    + unfold fresh_instances. simpl. by rewrite instances_of_app, app_nil_r.
  - unfold onVarsChanged_closure. case_match; [|apply page_step_refl].
    apply log_page_step; [by repeat constructor | done].
  - apply page_step_refl.
Qed.

Lemma comp_step_ok cid c pg s : comp_step cid c pg s -> comp_ok c -> comp_ok s.1.
Proof.
  intros [p Hal| Hal | | url | | v |] Hok.
  - by apply render_ok.
  - by apply unmount_ok.
  - by apply on_load_ok.
  - done.
  - by apply getJwt_ok.
  - by apply onVarsChanged_closure_ok.
  - done.
Qed.

(** ** Accounting for instances *)

Lemma commit_account first cid p c pg :
  account cid c pg -> account cid (commit first cid p c pg).1 (commit first cid p c pg).2.
Proof.
  unfold account. intros H.
  rewrite commit_factory_calls, commit_destroy_calls, commit_dashboardRef, H.
  unfold creates, dashboard_after_cleanup.
  destruct (cleans first p c), (dashboardRef c) as [i|];
    rewrite ?is_Some_Some_b, ?is_Some_None_b, ?andb_false_r, ?andb_true_r;
    simpl; rewrite ?app_nil_r; try done;
    destruct (_ && _ && _ && _); simpl; by rewrite ?app_nil_r, <- ?app_assoc.
Qed.

Lemma flush_account cid c pg :
  account cid c pg -> account cid (flush cid c pg).1 (flush cid c pg).2.
Proof. unfold flush. case_bool_decide; [done | apply commit_account]. Qed.

Lemma render_account cid p c pg :
  account cid c pg -> account cid (render cid p c pg).1 (render cid p c pg).2.
Proof. intros H. unfold render. by apply flush_account, commit_account. Qed.

Lemma mount_account cid p pg :
  account cid (initial_comp p) pg ->
  account cid (mount cid p pg).1 (mount cid p pg).2.
Proof. intros H. unfold mount. by apply flush_account, commit_account. Qed.

Lemma unmount_account cid c pg :
  account cid c pg -> account cid (unmount cid c pg).1 (unmount cid c pg).2.
Proof.
  unfold account, unmount, when, cleanup_init. intros H.
  cbn [fst snd dashboardRef set_initCleanup set_containerRef set_alive].
  destruct (initCleanup c); [|done].
  destruct (dashboardRef c) as [i|] eqn:E; [|by cbn [fst snd]; rewrite E].
  cbn [fst snd dashboardRef set_dashboardRef calls log].
  split_calls. rewrite H.
  assert (destroy_calls_of cid [CallDestroy cid i] = [i]) as ->.
  { unfold destroy_calls_of. simpl. by rewrite bool_decide_eq_true_2. }
  by rewrite !app_nil_r.
Qed.

Lemma comp_step_account cid c pg s :
  comp_step cid c pg s -> account cid c pg -> account cid s.1 s.2.
Proof.
  intros [p Hal| Hal | | url | | v |] H.
  - by apply render_account.
  - by apply unmount_account.
  - unfold on_load. case_match; [|done]. by apply flush_account.
  - unfold account in *. simpl. split_calls. simpl. by rewrite !app_nil_r.
  - unfold account in *. simpl. split_calls. simpl. by rewrite !app_nil_r.
  - unfold onVarsChanged_closure. case_match; [|done].
    unfold account in *. simpl. split_calls. simpl. by rewrite !app_nil_r.
  - done.
Qed.

(** Calls of one component do not show in the log of another. *)
Lemma calls_of_other cid cid' delta :
  Forall (fun x => call_owner x = cid) delta -> cid' <> cid ->
  factory_calls_of cid' delta = []
  /\ destroy_calls_of cid' delta = []
  /\ update_calls_of cid' delta = []
  /\ resolve_calls_of cid' delta = []
  /\ refresh_calls_of cid' delta = []
  /\ load_error_calls_of cid' delta = [].
Proof.
  intros H Hne. induction H as [|x delta Hx _ IH]; [done|].
  destruct IH as (I1 & I2 & I3 & I4 & I5 & I6).
  unfold factory_calls_of, destroy_calls_of, update_calls_of,
    resolve_calls_of, refresh_calls_of, load_error_calls_of in *.
  destruct x; simpl in *; subst;
    rewrite ?bool_decide_eq_false_2 by done; done.
Qed.

Lemma account_other cid cid' c pg pg' :
  extends_by cid pg pg' -> cid' <> cid -> account cid' c pg -> account cid' c pg'.
Proof.
  intros (delta & E & Ho) Hne. unfold account. rewrite E. split_calls.
  destruct (calls_of_other cid cid' delta Ho Hne) as (-> & -> & _).
  by rewrite !app_nil_r.
Qed.

(** ** The invariants hold in every reachable world *)

Lemma script_change_srcs cid ss ss' :
  script_change cid ss ss' ->
  map src ss' = map src ss
  \/ exists url, (url ∉ map src ss) /\ map src ss' = map src ss ++ [url].
Proof.
  intros [-> | [(i & t & Ht & ->) | (url & Hu & ->)]].
  - by left.
  - left. rewrite list_fmap_insert. simpl. apply list_insert_id.
    by rewrite list_lookup_fmap, Ht.
  - right. exists url. split; [done|]. by rewrite map_app.
Qed.

Lemma script_change_NoDup cid ss ss' :
  script_change cid ss ss' -> NoDup (map src ss) -> NoDup (map src ss').
Proof.
  intros [-> | (url & Hu & ->)]%script_change_srcs H; [done|].
  apply NoDup_app. split; [done|]. split; [|apply NoDup_singleton].
  intros x Hx ->%list_elem_of_singleton. done.
Qed.

Lemma world_ok_comp_step w cid c s :
  world_ok w -> comps w !! cid = Some c -> comp_step cid c (page w) s ->
  world_ok (mkWorld s.2 (<[cid := s.1]> (comps w))).
Proof.
  intros [Hc Ha Hf Hb Hs] Hl Hst.
  destruct (comp_step_page_step _ _ _ _ Hst) as [Hext Hfr Hsc _].
  split; simpl.
  - apply Forall_insert; [done|].
    eapply comp_step_ok; [done|]. by eapply Forall_lookup_1.
  - intros cid' c' Hl'. destruct (decide (cid' = cid)) as [->|Hne].
    + rewrite list_lookup_insert_eq in Hl' by (by eapply lookup_lt_Some).
      apply (inj Some) in Hl'. subst c'.
      apply (comp_step_account _ _ _ _ Hst). by apply Ha.
    + rewrite list_lookup_insert_ne in Hl' by done.
      eapply account_other; [done | done | by apply Ha].
  - by apply Hfr.
  - destruct Hext as (delta & -> & Ho). rewrite length_insert.
    apply Forall_app. split; [done|].
    eapply Forall_impl; [done|]. simpl. intros x ->.
    by eapply lookup_lt_Some.
  - by eapply script_change_NoDup.
Qed.

Lemma with_comp_ok w cid h :
  (forall c, comp_step cid c (page w) (h c (page w))) ->
  world_ok w -> world_ok (with_comp cid h w).
Proof.
  intros Hh Hw. unfold with_comp. destruct (comps w !! cid) as [c|] eqn:E; [|done].
  by apply (world_ok_comp_step w cid c).
Qed.

Lemma notify_ok h cs w :
  (forall cid c pg, comp_step cid c pg (h cid c pg)) ->
  world_ok w -> world_ok (notify h cs w).
Proof.
  intros Hh. unfold notify. revert w.
  induction cs as [|cid cs IH]; intros w Hw; [done|].
  simpl. apply IH. apply with_comp_ok; [|done]. intros c. apply Hh.
Qed.

Lemma owned_none cid cs :
  Forall (fun x => call_owner x < cid) cs ->
  factory_calls_of cid cs = [] /\ destroy_calls_of cid cs = [].
Proof.
  intros H. induction H as [|x cs Hx _ [I1 I2]]; [done|].
  unfold factory_calls_of, destroy_calls_of in *.
  destruct x; simpl in *; rewrite ?bool_decide_eq_false_2 by lia; done.
Qed.

Lemma world_ok_mount w p :
  world_ok w ->
  world_ok (step (Mount p) w).
Proof.
  intros [Hc Ha Hf Hb Hs]. simpl.
  set (cid := length (comps w)).
  destruct (mount_page_step cid p (page w)) as [Hext Hfr Hsc _].
  split; simpl.
  - apply Forall_app. split; [done|]. apply Forall_singleton, mount_ok.
  - intros cid' c' Hl'. destruct (decide (cid' = cid)) as [->|Hne].
    + rewrite lookup_app_r in Hl' by done.
      subst cid. rewrite Nat.sub_diag in Hl'. apply (inj Some) in Hl'. subst c'.
      apply mount_account. unfold account.
      by destruct (owned_none _ _ Hb) as [-> ->].
    + assert (cid' < cid).
      { apply lookup_lt_Some in Hl'. rewrite length_app in Hl'. simpl in Hl'.
        subst cid. lia. }
      rewrite lookup_app_l in Hl' by done.
      eapply account_other; [done | done | by apply Ha].
  - by apply Hfr.
  - destruct Hext as (delta & -> & Ho). rewrite length_app. simpl.
    apply Forall_app. split.
    + eapply Forall_impl; [done|]. simpl. intros; lia.
    + eapply Forall_impl; [done|]. simpl. intros x ->. subst cid. lia.
  - by eapply script_change_NoDup.
Qed.

Lemma srcs_set_status i t st (ss : list ScriptTag) :
  ss !! i = Some t -> map src (<[i := set_status st t]> ss) = map src ss.
Proof.
  intros H. rewrite list_fmap_insert. simpl. apply list_insert_id.
  by rewrite list_lookup_fmap, H.
Qed.

Lemma world_ok_set_status w i t st b :
  world_ok w -> scripts (page w) !! i = Some t ->
  world_ok (mkWorld (set_shaper_dashboard b
                       (set_scripts (<[i := set_status st t]> (scripts (page w)))
                                    (page w)))
                    (comps w)).
Proof.
  intros [Hc Ha Hf Hb Hs] Ht. split; simpl; try done.
  by rewrite srcs_set_status.
Qed.

Theorem step_ok a w : world_ok w -> world_ok (step a w).
Proof.
  intros Hw. destruct a as [p | cid p | cid | i r | i | cid | cid v].
  - by apply world_ok_mount.
  - apply with_comp_ok; [|done]. intros c.
    destruct (alive c) eqn:E; [by apply cs_render | apply cs_skip].
  - apply with_comp_ok; [|done]. intros c.
    destruct (alive c) eqn:E; [by apply cs_unmount | apply cs_skip].
  - simpl. destruct (scripts (page w) !! i) as [t|] eqn:Et; [|done].
    case_bool_decide; [|done].
    apply notify_ok; [intros; apply cs_on_load|].
    by apply world_ok_set_status.
  - simpl. destruct (scripts (page w) !! i) as [t|] eqn:Et; [|done].
    case_bool_decide; [|done].
    apply notify_ok; [intros; apply cs_on_error|].
    by apply (world_ok_set_status w i t Failed (shaper_dashboard (page w))).
  - apply with_comp_ok; [|done]. intros c. apply cs_getJwt.
  - apply with_comp_ok; [|done]. intros c. apply cs_onVarsChanged.
Qed.

Lemma initial_world_ok : world_ok initial_world.
Proof. split; simpl; try done. apply NoDup_nil_2. Qed.

Theorem run_ok acts w : world_ok w -> world_ok (run acts w).
Proof.
  revert w. induction acts as [|a acts IH]; intros w Hw; [done|].
  simpl. by apply IH, step_ok.
Qed.

(** ** One [destroy] for every instance *)

Lemma factory_calls_sublist cid cs :
  factory_calls_of cid cs `sublist_of` instances_of cs.
Proof.
  induction cs as [|x cs IH]; [done|].
  unfold factory_calls_of, instances_of in *.
  destruct x; simpl; try done.
  case_bool_decide; [by apply sublist_skip | by apply sublist_cons].
Qed.

Lemma factory_calls_NoDup cid pg :
  fresh_instances pg -> NoDup (factory_calls_of cid (calls pg)).
Proof.
  intros H. eapply sublist_NoDup; [|apply factory_calls_sublist].
  rewrite H. apply NoDup_seq.
Qed.

Lemma filter_absent (i : nat) l : i ∉ l -> filter (fun j => j = i) l = [].
Proof.
  induction l as [|x l IH]; [done|]. intros [Hx Hl]%not_elem_of_cons.
  rewrite filter_cons_False by (intros ->; done). by apply IH.
Qed.

Lemma NoDup_occurs_once (i : nat) l :
  NoDup l -> i ∈ l -> length (filter (fun j => j = i) l) = 1.
Proof.
  induction 1 as [|x l Hx Hl IH]; [by intros ?%elem_of_nil|].
  intros [->|Hi]%elem_of_cons.
  - rewrite filter_cons_True by done. by rewrite filter_absent.
  - rewrite filter_cons_False by (intros ->; done). by apply IH.
Qed.

Lemma cleanup_init_none cid c pg :
  dashboardRef c = None -> cleanup_init cid c pg = (c, pg).
Proof. intros H. unfold cleanup_init. by rewrite H. Qed.

Lemma unmounted_step_id w cid c :
  comps w !! cid = Some c -> alive c = false -> step (Unmount cid) w = w.
Proof.
  intros Hl Ha. simpl. unfold with_comp. rewrite Hl, Ha. simpl.
  rewrite list_insert_id by done. by destruct w.
Qed.

(** C7. In every world reached from a world that satisfies the invariants,
    the instances a component has constructed are those it has destroyed,
    in the same order, followed by the one it holds, and no instance is
    constructed twice. So once the component is unmounted, [destroy] has been
    called exactly once on each instance it constructed and never if it
    constructed none; tearing it down again does nothing. *)
Theorem every_instance_destroyed_exactly_once
    (acts : list Action) (w0 : World) (cid : nat) (c : Comp) :
  world_ok w0 ->
  let w := run acts w0 in
  let created := factory_calls_of cid (calls (page w)) in
  let destroyed := destroy_calls_of cid (calls (page w)) in
  comps w !! cid = Some c ->
  (created = destroyed ++ option_list (dashboardRef c) /\ NoDup created)
  /\ (alive c = false ->
      destroyed = created
      /\ (forall i, i ∈ created -> length (filter (fun j => j = i) destroyed) = 1)
      /\ (created = [] -> destroyed = [])
      /\ (forall pg, cleanup_init cid c pg = (c, pg))
      /\ step (Unmount cid) w = w).
Proof.
  intros H0 w created destroyed Hl.
  pose proof (run_ok acts w0 H0) as [Hc Ha Hf _ _]. fold w in Hc, Ha, Hf.
  assert (Hacc : created = destroyed ++ option_list (dashboardRef c))
    by (by apply Ha).
  assert (Hnd : NoDup created) by (by apply factory_calls_NoDup).
  split; [done|]. intros Hdead.
  assert (Hn : dashboardRef c = None).
  { eapply Forall_lookup_1 in Hc as [Hinv _]; [|done]. by apply inv_dead. }
  rewrite Hn in Hacc. simpl in Hacc. rewrite app_nil_r in Hacc.
  repeat split.
  - done.
  - intros i Hi. rewrite <- Hacc. by apply NoDup_occurs_once.
  - by rewrite Hacc.
  - intros pg. by apply cleanup_init_none.
  - by eapply unmounted_step_id.
Qed.

(** ** Following one component through the steps of the world *)

Lemma extends_by_quiet cid cid' pg pg' :
  cid' <> cid -> extends_by cid' pg pg' -> quiet cid pg pg'.
Proof.
  intros Hne (delta & E & Ho). exists delta. split; [done|].
  eapply Forall_impl; [done|]. simpl. by intros x ->.
Qed.

Lemma quiet_refl cid pg : quiet cid pg pg.
Proof. exists []. by rewrite app_nil_r. Qed.

Lemma tags_other_refl cid ss : tags_other cid ss ss.
Proof.
  split.
  - intros i t Ht. by exists t.
  - intros i t' H1 H2. congruence.
Qed.

Lemma script_change_tags_other cid cid' ss ss' :
  cid' <> cid -> script_change cid' ss ss' -> tags_other cid ss ss'.
Proof.
  intros Hne [-> | [(i & t & Ht & ->) | (url & Hu & ->)]].
  - apply tags_other_refl.
  - split.
    + intros j t0 Hj. destruct (decide (j = i)) as [->|Hji].
      * rewrite list_lookup_insert_eq by (by eapply lookup_lt_Some).
        eexists. split; [done|]. simpl. rewrite Ht in Hj. injection Hj as <-.
        split; [done|]. split; [|done].
        rewrite elem_of_app, list_elem_of_singleton.
        split; [intros [?|?]; [done | congruence] | by left].
      * rewrite list_lookup_insert_ne by done. by exists t0.
    + intros j t' Hn Hs. apply lookup_ge_None in Hn.
      rewrite list_lookup_insert_ne in Hs.
      * apply lookup_lt_Some in Hs. lia.
      * intros ->. apply lookup_lt_Some in Ht. lia.
  - split.
    + intros j t0 Hj. exists t0. split; [by apply lookup_app_l_Some | done].
    + intros j t' Hn Hs. apply lookup_ge_None in Hn.
      rewrite lookup_app_r in Hs by done.
      apply list_lookup_singleton_Some in Hs as [_ <-]. simpl.
      rewrite list_elem_of_singleton. congruence.
Qed.

Lemma others_step_refl cid w : others_step cid w w.
Proof. split; [done | apply quiet_refl | apply tags_other_refl]. Qed.

Lemma others_step_skip cid w cid' c :
  comps w !! cid' = Some c ->
  others_step cid w (mkWorld (page w) (<[cid' := c]> (comps w))).
Proof.
  intros H. rewrite list_insert_id by done. destruct w. apply others_step_refl.
Qed.

Lemma others_step_comp_step cid w cid' c s :
  cid' <> cid -> comp_step cid' c (page w) s ->
  others_step cid w (mkWorld s.2 (<[cid' := s.1]> (comps w))).
Proof.
  intros Hne Hs. destruct (comp_step_page_step _ _ _ _ Hs) as [He _ Hsc _].
  split; simpl.
  - by rewrite list_lookup_insert_ne.
  - by eapply extends_by_quiet.
  - by eapply script_change_tags_other.
Qed.

Lemma others_step_mount cid w p :
  cid < length (comps w) -> others_step cid w (step (Mount p) w).
Proof.
  intros Hlt. simpl.
  destruct (mount_page_step (length (comps w)) p (page w)) as [He _ Hsc _].
  split; simpl.
  - by rewrite lookup_app_l.
  - eapply extends_by_quiet; [|done]. lia.
  - eapply script_change_tags_other; [|done]. lia.
Qed.

Lemma others_step_set_status cid w i t st b :
  scripts (page w) !! i = Some t -> status t = Loading ->
  others_step cid w
    (mkWorld (set_shaper_dashboard b
                (set_scripts (<[i := set_status st t]> (scripts (page w)))
                             (page w)))
             (comps w)).
Proof.
  intros Ht Hst. split; simpl; [done | exists []; by rewrite app_nil_r |].
  split.
  - intros j t0 Hj. destruct (decide (j = i)) as [->|Hji].
    + rewrite list_lookup_insert_eq by (by eapply lookup_lt_Some).
      eexists. split; [done|]. simpl. rewrite Ht in Hj. injection Hj as <-.
      split; [done|]. split; [done|]. by intros [].
    + rewrite list_lookup_insert_ne by done. by exists t0.
  - intros j t' Hn Hs. apply lookup_ge_None in Hn.
    apply lookup_lt_Some in Hs. rewrite length_insert in Hs. lia.
Qed.

Section StepInv.

Variables (cid : nat) (I : World -> Prop).

Hypothesis I_others : forall w1 w2,
  world_ok w1 -> world_ok w2 -> I w1 -> others_step cid w1 w2 -> I w2.

Lemma with_comp_inv a pg0 cid' h w :
  (forall c, comp_step cid' c (page w) (h c (page w))) ->
  (forall c s, comps w !! cid = Some c -> cid' = cid -> s = h c (page w) ->
               s = (c, page w) \/ self_step a cid pg0 c (page w) s) ->
  (forall w1 c s, world_ok w1 ->
     world_ok (mkWorld s.2 (<[cid := s.1]> (comps w1))) -> I w1 ->
     comps w1 !! cid = Some c -> self_step a cid pg0 c (page w1) s ->
     I (mkWorld s.2 (<[cid := s.1]> (comps w1)))) ->
  world_ok w -> I w -> I (with_comp cid' h w).
Proof.
  intros Hh Hself I_self Hok HI. unfold with_comp.
  destruct (comps w !! cid') as [c|] eqn:E; [|done].
  assert (Hok' : world_ok (mkWorld (h c (page w)).2
                             (<[cid' := (h c (page w)).1]> (comps w)))).
  { by apply (world_ok_comp_step w cid' c). }
  destruct (decide (cid' = cid)) as [->|Hne].
  - destruct (Hself c (h c (page w)) E eq_refl eq_refl) as [Hs | Hs].
    + rewrite Hs in *. simpl in *.
      apply (I_others w); [done | done | done | by apply others_step_skip].
    + by apply (I_self w c).
  - apply (I_others w); [done | done | done |].
    by apply (others_step_comp_step cid w cid' c).
Qed.

Lemma notify_inv a pg0 h (cs0 cs : list nat) w :
  (forall w1 c s, world_ok w1 ->
     world_ok (mkWorld s.2 (<[cid := s.1]> (comps w1))) -> I w1 ->
     comps w1 !! cid = Some c -> self_step a cid pg0 c (page w1) s ->
     I (mkWorld s.2 (<[cid := s.1]> (comps w1)))) ->
  (forall c' c pg, comp_step c' c pg (h c' c pg)) ->
  (forall c pg, cid ∈ cs0 -> self_step a cid pg0 c pg (h cid c pg)) ->
  (forall c', c' ∈ cs -> c' ∈ cs0) ->
  world_ok w -> I w -> I (notify h cs w).
Proof.
  intros I_self Hh Hself. unfold notify. revert w.
  induction cs as [|c' cs IH]; intros w Hin Hok HI; [done|].
  simpl. apply IH.
  - intros c0 H0. apply Hin. by right.
  - apply with_comp_ok; [|done]. intros c. apply Hh.
  - apply (with_comp_inv a pg0); [| | | done | done].
    + intros c. apply Hh.
    + intros c s Hc -> ->. right. apply Hself. apply Hin. by left.
    + apply I_self.
Qed.

Theorem step_inv a w :
  (forall w1 c s, world_ok w1 ->
     world_ok (mkWorld s.2 (<[cid := s.1]> (comps w1))) -> I w1 ->
     comps w1 !! cid = Some c -> self_step a cid (page w) c (page w1) s ->
     I (mkWorld s.2 (<[cid := s.1]> (comps w1)))) ->
  cid < length (comps w) -> world_ok w -> I w -> I (step a w).
Proof.
  intros I_self Hlt Hok HI. destruct a as [p | c' p | c' | i r | i | c' | c' v].
  - apply (I_others w); [done | by apply step_ok | done |].
    by apply others_step_mount.
  - apply (with_comp_inv (Render c' p) (page w)); [| | | done | done].
    + intros c. destruct (alive c) eqn:E; [by apply cs_render | apply cs_skip].
    + intros c s Hc -> ->. destruct (alive c) eqn:E; [by right | by left].
    + apply I_self.
  - apply (with_comp_inv (Unmount c') (page w)); [| | | done | done].
    + intros c. destruct (alive c) eqn:E; [by apply cs_unmount | apply cs_skip].
    + intros c s Hc -> ->. destruct (alive c) eqn:E; [by right | by left].
    + apply I_self.
  - simpl. destruct (scripts (page w) !! i) as [t|] eqn:Et; [|done].
    case_bool_decide as Est; [|done].
    apply (notify_inv (ScriptLoad i r) (page w) on_load (waiters t));
      [apply I_self | ..].
    + intros. apply cs_on_load.
    + intros c pg Hin. simpl. by exists t.
    + done.
    + by apply world_ok_set_status.
    + apply (I_others w); [done | by apply world_ok_set_status | done |].
      by apply others_step_set_status.
  - simpl. destruct (scripts (page w) !! i) as [t|] eqn:Et; [|done].
    case_bool_decide as Est; [|done].
    apply (notify_inv (ScriptError i) (page w) (fun c' => on_error c' (src t))
             (waiters t)); [apply I_self | ..].
    + intros. apply cs_on_error.
    + intros c pg Hin. simpl. by exists t.
    + done.
    + by apply (world_ok_set_status w i t Failed (shaper_dashboard (page w))).
    + apply (I_others w); [done | | done |].
      * by apply (world_ok_set_status w i t Failed (shaper_dashboard (page w))).
      * by apply (others_step_set_status cid w i t Failed
                    (shaper_dashboard (page w))).
  - apply (with_comp_inv (GetJwt c') (page w)); [| | | done | done].
    + intros c. apply cs_getJwt.
    + intros c s Hc -> ->. by right.
    + apply I_self.
  - apply (with_comp_inv (VarsChanged c' v) (page w)); [| | | done | done].
    + intros c. apply cs_onVarsChanged.
    + intros c s Hc -> ->. by right.
    + apply I_self.
Qed.

End StepInv.

(** ** The instance is kept while [id] and [baseUrl] are kept *)

Lemma calls_of_quiet cid pg pg' :
  quiet cid pg pg' ->
  factory_calls_of cid (calls pg') = factory_calls_of cid (calls pg)
  /\ destroy_calls_of cid (calls pg') = destroy_calls_of cid (calls pg)
  /\ update_calls_of cid (calls pg') = update_calls_of cid (calls pg)
  /\ load_error_calls_of cid (calls pg') = load_error_calls_of cid (calls pg).
Proof.
  intros (delta & -> & H). split_calls.
  assert (factory_calls_of cid delta = [] /\ destroy_calls_of cid delta = []
          /\ update_calls_of cid delta = []
          /\ load_error_calls_of cid delta = []) as (-> & -> & -> & ->).
  { induction H as [|x delta Hx _ (I1 & I2 & I3 & I4)]; [done|].
    unfold factory_calls_of, destroy_calls_of, update_calls_of,
      load_error_calls_of in *.
    destruct x; simpl in *; rewrite ?bool_decide_eq_false_2 by done; done. }
  by rewrite !app_nil_r.
Qed.

Lemma factory_calls_grow cid cid' pg pg' :
  extends_by cid' pg pg' ->
  factory_calls_of cid (calls pg) `prefix_of` factory_calls_of cid (calls pg').
Proof. intros (delta & -> & _). split_calls. by apply prefix_app_r. Qed.

(** Under the accounting invariant a component that held an instance and
    has destroyed nothing since still holds it, and has constructed nothing
    since. *)
Lemma held_instance_stays cid c0 c pg0 pg i :
  account cid c0 pg0 -> account cid c pg ->
  dashboardRef c0 = Some i ->
  destroy_calls_of cid (calls pg) = destroy_calls_of cid (calls pg0) ->
  factory_calls_of cid (calls pg0) `prefix_of` factory_calls_of cid (calls pg) ->
  dashboardRef c = Some i
  /\ factory_calls_of cid (calls pg) = factory_calls_of cid (calls pg0).
Proof.
  unfold account. intros H0 H Hd Hde [k Hk]. rewrite Hd in H0. simpl in H0.
  rewrite H, H0, Hde, <- app_assoc in Hk. apply app_inv_head in Hk.
  destruct (dashboardRef c) as [j|]; simpl in Hk; [|done].
  injection Hk as -> <-. split; [done|]. by rewrite H, H0, Hde.
Qed.

Lemma on_load_quiet_destroy cid c pg :
  comp_ok c ->
  destroy_calls_of cid (calls (on_load cid c pg).2) = destroy_calls_of cid (calls pg)
  /\ update_calls_of cid (calls (on_load cid c pg).2) = update_calls_of cid (calls pg)
  /\ props (on_load cid c pg).1 = props c
  /\ alive (on_load cid c pg).1 = alive c.
Proof.
  intros [Hinv Hs]. unfold on_load. destruct (alive c) eqn:Ha; [|done].
  rewrite flush_calls, flush_props, flush_alive.
  split; [|split; [|done]].
  - case_bool_decide as E; [by rewrite app_nil_r|]. split_calls.
    rewrite destroy_calls_of_destroy_part, destroy_calls_of_factory_part.
    unfold cleans. cbn [initCleanup setScriptLoaded dashboardRef].
    rewrite (inv_cleanup c Hinv).
    destruct (dashboardRef c) as [i|] eqn:Ed.
    + destruct E. cbn [scriptLoaded committedScriptLoaded setScriptLoaded].
      rewrite <- Hs. symmetry. apply (inv_live_loaded c Hinv). by rewrite Ed.
    + case_match; simpl; by rewrite !app_nil_r.
  - case_bool_decide as E; [by rewrite app_nil_r|]. split_calls.
    by rewrite update_calls_of_destroy_part, update_calls_of_factory_part,
         !app_nil_r.
Qed.

Section IdentityKept.

Variables (cid : nat) (w0 : World) (c0 : Comp).
Hypothesis ok0 : world_ok w0.
Hypothesis lookup0 : comps w0 !! cid = Some c0.

Let b := Props.baseUrl (props c0).
Let d := Props.id (props c0).
Let D0 := destroy_calls_of cid (calls (page w0)).
Let F0 := factory_calls_of cid (calls (page w0)).
Let U0 := update_calls_of cid (calls (page w0)).
Let J := identity_kept cid b d D0 F0 U0 (dashboardRef c0).

Lemma identity_kept_others w1 w2 :
  world_ok w1 -> world_ok w2 -> J w1 -> others_step cid w1 w2 -> J w2.
Proof.
  intros _ _ [Hc Hd Hf Hu] [Hl Hq _].
  destruct (calls_of_quiet _ _ _ Hq) as (Ef & Ed & Eu & _).
  split.
  - by rewrite Hl.
  - by rewrite Ed.
  - by rewrite Ef.
  - intros i Hi. rewrite Eu. by apply Hu.
Qed.

Lemma identity_kept_self a pg0 w1 c s :
  keeps_identity cid b d a ->
  world_ok w1 ->
  world_ok (mkWorld s.2 (<[cid := s.1]> (comps w1))) -> J w1 ->
  comps w1 !! cid = Some c -> self_step a cid pg0 c (page w1) s ->
  J (mkWorld s.2 (<[cid := s.1]> (comps w1))).
Proof.
  intros Hk Hok1 Hok2 [(c1 & Hl1 & Hal & Hb & Hi) Hd Hf Hu] Hl Hs.
  assert (c1 = c) as -> by congruence.
  assert (Hcok : comp_ok c).
  { destruct Hok1 as [Hc _ _ _ _]. by eapply Forall_lookup_1. }
  assert (Hlen : cid < length (comps w1)) by (by eapply lookup_lt_Some).
  assert (Hgrow : forall s', comp_step cid c (page w1) s' ->
            F0 `prefix_of` factory_calls_of cid (calls s'.2)).
  { intros s' Hs'. etrans; [done|].
    eapply factory_calls_grow, (ps_calls _ _ _ (comp_step_page_step _ _ _ _ Hs')). }
  destruct a as [p | c' p | c' | i r | i | c' | c' v]; simpl in Hs.
  - done.
  - destruct Hs as (-> & _ & ->). destruct (Hk eq_refl) as [Hpb Hpi].
    pose proof Hcok as [Hinv Hset].
    assert (Hr : render cid p c (page w1) = commit false cid p c (page w1)).
    { apply render_commit; [done|].
      rewrite ch_script_same_baseUrl; [done | congruence]. }
    assert (Hcl : cleans false p c = false).
    { unfold cleans. rewrite ch_init_same_identity; [done | done | |]; congruence. }
    split; simpl.
    + exists (render cid p c (page w1)).1.
      rewrite list_lookup_insert_eq by done.
      by rewrite render_alive, render_props.
    + by rewrite Hr, commit_destroy_calls, Hcl, app_nil_r.
    + apply Hgrow. by apply cs_render.
    + intros j Hj. destruct (Hu j Hj) as [vs Hvs].
      rewrite Hr, commit_update_calls, Hvs.
      destruct (vars_differ false p c); [|exists vs; by rewrite app_nil_r].
      unfold dashboard_after_cleanup. rewrite Hcl.
      destruct (held_instance_stays cid c0 c (page w0) (page w1) j) as [-> _];
        try done.
      * by apply (wok_account w0 ok0).
      * by apply (wok_account w1 Hok1).
      * exists (vs ++ [Props.vars p]). by rewrite map_app, app_assoc.
  - destruct Hs as (-> & _ & _). done.
  - destruct Hs as (t & _ & _ & _ & ->).
    destruct (on_load_quiet_destroy cid c (page w1) Hcok) as (Ed & Eu & Ep & Ea).
    split; simpl.
    + exists (on_load cid c (page w1)).1. rewrite list_lookup_insert_eq by done.
      by rewrite Ep, Ea.
    + by rewrite Ed.
    + apply Hgrow. apply cs_on_load.
    + intros j Hj. rewrite Eu. by apply Hu.
  - destruct Hs as (t & _ & _ & _ & ->).
    split; simpl.
    + exists c. by rewrite list_lookup_insert_eq.
    + split_calls. by rewrite app_nil_r.
    + apply (Hgrow (on_error cid (src t) c (page w1))). apply cs_on_error.
    + intros j Hj. split_calls. rewrite app_nil_r. by apply Hu.
  - destruct Hs as (-> & ->). split; simpl.
    + eexists. by rewrite list_lookup_insert_eq.
    + split_calls. by rewrite app_nil_r.
    + apply (Hgrow (getJwt cid c (page w1))). apply cs_getJwt.
    + intros j Hj. split_calls. rewrite app_nil_r. by apply Hu.
  - destruct Hs as (-> & ->).
    pose proof (Hgrow _ (cs_onVarsChanged cid c (page w1) v)) as Hg.
    unfold onVarsChanged_closure in *. destruct (onVarsChangedRef c); split; simpl.
    + exists c. by rewrite list_lookup_insert_eq.
    + split_calls. by rewrite app_nil_r.
    + done.
    + intros j Hj. split_calls. rewrite app_nil_r. by apply Hu.
    + exists c. by rewrite list_lookup_insert_eq.
    + done.
    + done.
    + done.
Qed.

Lemma identity_kept_run acts w :
  Forall (keeps_identity cid b d) acts ->
  world_ok w -> J w -> J (run acts w).
Proof.
  revert w. induction acts as [|a acts IH]; intros w Hk Hok HJ; [done|].
  apply Forall_cons in Hk as [Ha Hk]. simpl. apply IH; [done | by apply step_ok |].
  apply (step_inv cid J).
  - apply identity_kept_others.
  - intros w1 c s. by apply identity_kept_self.
  - destruct HJ as [(c & Hl & _) _ _ _]. by eapply lookup_lt_Some.
  - done.
  - done.
Qed.

Lemma identity_kept_start : alive c0 = true -> J w0.
Proof.
  intros Ha. split.
  - by exists c0.
  - done.
  - done.
  - intros i _. exists []. by rewrite app_nil_r.
Qed.

End IdentityKept.

(** C3, as the code has it. While a mounted component is neither unmounted
    nor rendered with another [id] or [baseUrl], it destroys no instance and
    constructs at most one; an instance it holds stays the one it holds, is
    not constructed again, and every [update] goes to it. Renders that change
    [vars], [jwt] or a callback are among the actions allowed here. *)
Theorem instance_kept_while_identity_kept
    (acts : list Action) (w0 : World) (cid : nat) (c0 : Comp) :
  world_ok w0 ->
  comps w0 !! cid = Some c0 ->
  alive c0 = true ->
  Forall (keeps_identity cid (Props.baseUrl (props c0)) (Props.id (props c0))) acts ->
  let w := run acts w0 in
  let created0 := factory_calls_of cid (calls (page w0)) in
  let created := factory_calls_of cid (calls (page w)) in
  exists c,
    comps w !! cid = Some c /\ alive c = true
    /\ destroy_calls_of cid (calls (page w)) = destroy_calls_of cid (calls (page w0))
    /\ length created <= length created0
                         + match dashboardRef c0 with Some _ => 0 | None => 1 end
    /\ (forall i, dashboardRef c0 = Some i ->
          dashboardRef c = Some i
          /\ created = created0
          /\ exists vs, update_calls_of cid (calls (page w))
                        = update_calls_of cid (calls (page w0))
                          ++ map (fun v => (i, v)) vs).
Proof.
  intros Hok Hl Ha Hk w created0 created.
  assert (identity_kept cid (Props.baseUrl (props c0)) (Props.id (props c0))
            (destroy_calls_of cid (calls (page w0))) created0
            (update_calls_of cid (calls (page w0))) (dashboardRef c0) w)
    as [(c & Hc & Hal & _ & _) Hd Hf Hu].
  { eapply identity_kept_run; [done | done | done | done |].
    by eapply identity_kept_start. }
  fold w in Hc, Hd, Hf, Hu.
  pose proof (run_ok acts w0 Hok) as Hokw. fold w in Hokw.
  pose proof (wok_account w0 Hok cid c0 Hl) as Hacc0.
  pose proof (wok_account w Hokw cid c Hc) as Hacc.
  exists c. split; [done|]. split; [done|]. split; [done|]. split.
  - subst created created0. unfold account in *. rewrite Hacc, Hacc0, Hd.
    rewrite !length_app. destruct (dashboardRef c0), (dashboardRef c); simpl; lia.
  - intros i Hi.
    destruct (held_instance_stays cid c0 c (page w0) (page w) i) as [E1 E2];
      try done.
    split; [done|]. split; [done|]. by apply Hu.
Qed.

(** C3, as the specification states it, fails: rendering a live component
    with another [id] destroys its instance and constructs a new one. *)
Lemma id_change_reconstructs_instance :
  dashboardRef live_comp = Some 0
  /\ Props.baseUrl props_other_id = Props.baseUrl (props live_comp)
  /\ let w := step (Render 0 props_other_id) live_world in
     destroy_calls_of 0 (calls (page w)) = [0]
     /\ factory_calls_of 0 (calls (page w)) = [0; 1]
     /\ (dashboardRef <$> comps w !! 0) = Some (Some 1).
Proof. by vm_compute. Qed.

(** ** A failed script load *)

Lemma notify_on_error url cs w :
  let w' := notify (fun c' => on_error c' url) cs w in
  comps w' = comps w
  /\ scripts (page w') = scripts (page w)
  /\ shaper_dashboard (page w') = shaper_dashboard (page w)
  /\ calls (page w') = calls (page w) ++ error_calls url cs w.
Proof.
  revert w. induction cs as [|c' cs IH]; intros w; simpl.
  - by rewrite app_nil_r.
  - unfold notify in *. simpl. unfold with_comp at 2 4 6 8.
    unfold error_calls. simpl.
    destruct (comps w !! c') as [c|] eqn:E; simpl.
    + destruct (IH (mkWorld (log [CallOnLoadError c' (onLoadErrorRef c)
                                    (load_error_message url)] (page w))
                            (<[c' := c]> (comps w)))) as (I1 & I2 & I3 & I4).
      simpl in *. rewrite list_insert_id in * by done.
      rewrite I1, I2, I3, I4. by rewrite <- app_assoc.
    + apply IH.
Qed.

Lemma error_calls_cons url c' cs w :
  error_calls url (c' :: cs) w =
    match comps w !! c' with
    | Some c => [CallOnLoadError c' (onLoadErrorRef c) (load_error_message url)]
    | None => []
    end ++ error_calls url cs w.
Proof. unfold error_calls. simpl. by destruct (comps w !! c'). Qed.

Lemma error_calls_of cid url cs w c :
  comps w !! cid = Some c ->
  load_error_calls_of cid (error_calls url cs w) =
    replicate (length (filter (fun x => x = cid) cs))
              (onLoadErrorRef c, load_error_message url)
  /\ factory_calls_of cid (error_calls url cs w) = [].
Proof.
  intros Hc. induction cs as [|c' cs [IH1 IH2]]; [done|].
  rewrite error_calls_cons. split_calls. rewrite IH1, IH2.
  destruct (decide (c' = cid)) as [->|Hne].
  - rewrite Hc, filter_cons_True by done.
    unfold load_error_calls_of, factory_calls_of. simpl.
    by rewrite bool_decide_eq_true_2.
  - rewrite filter_cons_False by done.
    destruct (comps w !! c'); [|done].
    unfold load_error_calls_of, factory_calls_of. simpl.
    by rewrite bool_decide_eq_false_2.
Qed.







Section LoadFailed.

Variables (cid : nat) (b : string) (i : nat) (u : string).
Variables (F0 : list nat) (L1 : list (option FnId * string)).

Let F := load_failed cid b i u F0 L1.




End LoadFailed.

Lemma step_ScriptError w i t :
  scripts (page w) !! i = Some t -> status t = Loading ->
  let w1 := step (ScriptError i) w in
  comps w1 = comps w
  /\ scripts (page w1) = <[i := set_status Failed t]> (scripts (page w))
  /\ shaper_dashboard (page w1) = shaper_dashboard (page w)
  /\ calls (page w1) = calls (page w) ++ error_calls (src t) (waiters t) w.
Proof.
  intros Ht Hst. simpl. rewrite Ht, bool_decide_eq_true_2 by done.
  apply (notify_on_error (src t) (waiters t)
           (mkWorld (set_scripts (<[i := set_status Failed t]> (scripts (page w)))
                                 (page w)) (comps w))).
Qed.










(** ** One script element per URL *)

















(** ** The example runs satisfy the hypotheses of the theorems *)

Lemma live_world_ok : world_ok live_world.
Proof. apply run_ok, initial_world_ok. Qed.

Lemma waiting_world_ok : world_ok waiting_world.
Proof. apply run_ok, initial_world_ok. Qed.

Lemma live_comp_ok : comp_ok live_comp.
Proof.
  apply (proj1 (Forall_lookup _ _) (wok_comps _ live_world_ok) 0).
  by vm_compute.
Qed.





Lemma waiting_tag_waiter : 0 ∈ waiters waiting_tag.
Proof. change (waiters waiting_tag) with [0]. apply list_elem_of_here. Qed.


Lemma identity_keeping_run_keeps :
  Forall (keeps_identity 0 (Props.baseUrl (props live_comp))
                         (Props.id (props live_comp)))
         identity_keeping_run.
Proof.
  change (props live_comp) with (props_with None vars_x0).
  repeat apply Forall_cons_2; try apply Forall_nil_2; by cbn.
Qed.



Lemma live_world_comp : comps live_world !! 0 = Some live_comp.
Proof. by vm_compute. Qed.

Lemma live_comp_alive : alive live_comp = true.
Proof. by vm_compute. Qed.

Lemma live_comp_instance : dashboardRef live_comp = Some 0.
Proof. by vm_compute. Qed.

Lemma waiting_world_comp : comps waiting_world !! 0 = Some waiting_comp.
Proof. by vm_compute. Qed.


Lemma waiting_world_tag : scripts (page waiting_world) !! 0 = Some waiting_tag.
Proof. by vm_compute. Qed.

Lemma waiting_tag_loading : status waiting_tag = Loading.
Proof. by vm_compute. Qed.

Lemma waiting_tag_src : src waiting_tag = scriptUrl (props waiting_comp).
Proof. by vm_compute. Qed.

(** ** The theorems at the example runs *)

(** C1 at the live component: three requests, then the token "tok". *)
Lemma pending_requests_resolve_in_order_witness :
  truthy (Props.jwt (props live_comp)) = false
  /\ Props.jwt props_with_token = Some "tok"
  /\ let s1 := Nat.iter 3 (fun s => getJwt 0 s.1 s.2) (live_comp, page live_world) in
     let s2 := render 0 props_with_token s1.1 s1.2 in
     resolveJwtRef s1.1 = [0; 1; 2]
     /\ resolve_calls_of 0 (calls s1.2) = []
     /\ resolve_calls_of 0 (calls s2.2) = [(0, "tok"); (1, "tok"); (2, "tok")]
     /\ resolveJwtRef s2.1 = [].
Proof.
  split; [reflexivity|]. split; [reflexivity|].
  exact (pending_requests_resolve_in_order 0 3 live_comp (page live_world)
           props_with_token "tok" eq_refl ltac:(discriminate) eq_refl).
Defined.

(** C9 at the live component with two pending requests and the token "". *)
Lemma falsy_jwt_leaves_waiters_pending_witness :
  truthy (Props.jwt props_empty_token) = false
  /\ let s := render 0 props_empty_token asking_state.1 asking_state.2 in
     resolveJwtRef s.1 = [0; 1]
     /\ resolve_calls_of 0 (calls s.2) = [].
Proof.
  split; [reflexivity|].
  exact (falsy_jwt_leaves_waiters_pending 0 asking_state.1 asking_state.2
           props_empty_token eq_refl).
Defined.

(** C4 at the live component: "tok" is supplied with nobody waiting, then
    one request, then "tok" again, then "tok2". *)
Lemma supply_without_waiters_is_not_cached_witness :
  resolveJwtRef live_comp = []
  /\ let s := render 0 props_with_token live_comp (page live_world) in
     let s' := getJwt 0 s.1 s.2 in
     resolveJwtRef s'.1 = [0]
     /\ resolve_calls_of 0 (calls (render 0 props_with_token s'.1 s'.2).2) = []
     /\ resolve_calls_of 0 (calls (render 0 props_with_token2 s'.1 s'.2).2)
        = [(0, "tok2")].
Proof.
  split; [reflexivity|].
  pose proof (supply_without_waiters_is_not_cached 0 live_comp (page live_world)
                props_with_token props_with_token2 "tok" "tok2"
                live_comp_ok eq_refl eq_refl eq_refl eq_refl
                ltac:(discriminate) ltac:(discriminate)) as H.
  cbv zeta in H. destruct H as (_ & (H1 & _) & (_ & H2) & (_ & H3)).
  cbv zeta. split; [exact H1|]. split; [exact H2 | exact H3].
Defined.

(** C5 at the live component: two requests, a render with another refresh
    action, one more request. *)
Lemma every_getJwt_calls_current_refresh_witness :
  Props.jwt props_other_refresh = Props.jwt (props live_comp)
  /\ let sn := Nat.iter 2 (fun s => getJwt 0 s.1 s.2) (live_comp, page live_world) in
     let s1 := render 0 props_other_refresh sn.1 sn.2 in
     let s2 := getJwt 0 s1.1 s1.2 in
     refresh_calls_of 0 (calls sn.2) = [Some 7; Some 7]
     /\ refresh_calls_of 0 (calls s1.2) = refresh_calls_of 0 (calls sn.2)
     /\ calls s2.2 = calls s1.2 ++ [CallRefresh 0 (Some 8)]
     /\ resolveJwtRef s2.1 = [0; 1; 2].
Proof.
  split; [reflexivity|].
  pose proof (every_getJwt_calls_current_refresh 0 2 live_comp (page live_world)
                props_other_refresh live_comp_ok eq_refl eq_refl) as H.
  cbv zeta in H. destruct H as (_ & H1 & (_ & H2 & _) & (H3 & H4)).
  cbv zeta. split; [exact H1|]. split; [exact H2|]. split; [exact H3 | exact H4].
Defined.



(** C7 at a run that constructs two instances (the second after a change
    of [id]) and then unmounts the component. *)
Lemma every_instance_destroyed_exactly_once_witness :
  let w := run unmounting_run initial_world in
  comps w !! 0 = Some unmounted_comp
  /\ alive unmounted_comp = false
  /\ factory_calls_of 0 (calls (page w)) = [0; 1]
  /\ destroy_calls_of 0 (calls (page w)) = factory_calls_of 0 (calls (page w))
  /\ NoDup (factory_calls_of 0 (calls (page w)))
  /\ step (Unmount 0) w = w.
Proof.
  pose proof (every_instance_destroyed_exactly_once unmounting_run initial_world
                0 unmounted_comp initial_world_ok) as H.
  cbv zeta in H. specialize (H ltac:(by vm_compute)).
  destruct H as [[_ Hnd] H]. specialize (H eq_refl).
  destruct H as (Hd & _ & _ & _ & Hu).
  cbv zeta. split; [by vm_compute|]. split; [reflexivity|].
  split; [by vm_compute|]. split; [exact Hd|]. split; [exact Hnd | exact Hu].
Defined.

(** C3, as the code has it, at the live component: renders that change
    [vars] and [jwt], a token request and a change of variables destroy
    nothing and construct nothing. *)
Lemma instance_kept_while_identity_kept_witness :
  comps live_world !! 0 = Some live_comp
  /\ alive live_comp = true
  /\ dashboardRef live_comp = Some 0
  /\ let w := run identity_keeping_run live_world in
     destroy_calls_of 0 (calls (page w)) = destroy_calls_of 0 (calls (page live_world))
     /\ factory_calls_of 0 (calls (page w)) = factory_calls_of 0 (calls (page live_world))
     /\ exists c, comps w !! 0 = Some c /\ dashboardRef c = Some 0.
Proof.
  split; [exact live_world_comp|]. split; [exact live_comp_alive|].
  split; [exact live_comp_instance|].
  pose proof (instance_kept_while_identity_kept identity_keeping_run live_world
                0 live_comp live_world_ok live_world_comp live_comp_alive
                identity_keeping_run_keeps) as H.
  cbv zeta in H. destruct H as (c & Hc & _ & Hd & _ & Hi).
  destruct (Hi 0 live_comp_instance) as (Hr & Hf & _).
  cbv zeta. split; [exact Hd|]. split; [exact Hf|].
  exists c. split; [exact Hc | exact Hr].
Defined.



(** ** Invariants of every component, step by step *)

Lemma flush_mono cid c pg :
  next_promise pg <= next_promise (flush cid c pg).2
  /\ next_instance pg <= next_instance (flush cid c pg).2.
Proof.
  rewrite flush_next_promise, flush_next_instance. split; [done|].
  repeat case_match; lia.
Qed.

Lemma commit_mono first cid p c pg :
  next_promise pg <= next_promise (commit first cid p c pg).2
  /\ next_instance pg <= next_instance (commit first cid p c pg).2.
Proof.
  rewrite commit_next_promise, commit_next_instance. split; [done|].
  case_match; lia.
Qed.

Lemma render_mono cid p c pg :
  next_promise pg <= next_promise (render cid p c pg).2
  /\ next_instance pg <= next_instance (render cid p c pg).2.
Proof.
  unfold render. cbv zeta.
  destruct (commit_mono false cid p c pg) as [H1 H2].
  destruct (flush_mono cid (commit false cid p c pg).1 (commit false cid p c pg).2)
    as [H3 H4]. lia.
Qed.

Lemma mount_mono cid p pg :
  next_promise pg <= next_promise (mount cid p pg).2
  /\ next_instance pg <= next_instance (mount cid p pg).2.
Proof.
  unfold mount. cbv zeta.
  destruct (commit_mono true cid p (initial_comp p) pg) as [H1 H2].
  destruct (flush_mono cid (commit true cid p (initial_comp p) pg).1
              (commit true cid p (initial_comp p) pg).2) as [H3 H4]. lia.
Qed.

Lemma unmount_mono cid c pg :
  next_promise pg <= next_promise (unmount cid c pg).2
  /\ next_instance pg <= next_instance (unmount cid c pg).2.
Proof.
  unfold unmount, when, cleanup_init. cbn.
  destruct (initCleanup c); [|done]. by destruct (dashboardRef c).
Qed.

Lemma comp_step_mono cid c pg s :
  comp_step cid c pg s ->
  next_promise pg <= next_promise s.2 /\ next_instance pg <= next_instance s.2.
Proof.
  intros [p Hal | Hal | | url | | v |].
  - apply render_mono.
  - apply unmount_mono.
  - unfold on_load. destruct (alive c); [|done].
    apply (flush_mono cid (setScriptLoaded true c) pg).
  - done.
  - cbn. lia.
  - unfold onVarsChanged_closure. by destruct (onVarsChangedRef c).
  - done.
Qed.

Section CompInvariant.

Variable P : nat -> Comp -> Page -> Prop.

Hypothesis P_others : forall cid c pg pg',
  P cid c pg -> quiet cid pg pg' ->
  next_promise pg <= next_promise pg' -> next_instance pg <= next_instance pg' ->
  P cid c pg'.

Hypothesis P_step : forall cid c pg s,
  comp_ok c -> fresh_instances pg -> comp_step cid c pg s ->
  P cid c pg -> P cid s.1 s.2.

Hypothesis P_mount : forall cid p pg,
  fresh_instances pg -> Forall (fun x => call_owner x < cid) (calls pg) ->
  P cid (mount cid p pg).1 (mount cid p pg).2.

Lemma all_comps_with_comp cid' h w :
  (forall c, comp_step cid' c (page w) (h c (page w))) ->
  world_ok w -> all_comps P w -> all_comps P (with_comp cid' h w).
Proof.
  intros Hh Hok HP. unfold with_comp.
  destruct (comps w !! cid') as [c'|] eqn:E; [|done].
  intros cid c Hl. cbn [comps page] in *.
  destruct (decide (cid = cid')) as [->|Hne].
  - rewrite list_lookup_insert_eq in Hl by (by eapply lookup_lt_Some).
    apply (inj Some) in Hl. subst c.
    apply (P_step cid' c' (page w)); [| apply (wok_fresh _ Hok) | apply Hh | by apply HP].
    by apply (Forall_lookup_1 _ _ _ _ (wok_comps _ Hok) E).
  - rewrite list_lookup_insert_ne in Hl by done.
    destruct (comp_step_mono _ _ _ _ (Hh c')) as [H1 H2].
    apply (P_others cid c (page w)); [by apply HP | | done | done].
    apply (extends_by_quiet cid cid'); [done|].
    apply (ps_calls _ _ _ (comp_step_page_step _ _ _ _ (Hh c'))).
Qed.

Lemma all_comps_notify h cs w :
  (forall cid c pg, comp_step cid c pg (h cid c pg)) ->
  world_ok w -> all_comps P w -> all_comps P (notify h cs w).
Proof.
  intros Hh. unfold notify. revert w.
  induction cs as [|cid cs IH]; intros w Hok HP; [done|].
  simpl. apply IH.
  - apply with_comp_ok; [|done]. intros c. apply Hh.
  - apply all_comps_with_comp; [|done|done]. intros c. apply Hh.
Qed.

Lemma all_comps_set_status w i t st b :
  all_comps P w ->
  all_comps P (mkWorld (set_shaper_dashboard b
                          (set_scripts (<[i := set_status st t]> (scripts (page w)))
                                       (page w)))
                       (comps w)).
Proof.
  intros HP cid c Hl. cbn [comps page] in *.
  apply (P_others cid c (page w)); [by apply HP | | done | done].
  exists []. by rewrite app_nil_r.
Qed.

Lemma all_comps_step a w : world_ok w -> all_comps P w -> all_comps P (step a w).
Proof.
  intros Hok HP. destruct a as [p | c' p | c' | i r | i | c' | c' v].
  - intros cid c Hl. cbn [step comps page] in *.
    destruct (mount_page_step (length (comps w)) p (page w)) as [He _ _ _].
    destruct (mount_mono (length (comps w)) p (page w)) as [H1 H2].
    destruct (decide (cid = length (comps w))) as [->|Hne].
    + rewrite lookup_app_r, Nat.sub_diag in Hl by done.
      apply (inj Some) in Hl. subst c.
      apply P_mount; [apply (wok_fresh _ Hok) | apply (wok_bounded _ Hok)].
    + assert (cid < length (comps w)).
      { apply lookup_lt_Some in Hl. rewrite length_app in Hl. simpl in Hl. lia. }
      rewrite lookup_app_l in Hl by done.
      apply (P_others cid c (page w)); [by apply HP | | done | done].
      eapply extends_by_quiet; [|done]. lia.
  - apply all_comps_with_comp; [|done|done].
    intros c. destruct (alive c) eqn:E; [by apply cs_render | apply cs_skip].
  - apply all_comps_with_comp; [|done|done].
    intros c. destruct (alive c) eqn:E; [by apply cs_unmount | apply cs_skip].
  - simpl. destruct (scripts (page w) !! i) as [t|] eqn:Et; [|done].
    case_bool_decide as Est; [|done].
    apply all_comps_notify.
    + intros. apply cs_on_load.
    + by apply world_ok_set_status.
    + by apply all_comps_set_status.
  - simpl. destruct (scripts (page w) !! i) as [t|] eqn:Et; [|done].
    case_bool_decide as Est; [|done].
    apply all_comps_notify.
    + intros. apply cs_on_error.
    + by apply (world_ok_set_status w i t Failed (shaper_dashboard (page w))).
    + by apply (all_comps_set_status w i t Failed (shaper_dashboard (page w))).
  - apply all_comps_with_comp; [|done|done]. intros c. apply cs_getJwt.
  - apply all_comps_with_comp; [|done|done]. intros c. apply cs_onVarsChanged.
Qed.

Lemma all_comps_run acts w :
  world_ok w -> all_comps P w -> all_comps P (run acts w).
Proof.
  revert w. induction acts as [|a acts IH]; intros w Hok HP; [done|].
  simpl. apply IH; [by apply step_ok | by apply all_comps_step].
Qed.

Lemma all_comps_reachable acts : all_comps P (run acts initial_world).
Proof. apply all_comps_run; [apply initial_world_ok | by intros cid c Hl]. Qed.

End CompInvariant.

(** ** The protocol of an instance *)

Lemma instance_protocol_app cid h l1 l2 :
  instance_protocol cid h (l1 ++ l2) =
    instance_protocol cid h l1 ≫= fun h' => instance_protocol cid h' l2.
Proof.
  revert h. induction l1 as [|x l1 IH]; intros h; [done|].
  destruct x; cbn [app instance_protocol]; repeat case_match; by rewrite ?IH.
Qed.

Lemma instance_protocol_others cid h delta :
  Forall (fun x => call_owner x <> cid) delta ->
  instance_protocol cid h delta = Some h.
Proof.
  intros H. induction H as [|x delta Hx _ IH]; [done|].
  destruct x; cbn [instance_protocol call_owner] in *;
    rewrite ?bool_decide_eq_false_2 by done; done.
Qed.

Lemma instance_protocol_step cid h h' pg delta :
  instance_protocol cid None (calls pg) = Some h ->
  instance_protocol cid h delta = Some h' ->
  instance_protocol cid None (calls pg ++ delta) = Some h'.
Proof. intros H1 H2. by rewrite instance_protocol_app, H1. Qed.

Lemma protocol_destroy_part first cid p c :
  instance_protocol cid (dashboardRef c) (destroy_part first cid p c)
  = Some (dashboard_after_cleanup first p c).
Proof.
  unfold destroy_part, dashboard_after_cleanup.
  destruct (cleans first p c); [|done].
  destruct (dashboardRef c) as [i|]; [|done].
  cbn [instance_protocol]. by rewrite !bool_decide_eq_true_2.
Qed.

Lemma protocol_resolve_part first cid p c h :
  instance_protocol cid h (resolve_part first cid p c) = Some h.
Proof.
  unfold resolve_part. destruct (Props.jwt p) as [v|]; [|done].
  destruct (_ && _); [|done].
  induction (resolveJwtRef c) as [|r l IH]; [done|]. done.
Qed.

Lemma protocol_update_part first cid p c :
  instance_protocol cid (dashboard_after_cleanup first p c)
    (update_part first cid p c)
  = Some (dashboard_after_cleanup first p c).
Proof.
  unfold update_part. destruct (vars_differ first p c); [|done].
  destruct (dashboard_after_cleanup first p c) as [i|]; [|done].
  cbn [instance_protocol]. by rewrite !bool_decide_eq_true_2.
Qed.

Lemma protocol_factory_part first cid p c pg :
  instance_protocol cid (dashboard_after_cleanup first p c)
    (factory_part first cid p c pg)
  = Some (if creates first p c pg then Some (next_instance pg)
          else dashboard_after_cleanup first p c).
Proof.
  unfold factory_part. destruct (creates first p c pg) eqn:E; [|done].
  unfold creates in E. apply andb_true_iff in E as [_ E].
  apply negb_true_iff, bool_decide_eq_false in E.
  destruct (dashboard_after_cleanup first p c) as [i|]; [by destruct E|].
  cbn [instance_protocol]. by rewrite bool_decide_eq_true_2.
Qed.

Lemma commit_protocol first cid p c pg :
  instance_protocol cid None (calls pg) = Some (dashboardRef c) ->
  instance_protocol cid None (calls (commit first cid p c pg).2)
  = Some (dashboardRef (commit first cid p c pg).1).
Proof.
  intros H. rewrite commit_calls, commit_dashboardRef.
  rewrite instance_protocol_app, H. cbn [mbind option_bind].
  rewrite instance_protocol_app, protocol_destroy_part. cbn [mbind option_bind].
  rewrite instance_protocol_app, protocol_resolve_part. cbn [mbind option_bind].
  rewrite instance_protocol_app, protocol_update_part. cbn [mbind option_bind].
  apply protocol_factory_part.
Qed.

Lemma flush_protocol cid c pg :
  instance_protocol cid None (calls pg) = Some (dashboardRef c) ->
  instance_protocol cid None (calls (flush cid c pg).2)
  = Some (dashboardRef (flush cid c pg).1).
Proof.
  intros H. unfold flush. case_bool_decide; [done|]. by apply commit_protocol.
Qed.

Lemma unmount_protocol cid c pg :
  instance_protocol cid None (calls pg) = Some (dashboardRef c) ->
  instance_protocol cid None (calls (unmount cid c pg).2)
  = Some (dashboardRef (unmount cid c pg).1).
Proof.
  intros H. unfold unmount, when, cleanup_init. cbn.
  destruct (initCleanup c); [|done].
  destruct (dashboardRef c) as [i|] eqn:E; cbn; [|by rewrite E].
  rewrite instance_protocol_app, H. cbn.
  by rewrite !bool_decide_eq_true_2.
Qed.

Lemma comp_step_protocol cid c pg s :
  comp_step cid c pg s ->
  instance_protocol cid None (calls pg) = Some (dashboardRef c) ->
  instance_protocol cid None (calls s.2) = Some (dashboardRef s.1).
Proof.
  intros [p Hal | Hal | | url | | v |] H.
  - unfold render. cbv zeta. by apply flush_protocol, commit_protocol.
  - by apply unmount_protocol.
  - unfold on_load. destruct (alive c); [|done].
    by apply (flush_protocol cid (setScriptLoaded true c) pg).
  - cbn. by rewrite instance_protocol_app, H.
  - cbn. by rewrite instance_protocol_app, H.
  - unfold onVarsChanged_closure. destruct (onVarsChangedRef c); [|done].
    cbn. by rewrite instance_protocol_app, H.
  - done.
Qed.

Lemma owned_less_others cid cs :
  Forall (fun x => call_owner x < cid) cs ->
  Forall (fun x => call_owner x <> cid) cs.
Proof. intros H. eapply Forall_impl; [done|]. simpl. intros x. lia. Qed.

(** X1. In every world reached from the empty page, the calls a component
    has made to the factory and to its instances follow the protocol of an
    instance: the factory is called only while the component holds no
    instance, [update] and [destroy] are called only on the instance it
    holds, never on one it has destroyed, and what the protocol says the
    component holds is what [dashboardRef.current] is. *)
Theorem instance_calls_follow_protocol
    (acts : list Action) (cid : nat) (c : Comp) :
  comps (run acts initial_world) !! cid = Some c ->
  instance_protocol cid None (calls (page (run acts initial_world)))
  = Some (dashboardRef c).
Proof.
  revert cid c.
  apply (all_comps_reachable
           (fun cid c pg => instance_protocol cid None (calls pg)
                            = Some (dashboardRef c))).
  - intros cid c pg pg' H (delta & -> & Hd) _ _.
    rewrite instance_protocol_app, H. by apply instance_protocol_others.
  - intros cid c pg s _ _ Hs H. by apply (comp_step_protocol cid c pg).
  - intros cid p pg _ Hb. unfold mount. cbv zeta.
    apply flush_protocol, commit_protocol.
    by apply instance_protocol_others, owned_less_others.
Qed.

(** ** Token requests over a whole run *)

Lemma calls_of_strangers cid delta :
  Forall (fun x => call_owner x <> cid) delta ->
  resolve_calls_of cid delta = [] /\ refresh_calls_of cid delta = []
  /\ sent_vars cid delta = [] /\ onVarsChanged_calls_of cid delta = []
  /\ factory_calls_of cid delta = [] /\ destroy_calls_of cid delta = []
  /\ update_calls_of cid delta = [].
Proof.
  intros H. induction H as [|x delta Hx _ IH]; [done|].
  destruct IH as (I1 & I2 & I3 & I4 & I5 & I6 & I7).
  unfold resolve_calls_of, refresh_calls_of, sent_vars, onVarsChanged_calls_of,
    factory_calls_of, destroy_calls_of, update_calls_of in *.
  destruct x; simpl in *; rewrite ?bool_decide_eq_false_2 by done; done.
Qed.

Lemma commit_promises first cid p c pg :
  promises_of cid (commit first cid p c pg).1 (commit first cid p c pg).2
  = promises_of cid c pg.
Proof.
  unfold promises_of. rewrite commit_resolveJwtRef, commit_calls. split_calls.
  rewrite resolve_calls_of_resolve_part, resolve_calls_of_destroy_part,
    resolve_calls_of_update_part, resolve_calls_of_factory_part.
  simpl. rewrite app_nil_r. unfold truthy.
  destruct (Props.jwt p) as [v|]; [|by rewrite andb_false_r, app_nil_r].
  destruct (ch_jwt first p c && negb (bool_decide (v = ""))).
  - rewrite map_app, map_map. simpl. by rewrite map_id, <- app_assoc, app_nil_r.
  - by rewrite app_nil_r.
Qed.

Lemma commit_refresh_calls first cid p c pg :
  refresh_calls_of cid (calls (commit first cid p c pg).2)
  = refresh_calls_of cid (calls pg).
Proof.
  rewrite commit_calls. split_calls.
  rewrite refresh_calls_of_resolve_part, refresh_calls_of_destroy_part,
    refresh_calls_of_update_part, refresh_calls_of_factory_part.
  by rewrite !app_nil_r.
Qed.

Lemma flush_promises cid c pg :
  promises_of cid (flush cid c pg).1 (flush cid c pg).2 = promises_of cid c pg.
Proof. unfold flush. case_bool_decide; [done | apply commit_promises]. Qed.

Lemma flush_refresh_calls cid c pg :
  refresh_calls_of cid (calls (flush cid c pg).2) = refresh_calls_of cid (calls pg).
Proof. unfold flush. case_bool_decide; [done | apply commit_refresh_calls]. Qed.

Lemma unmount_calls cid c pg :
  calls (unmount cid c pg).2 =
    calls pg ++ (if initCleanup c
                 then match dashboardRef c with
                      | Some i => [CallDestroy cid i]
                      | None => []
                      end
                 else [])
  /\ resolveJwtRef (unmount cid c pg).1 = resolveJwtRef c.
Proof.
  unfold unmount, when, cleanup_init. cbn.
  destruct (initCleanup c); [|by rewrite app_nil_r].
  destruct (dashboardRef c); cbn; by rewrite ?app_nil_r.
Qed.

(** What one handler does to the promises and the refresh calls of its
    component: nothing, or it is a token request. *)
Lemma comp_step_tokens cid c pg s :
  comp_step cid c pg s ->
  (promises_of cid s.1 s.2 = promises_of cid c pg
   /\ refresh_calls_of cid (calls s.2) = refresh_calls_of cid (calls pg))
  \/ (promises_of cid s.1 s.2 = promises_of cid c pg ++ [next_promise pg]
      /\ refresh_calls_of cid (calls s.2)
         = refresh_calls_of cid (calls pg) ++ [refreshRef c]
      /\ next_promise s.2 = S (next_promise pg)).
Proof.
  intros [p Hal | Hal | | url | | v |].
  - left. unfold render. cbv zeta.
    by rewrite flush_promises, flush_refresh_calls, commit_promises,
      commit_refresh_calls.
  - left. destruct (unmount_calls cid c pg) as [Hc Hr].
    unfold promises_of. rewrite Hc, Hr. split_calls.
    by repeat case_match; simpl; rewrite ?app_nil_r.
  - left. unfold on_load. destruct (alive c); [|done].
    rewrite (flush_promises cid (setScriptLoaded true c) pg).
    by rewrite (flush_refresh_calls cid (setScriptLoaded true c) pg).
  - left. unfold promises_of, on_error, log. cbn [fst snd calls]. split_calls.
    cbn. by rewrite !app_nil_r.
  - right. unfold promises_of, getJwt, log, alloc_promise, set_resolveJwtRef.
    cbn [fst snd calls resolveJwtRef next_promise]. split_calls. cbn.
    rewrite bool_decide_eq_true_2 by done. by rewrite !app_nil_r, app_assoc.
  - left. unfold promises_of, onVarsChanged_closure.
    destruct (onVarsChangedRef c); [|done]. unfold log. cbn [fst snd calls].
    split_calls. cbn. by rewrite !app_nil_r.
  - by left.
Qed.

Lemma increasing_snoc (l : list nat) (n : nat) :
  increasing l = true -> Forall (fun r => r < n) l -> increasing (l ++ [n]) = true.
Proof.
  induction l as [|x l IH]; [done|]. intros Hs [Hxn Hb]%Forall_cons.
  cbn [increasing app] in *. apply andb_true_iff in Hs as [Hx Hs].
  rewrite IH by done. rewrite andb_true_r.
  destruct l as [|y l]; [by apply Nat.ltb_lt | done].
Qed.

Lemma increasing_head (x : nat) (l : list nat) :
  increasing (x :: l) = true -> Forall (fun y => x < y) l.
Proof.
  revert x. induction l as [|y l IH]; intros x H; [constructor|].
  cbn [increasing] in H. apply andb_true_iff in H as [Hxy H].
  apply Nat.ltb_lt in Hxy. constructor; [done|].
  eapply Forall_impl; [by apply IH|]. simpl. intros z. lia.
Qed.

Lemma increasing_NoDup (l : list nat) : increasing l = true -> NoDup l.
Proof.
  induction l as [|x l IH]; [constructor|]. intros H.
  pose proof (increasing_head x l H) as Hx.
  cbn [increasing] in H. apply andb_true_iff in H as [_ H].
  constructor; [|by apply IH].
  intros Hin. rewrite Forall_forall in Hx. specialize (Hx _ Hin). lia.
Qed.

Lemma mount_tokens cid p pg :
  Forall (fun x => call_owner x < cid) (calls pg) ->
  promises_of cid (mount cid p pg).1 (mount cid p pg).2 = []
  /\ refresh_calls_of cid (calls (mount cid p pg).2) = [].
Proof.
  intros Hb%owned_less_others.
  destruct (calls_of_strangers _ _ Hb) as (Hr & Hf & _).
  unfold mount. cbv zeta.
  rewrite flush_promises, flush_refresh_calls, commit_promises,
    commit_refresh_calls.
  unfold promises_of. by rewrite Hr, Hf.
Qed.

(** X2. In every world reached from the empty page, the promises of a
    component (those resolved so far in the order of their resolution,
    followed by those still queued in queue order) are in strictly increasing
    order of their numbers, which [getJwt] hands out in the order of the
    requests. So no promise is resolved twice, none is resolved while still
    queued, and tokens are delivered in the order of the requests over the
    whole life of the component. Moreover every request is accounted for:
    the resolved and the queued promises together are as many as the calls of
    the refresh action. *)
Theorem tokens_are_delivered_in_request_order
    (acts : list Action) (cid : nat) (c : Comp) :
  comps (run acts initial_world) !! cid = Some c ->
  let pg := page (run acts initial_world) in
  let resolved := map fst (resolve_calls_of cid (calls pg)) in
  increasing (resolved ++ resolveJwtRef c) = true
  /\ NoDup (resolved ++ resolveJwtRef c)
  /\ length resolved + length (resolveJwtRef c)
     = length (refresh_calls_of cid (calls pg)).
Proof.
  intros Hl. cbv zeta.
  cut (increasing (promises_of cid c (page (run acts initial_world))) = true
       /\ Forall (fun r => r < next_promise (page (run acts initial_world)))
                 (promises_of cid c (page (run acts initial_world)))
       /\ length (promises_of cid c (page (run acts initial_world)))
          = length (refresh_calls_of cid
                      (calls (page (run acts initial_world))))).
  { unfold promises_of. intros (Hs & _ & Hn). split; [done|]. split.
    - by apply increasing_NoDup.
    - by rewrite <- Hn, length_app. }
  revert cid c Hl.
  apply (all_comps_reachable
           (fun cid c pg =>
              increasing (promises_of cid c pg) = true
              /\ Forall (fun r => r < next_promise pg) (promises_of cid c pg)
              /\ length (promises_of cid c pg)
                 = length (refresh_calls_of cid (calls pg)))).
  - intros cid c pg pg' (Hs & Hb & Hn) (delta & E & Hd) Hp _.
    destruct (calls_of_strangers _ _ Hd) as (Hr & Hf & _).
    unfold promises_of in *. rewrite E. split_calls.
    rewrite Hr, Hf, !app_nil_r. split; [done|]. split; [|done].
    eapply Forall_impl; [done|]. simpl. intros r. lia.
  - intros cid c pg s _ _ Hst (Hs & Hb & Hn).
    destruct (comp_step_mono _ _ _ _ Hst) as [Hm _].
    destruct (comp_step_tokens _ _ _ _ Hst) as [[-> ->] | (-> & -> & E)].
    + split; [done|]. split; [|done].
      eapply Forall_impl; [done|]. simpl. intros r. lia.
    + split; [by apply increasing_snoc|]. split.
      * rewrite E. apply Forall_app. split.
        -- eapply Forall_impl; [done|]. simpl. intros r. lia.
        -- apply Forall_singleton. lia.
      * rewrite !length_app. simpl. lia.
  - intros cid p pg _ Hb. destruct (mount_tokens cid p pg Hb) as [-> ->].
    split; [done|]. by split.
Qed.

(** X3. In every world reached from the empty page, every call of the
    refresh action made for a component went to a [refreshJwt] function of
    the host: the placeholder [() => { }] that [refreshRef] starts with is
    never the function that [getJwt] calls. *)
Theorem refresh_placeholder_is_never_called
    (acts : list Action) (cid : nat) :
  Forall is_Some (refresh_calls_of cid (calls (page (run acts initial_world)))).
Proof.
  destruct (comps (run acts initial_world) !! cid) as [c|] eqn:Hl.
  - revert cid c Hl.
    apply (all_comps_reachable
             (fun cid c pg => Forall is_Some (refresh_calls_of cid (calls pg)))).
    + intros cid c pg pg' H (delta & E & Hd) _ _.
      destruct (calls_of_strangers _ _ Hd) as (_ & Hf & _).
      rewrite E. split_calls. by rewrite Hf, app_nil_r.
    + intros cid c pg s [Hinv _] _ Hst H.
      destruct (comp_step_tokens _ _ _ _ Hst) as [[_ ->] | (_ & -> & _)]; [done|].
      apply Forall_app. split; [done|]. apply Forall_singleton.
      by rewrite (inv_refresh c Hinv).
    + intros cid p pg _ Hb. by destruct (mount_tokens cid p pg Hb) as [_ ->].
  - apply lookup_ge_None in Hl.
    pose proof (wok_bounded _ (run_ok acts _ initial_world_ok)) as Hb.
    assert (Forall (fun x => call_owner x <> cid)
                   (calls (page (run acts initial_world)))) as Hs.
    { eapply Forall_impl; [done|]. simpl. intros x. lia. }
    destruct (calls_of_strangers _ _ Hs) as (_ & -> & _). constructor.
Qed.

(** ** What the widget is told about the variables *)

Lemma sent_vars_app cid l1 l2 :
  sent_vars cid (l1 ++ l2) = sent_vars cid l1 ++ sent_vars cid l2.
Proof. apply omap_app. Qed.

Lemma no_repeat_snoc l x :
  no_repeat l ->
  (forall y, last l = Some y -> y.1 = x.1 ->
             JSON.stringify y.2 <> JSON.stringify x.2) ->
  no_repeat (l ++ [x]).
Proof.
  induction l as [|y l IH]; intros Hl Hx; [done|].
  cbn [app no_repeat] in *. destruct Hl as [Hy Hl]. split.
  - destruct l as [|z l]; [|done]. cbn [app]. apply Hx. done.
  - apply IH; [done|]. intros z Hz. apply Hx.
    destruct l; [done|]. done.
Qed.

Lemma sent_vars_destroy_part cid' first cid p c :
  sent_vars cid' (destroy_part first cid p c) = [].
Proof. unfold destroy_part. by repeat case_match. Qed.

Lemma sent_vars_resolve_part cid' first cid p c :
  sent_vars cid' (resolve_part first cid p c) = [].
Proof.
  unfold resolve_part. repeat case_match; try done.
  induction (resolveJwtRef c); done.
Qed.

Lemma sent_vars_update_part first cid p c :
  sent_vars cid (update_part first cid p c) =
    if vars_differ first p c then
      match dashboard_after_cleanup first p c with
      | Some i => [(i, Props.vars p)]
      | None => []
      end
    else [].
Proof.
  unfold update_part. repeat case_match; try done.
  cbn. by rewrite bool_decide_eq_true_2.
Qed.

Lemma sent_vars_factory_part first cid p c pg :
  sent_vars cid (factory_part first cid p c pg) =
    if creates first p c pg then [(next_instance pg, vars_after first p c)] else [].
Proof.
  unfold factory_part. case_match; [|done]. cbn.
  by rewrite bool_decide_eq_true_2.
Qed.

Lemma commit_sent_vars first cid p c pg :
  sent_vars cid (calls (commit first cid p c pg).2) =
    sent_vars cid (calls pg)
    ++ (if vars_differ first p c then
          match dashboard_after_cleanup first p c with
          | Some i => [(i, Props.vars p)]
          | None => []
          end
        else [])
    ++ (if creates first p c pg then [(next_instance pg, vars_after first p c)]
        else []).
Proof.
  rewrite commit_calls, !sent_vars_app.
  by rewrite sent_vars_destroy_part, sent_vars_resolve_part,
    sent_vars_update_part, sent_vars_factory_part.
Qed.

Lemma creates_none_held first p c pg :
  creates first p c pg = true -> dashboard_after_cleanup first p c = None.
Proof.
  unfold creates. intros [_ E]%andb_true_iff.
  apply negb_true_iff, bool_decide_eq_false in E.
  destruct (dashboard_after_cleanup first p c); [by destruct E | done].
Qed.

Lemma last_snoc_eq {A} (l : list A) x : last (l ++ [x]) = Some x.
Proof. by rewrite last_snoc. Qed.

Lemma held_after_cleanup first p c i :
  dashboard_after_cleanup first p c = Some i -> dashboardRef c = Some i.
Proof. unfold dashboard_after_cleanup. by destruct (cleans first p c). Qed.

Lemma vars_differ_neq first p c :
  vars_differ first p c = true -> JSON.stringify (Props.vars p) <> varsJsonRef c.
Proof.
  unfold vars_differ, Object_is_ostr. intros [_ H]%andb_true_iff.
  by apply negb_true_iff, bool_decide_eq_false in H.
Qed.

Lemma commit_vars_sync first cid p c pg :
  vars_sync cid c pg ->
  vars_sync cid (commit first cid p c pg).1 (commit first cid p c pg).2.
Proof.
  intros (Hj & Hb & Hn & Hl). unfold vars_sync.
  rewrite commit_varsJsonRef, commit_varsRef, commit_sent_vars,
    commit_next_instance, commit_dashboardRef.
  unfold vars_after.
  destruct (creates first p c pg) eqn:Ec.
  - rewrite (creates_none_held _ _ _ _ Ec).
    assert ((if vars_differ first p c then @nil (nat * ShaperDashboardVars)
             else []) = []) as -> by (by destruct (vars_differ first p c)).
    cbn [app]. split; [by destruct (vars_differ first p c)|]. split.
    { apply Forall_app. split.
      - eapply Forall_impl; [done|]. simpl. intros x. lia.
      - apply Forall_singleton. simpl. lia. }
    split.
    { apply no_repeat_snoc; [done|]. intros y Hy E. simpl in E.
      apply last_Some_elem_of in Hy. rewrite Forall_forall in Hb.
      specialize (Hb _ Hy). simpl in Hb. lia. }
    intros i [= <-]. by rewrite last_snoc.
  - rewrite app_nil_r.
    destruct (vars_differ first p c) eqn:Ev.
    + destruct (dashboard_after_cleanup first p c) as [i|] eqn:Ed.
      * pose proof (held_after_cleanup _ _ _ _ Ed) as Hi.
        pose proof (Hl i Hi) as Hlast.
        split; [done|]. split.
        { apply Forall_app. split; [done|]. apply Forall_singleton. simpl.
          apply last_Some_elem_of in Hlast. rewrite Forall_forall in Hb.
          by specialize (Hb _ Hlast). }
        split.
        { apply no_repeat_snoc; [done|]. intros y Hy _.
          rewrite Hlast in Hy. injection Hy as <-. simpl. rewrite <- Hj.
          intros E. by apply (vars_differ_neq _ _ _ Ev). }
        intros j [= <-]. by rewrite last_snoc.
      * rewrite app_nil_r. split; [done|]. split; [done|]. by split.
    + rewrite app_nil_r. split; [done|]. split; [done|]. split; [done|].
      intros i Hi. by apply Hl, (held_after_cleanup first p).
Qed.

Lemma flush_vars_sync cid c pg :
  vars_sync cid c pg -> vars_sync cid (flush cid c pg).1 (flush cid c pg).2.
Proof. unfold flush. case_bool_decide; [done | apply commit_vars_sync]. Qed.

Lemma vars_sync_same cid c pg c' pg' :
  varsRef c' = varsRef c -> varsJsonRef c' = varsJsonRef c ->
  (forall i, dashboardRef c' = Some i -> dashboardRef c = Some i) ->
  next_instance pg' = next_instance pg ->
  sent_vars cid (calls pg') = sent_vars cid (calls pg) ->
  vars_sync cid c pg -> vars_sync cid c' pg'.
Proof.
  intros Hv Hj Hd Hn Hs (H1 & H2 & H3 & H4). unfold vars_sync.
  rewrite Hv, Hj, Hn, Hs. split; [done|]. split; [done|]. split; [done|].
  intros i Hi. by apply H4, Hd.
Qed.

Lemma sent_vars_log cid cs pg :
  sent_vars cid cs = [] -> sent_vars cid (calls (log cs pg)) = sent_vars cid (calls pg).
Proof.
  intros H. unfold log. cbn [calls]. by rewrite sent_vars_app, H, app_nil_r.
Qed.

Lemma unmount_vars_sync cid c pg :
  vars_sync cid c pg -> vars_sync cid (unmount cid c pg).1 (unmount cid c pg).2.
Proof.
  unfold unmount, when, cleanup_init.
  destruct (initCleanup c); cbn [fst snd].
  - destruct (dashboardRef c) as [i|] eqn:E; cbn [fst snd].
    + apply vars_sync_same; try done. by apply sent_vars_log.
    + by apply vars_sync_same.
  - by apply vars_sync_same.
Qed.

Lemma comp_step_vars_sync cid c pg s :
  comp_step cid c pg s -> vars_sync cid c pg -> vars_sync cid s.1 s.2.
Proof.
  intros [p Hal | Hal | | url | | v |] H.
  - unfold render. cbv zeta. by apply flush_vars_sync, commit_vars_sync.
  - by apply unmount_vars_sync.
  - unfold on_load. destruct (alive c); [|done].
    by apply (flush_vars_sync cid (setScriptLoaded true c) pg).
  - revert H. unfold on_error. cbn [fst snd].
    apply vars_sync_same; try done. by apply sent_vars_log.
  - revert H. unfold getJwt. cbn [fst snd].
    apply vars_sync_same; try done.
    by apply (sent_vars_log cid _ (alloc_promise pg)).
  - unfold onVarsChanged_closure. destruct (onVarsChangedRef c); [|done].
    revert H. cbn [fst snd]. apply vars_sync_same; try done.
    by apply sent_vars_log.
  - done.
Qed.

(** X4. In every world reached from the empty page by a host that never
    changes a [vars] object in place, what the widget of a component has
    been told about the variables (by the factory and by [update]) never
    repeats itself: no instance is given a value with the serialisation of
    the value it was given just before. And the instance a component holds
    was last given the snapshot in [varsRef.current], whose serialisation is
    the stored one. *)
Theorem widget_is_told_each_change_once
    (acts : list Action) (cid : nat) (c : Comp) :
  objects_immutable acts ->
  comps (run acts initial_world) !! cid = Some c ->
  let sent := sent_vars cid (calls (page (run acts initial_world))) in
  no_repeat sent
  /\ (forall i, dashboardRef c = Some i -> last sent = Some (i, varsRef c))
  /\ varsJsonRef c = JSON.stringify (varsRef c).
Proof.
  intros _ Hl. cbv zeta.
  cut (vars_sync cid c (page (run acts initial_world))).
  { intros (Hj & _ & Hn & Hs). by repeat split. }
  revert cid c Hl. apply (all_comps_reachable vars_sync).
  - intros cid c pg pg' (Hj & Hb & Hn & Hl) (delta & E & Hd) _ Hi.
    destruct (calls_of_strangers _ _ Hd) as (_ & _ & Hs & _).
    unfold vars_sync. rewrite E, sent_vars_app, Hs, app_nil_r.
    split; [done|]. split; [|done].
    eapply Forall_impl; [done|]. simpl. intros x. lia.
  - intros cid c pg s _ _ Hst H. by apply (comp_step_vars_sync cid c pg).
  - intros cid p pg _ Hb%owned_less_others.
    destruct (calls_of_strangers _ _ Hb) as (_ & _ & Hs & _).
    unfold mount. cbv zeta. apply flush_vars_sync, commit_vars_sync.
    unfold vars_sync. rewrite Hs. by repeat split.
Qed.

(** ** After the unmount *)

Lemma silent_others cid F D U R w1 w2 :
  silent cid F D U R w1 -> others_step cid w1 w2 -> silent cid F D U R w2.
Proof.
  intros (c & Hc & Ha & HF & HD & HU & HR) [Hcomp (delta & E & Hd) _].
  destruct (calls_of_strangers _ _ Hd) as (Hr & _ & _ & _ & Hf & Hde & Hu).
  exists c. rewrite Hcomp, E. split_calls.
  rewrite Hr, Hf, Hde, Hu, !app_nil_r. by repeat split.
Qed.

Lemma silent_log cid F D U R w c c' cs :
  comps w !! cid = Some c ->
  alive c' = false ->
  factory_calls_of cid cs = [] -> destroy_calls_of cid cs = [] ->
  update_calls_of cid cs = [] -> resolve_calls_of cid cs = [] ->
  silent cid F D U R w ->
  silent cid F D U R (mkWorld (log cs (page w)) (<[cid := c']> (comps w))).
Proof.
  intros Hc Ha Hf Hd Hu Hr (c0 & _ & _ & HF & HD & HU & HR).
  exists c'. cbn [comps page]. unfold log. cbn [calls]. split_calls.
  rewrite Hf, Hd, Hu, Hr, !app_nil_r.
  rewrite list_lookup_insert_eq by (by eapply lookup_lt_Some).
  by repeat split.
Qed.

Lemma silent_self cid F D U R a pg0 w1 c s :
  silent cid F D U R w1 ->
  comps w1 !! cid = Some c -> self_step a cid pg0 c (page w1) s ->
  silent cid F D U R (mkWorld s.2 (<[cid := s.1]> (comps w1))).
Proof.
  intros HI Hc Hs. pose proof HI as (c0 & Hc0 & Ha & _).
  rewrite Hc in Hc0. apply (inj Some) in Hc0. subst c0.
  assert (silent cid F D U R (mkWorld (page w1) (<[cid := c]> (comps w1)))) as Hid.
  { rewrite list_insert_id by done. by destruct w1. }
  destruct a as [p | c' p | c' | i r | i | c' | c' v]; simpl in Hs.
  - done.
  - destruct Hs as (_ & Hal & _). congruence.
  - destruct Hs as (_ & Hal & _). congruence.
  - destruct Hs as (t & _ & _ & _ & ->). unfold on_load. by rewrite Ha.
  - destruct Hs as (t & _ & _ & _ & ->). unfold on_error. cbn [fst snd].
    by apply (silent_log cid F D U R w1 c).
  - destruct Hs as (_ & ->). unfold getJwt. cbn [fst snd].
    destruct HI as (c0 & _ & _ & HF & HD & HU & HR).
    exists (set_resolveJwtRef (resolveJwtRef c ++ [next_promise (page w1)]) c).
    cbn [comps page]. unfold log, alloc_promise. cbn [calls]. split_calls.
    cbn. rewrite !app_nil_r.
    rewrite list_lookup_insert_eq by (by eapply lookup_lt_Some).
    by repeat split.
  - destruct Hs as (_ & ->). unfold onVarsChanged_closure.
    destruct (onVarsChangedRef c); [|done]. cbn [fst snd].
    by apply (silent_log cid F D U R w1 c).
Qed.

Lemma silent_run cid F D U R acts w :
  world_ok w -> silent cid F D U R w -> silent cid F D U R (run acts w).
Proof.
  revert w. induction acts as [|a acts IH]; intros w Hok HI; [done|].
  simpl. apply IH; [by apply step_ok|].
  apply (step_inv cid (silent cid F D U R)); [| | | done | done].
  - intros w1 w2 _ _. apply silent_others.
  - intros w1 c s _ _ H1 Hc Hs. by apply (silent_self cid F D U R a (page w) w1 c).
  - destruct HI as (c & Hc & _). by eapply lookup_lt_Some.
Qed.

(** X5. Once a component is unmounted it stays unmounted and, whatever
    happens afterwards (script events, token requests and variable changes
    of a widget that is still around, other components), it never calls the
    factory, [update], [destroy] or a promise resolver again: a script that
    loads late constructs nothing, and a token requested after the unmount
    is never delivered. *)
Theorem unmounted_component_stays_silent
    (acts : list Action) (w : World) (cid : nat) (c : Comp) :
  world_ok w ->
  comps w !! cid = Some c ->
  alive c = false ->
  let w' := run acts w in
  (exists c', comps w' !! cid = Some c' /\ alive c' = false
              /\ dashboardRef c' = None)
  /\ factory_calls_of cid (calls (page w')) = factory_calls_of cid (calls (page w))
  /\ destroy_calls_of cid (calls (page w')) = destroy_calls_of cid (calls (page w))
  /\ update_calls_of cid (calls (page w')) = update_calls_of cid (calls (page w))
  /\ resolve_calls_of cid (calls (page w')) = resolve_calls_of cid (calls (page w)).
Proof.
  intros Hok Hc Ha. cbv zeta.
  assert (silent cid (factory_calls_of cid (calls (page w)))
            (destroy_calls_of cid (calls (page w)))
            (update_calls_of cid (calls (page w)))
            (resolve_calls_of cid (calls (page w))) (run acts w))
    as (c' & Hc' & Ha' & HF & HD & HU & HR).
  { apply silent_run; [done|]. by exists c. }
  split; [|by repeat split].
  exists c'. split; [done|]. split; [done|].
  pose proof (wok_comps _ (run_ok acts w Hok)) as Hall.
  destruct (Forall_lookup_1 _ _ _ _ Hall Hc') as [Hinv _].
  by apply (inv_dead c' Hinv).
Qed.

(** ** The callback props *)

Lemma Page_eq (pg pg' : Page) :
  shaper_dashboard pg' = shaper_dashboard pg -> scripts pg' = scripts pg ->
  next_instance pg' = next_instance pg -> next_promise pg' = next_promise pg ->
  calls pg' = calls pg -> pg' = pg.
Proof. destruct pg, pg'. simpl. by intros -> -> -> -> ->. Qed.

(** A render that keeps [id], [baseUrl], [jwt] and the [vars] object runs
    none of the effects that touch the page. *)
Lemma quiet_commit p c :
  scriptLoaded c = committedScriptLoaded c ->
  Props.id p = Props.id (props c) ->
  Props.baseUrl p = Props.baseUrl (props c) ->
  Props.jwt p = Props.jwt (props c) ->
  Object_is_vars (Props.vars (props c)) (Props.vars p) = true ->
  ch_init false p c = false /\ ch_jwt false p c = false
  /\ ch_script false p c = false /\ ch_vars false p c = false.
Proof.
  intros Hs Hi Hb Hj Hv. split; [by apply ch_init_same_identity|].
  split; [unfold ch_jwt; by rewrite Hj, Object_is_ostr_refl|].
  split; [by apply ch_script_same_baseUrl|].
  unfold ch_vars. by rewrite Hv.
Qed.

(** X6. A render that changes nothing but the callback props
    ([refreshJwt], [onVarsChanged], [onLoadError]), as when the host passes
    new inline functions in every render, leaves the page as it is: no call
    is made to the factory, to the instance or to a resolver, and no script
    element is touched. The instance, the queue of waiters and the stored
    snapshot stay as they are; only the three callback refs now hold the new
    functions. *)
Theorem callback_only_render_is_silent
    (cid : nat) (c : Comp) (pg : Page) (p : ShaperDashboardProps) :
  comp_ok c -> alive c = true ->
  Props.id p = Props.id (props c) ->
  Props.baseUrl p = Props.baseUrl (props c) ->
  Props.jwt p = Props.jwt (props c) ->
  Object_is_vars (Props.vars (props c)) (Props.vars p) = true ->
  let s := render cid p c pg in
  s.2 = pg
  /\ dashboardRef s.1 = dashboardRef c
  /\ resolveJwtRef s.1 = resolveJwtRef c
  /\ varsRef s.1 = varsRef c
  /\ scriptLoaded s.1 = scriptLoaded c
  /\ refreshRef s.1 = Some (Props.refreshJwt p)
  /\ onVarsChangedRef s.1 = Props.onVarsChanged p
  /\ onLoadErrorRef s.1 = Props.onLoadError p.
Proof.
  intros Hok Hal Hi Hb Hj Hv. cbv zeta.
  pose proof (render_ok cid p c pg Hok Hal) as [Hinv' _].
  pose proof (render_props cid p c pg) as Hp.
  destruct Hok as [Hinv Hs].
  destruct (quiet_commit p c Hs Hi Hb Hj Hv) as (Ei & Ej & Es & Ev).
  assert (render cid p c pg = commit false cid p c pg) as Hr.
  { apply render_commit; [done|]. by rewrite Es. }
  split; [|split; [|split; [|split; [|split]]]].
  - rewrite Hr. apply Page_eq.
    + apply commit_shaper_dashboard.
    + rewrite commit_scripts. unfold scripts_after. by rewrite Es.
    + rewrite commit_next_instance. unfold creates. by rewrite Ei.
    + apply commit_next_promise.
    + rewrite commit_calls.
      unfold destroy_part, resolve_part, update_part, factory_part, cleans,
        vars_differ, creates.
      rewrite Ei, Ej, Ev. simpl. destruct (Props.jwt p); by rewrite app_nil_r.
  - rewrite Hr, commit_dashboardRef.
    unfold creates, dashboard_after_cleanup, cleans. by rewrite Ei.
  - rewrite Hr, commit_resolveJwtRef. by rewrite Ej.
  - rewrite Hr, commit_varsRef. unfold vars_after, vars_differ. by rewrite Ev.
  - rewrite Hr, commit_scriptLoaded. by rewrite Es.
  - rewrite (inv_refresh _ Hinv'), (inv_onVarsChanged _ Hinv'),
      (inv_onLoadError _ Hinv'). by rewrite Hp.
Qed.

Lemma render_world w cid c p :
  comps w !! cid = Some c -> alive c = true ->
  step (Render cid p) w
  = mkWorld (render cid p c (page w)).2
            (<[cid := (render cid p c (page w)).1]> (comps w)).
Proof. intros Hc Ha. simpl. unfold with_comp. by rewrite Hc, Ha. Qed.

(** X7. The [onVarsChanged] closure that the instance was given passes a
    change of variables on to the [onVarsChanged] of the latest render of
    its component, with the value it was called with, also when the
    instance was constructed under an earlier render; when the latest render
    passed none, nothing is called. No other call is made and no state
    changes. *)
Theorem vars_change_reaches_latest_callback
    (w : World) (cid : nat) (c : Comp) (p : ShaperDashboardProps)
    (v : ShaperDashboardVars) :
  world_ok w -> comps w !! cid = Some c -> alive c = true ->
  let w1 := step (Render cid p) w in
  let w2 := step (VarsChanged cid v) w1 in
  calls (page w2) =
    calls (page w1)
    ++ match Props.onVarsChanged p with
       | Some f => [CallOnVarsChanged cid f v]
       | None => []
       end
  /\ comps w2 = comps w1
  /\ scripts (page w2) = scripts (page w1).
Proof.
  intros Hok Hc Ha. cbv zeta. rewrite (render_world w cid c p Hc Ha).
  set (s := render cid p c (page w)).
  assert (comp_ok c) as Hcok by (by apply (Forall_lookup_1 _ _ _ _ (wok_comps _ Hok) Hc)).
  pose proof (render_ok cid p c (page w) Hcok Ha) as [Hinv _].
  pose proof (inv_onVarsChanged _ Hinv) as Hv.
  rewrite render_props in Hv. fold s in Hv.
  assert (<[cid := s.1]> (comps w) !! cid = Some s.1) as Hl.
  { apply list_lookup_insert_eq. by eapply lookup_lt_Some. }
  cbn [step]. unfold with_comp. cbn [comps page]. rewrite Hl.
  unfold onVarsChanged_closure. rewrite Hv.
  destruct (Props.onVarsChanged p) as [f|]; cbn [fst snd comps page calls log].
  - split; [done|]. split; [|done]. by rewrite list_insert_insert_eq.
  - rewrite app_nil_r. split; [done|]. split; [|done].
    by rewrite list_insert_insert_eq.
Qed.

(** X8. A script error is reported to the [onLoadError] of the latest
    render, not to the one of the render that attached the handler: when a
    component that waits on a loading script element is rendered again with
    the same [baseUrl] and then the element fires its error event, every
    handler of the component calls the [onLoadError] of that render (the
    default [() => { }] when it passed none) with the message for the URL of
    the element. *)
Theorem load_error_reaches_latest_callback
    (w : World) (cid i : nat) (c : Comp) (t : ScriptTag)
    (p : ShaperDashboardProps) :
  world_ok w -> comps w !! cid = Some c -> alive c = true ->
  scripts (page w) !! i = Some t -> status t = Loading -> cid ∈ waiters t ->
  Props.baseUrl p = Props.baseUrl (props c) ->
  let w1 := step (Render cid p) w in
  let w2 := step (ScriptError i) w1 in
  let handlers := length (filter (fun x => x = cid) (waiters t)) in
  0 < handlers
  /\ load_error_calls_of cid (calls (page w2)) =
       load_error_calls_of cid (calls (page w1))
       ++ replicate handlers
            (Props.onLoadError p,
             "Failed to load Shaper script from " +:+ src t).
Proof.
  intros Hok Hc Ha Ht Hst Hin Hb. cbv zeta. split.
  { assert (cid ∈ filter (fun x => x = cid) (waiters t)) as Hf
      by (by apply list_elem_of_filter).
    destruct (filter _ _); [by apply not_elem_of_nil in Hf | simpl; lia]. }
  rewrite (render_world w cid c p Hc Ha).
  set (s := render cid p c (page w)).
  assert (comp_ok c) as Hcok by (by apply (Forall_lookup_1 _ _ _ _ (wok_comps _ Hok) Hc)).
  pose proof (render_ok cid p c (page w) Hcok Ha) as [Hinv _].
  pose proof (inv_onLoadError _ Hinv) as Hv.
  rewrite render_props in Hv. fold s in Hv.
  assert (scripts s.2 = scripts (page w)) as Hsc.
  { unfold s, render. cbv zeta. rewrite flush_scripts, commit_scripts.
    unfold scripts_after. by rewrite ch_script_same_baseUrl. }
  set (w1 := mkWorld s.2 (<[cid := s.1]> (comps w))).
  assert (scripts (page w1) !! i = Some t) as Ht1.
  { unfold w1. cbn [page]. by rewrite Hsc. }
  destruct (step_ScriptError w1 i t Ht1 Hst) as (_ & _ & _ & ->).
  split_calls.
  assert (comps w1 !! cid = Some s.1) as Hl.
  { apply list_lookup_insert_eq. by eapply lookup_lt_Some. }
  destruct (error_calls_of cid (src t) (waiters t) w1 s.1 Hl) as [-> _].
  by rewrite Hv.
Qed.

(** ** A change of [id] or [baseUrl] on a live component *)



(** ** The load event and a change of [baseUrl] before it *)




(** ** A script that loads without defining the factory *)

Lemma lwi_others cid b d F w1 w2 :
  loaded_without_instance cid b d F w1 -> others_step cid w1 w2 ->
  loaded_without_instance cid b d F w2.
Proof.
  intros (c & Hc & Hl & Hd & Hb & Hi & HF) [Hcomp Hq _].
  destruct (calls_of_quiet _ _ _ Hq) as (Hf & _).
  exists c. rewrite Hcomp, Hf. by repeat split.
Qed.

Lemma lwi_intro cid b d F w1 c c' pg' :
  comps w1 !! cid = Some c ->
  scriptLoaded c' = true -> dashboardRef c' = None ->
  Props.baseUrl (props c') = b -> Props.id (props c') = d ->
  factory_calls_of cid (calls pg') = F ->
  loaded_without_instance cid b d F (mkWorld pg' (<[cid := c']> (comps w1))).
Proof.
  intros Hc Hl Hd Hb Hi HF. exists c'. cbn [comps page].
  rewrite list_lookup_insert_eq by (by eapply lookup_lt_Some).
  by repeat split.
Qed.

Lemma lwi_self cid b d F a pg0 w1 c s :
  same_identity cid b d a ->
  world_ok w1 ->
  loaded_without_instance cid b d F w1 ->
  comps w1 !! cid = Some c -> self_step a cid pg0 c (page w1) s ->
  loaded_without_instance cid b d F (mkWorld s.2 (<[cid := s.1]> (comps w1))).
Proof.
  intros Hk Hok (c0 & Hc0 & Hl & Hd & Hb & Hi & HF) Hc Hs.
  rewrite Hc in Hc0. apply (inj Some) in Hc0. subst c0.
  assert (comp_ok c) as [Hinv Hset]
    by (by apply (Forall_lookup_1 _ _ _ _ (wok_comps _ Hok) Hc)).
  destruct a as [p | c' p | c' | i r | i | c' | c' v]; simpl in Hs.
  - done.
  - destruct Hs as (-> & Hal & ->). destruct (Hk eq_refl) as [Hpb Hpi].
    assert (ch_init false p c = false) as Ei
      by (apply ch_init_same_identity; congruence).
    assert (ch_script false p c = false) as Es
      by (apply ch_script_same_baseUrl; congruence).
    assert (render cid p c (page w1) = commit false cid p c (page w1)) as ->.
    { apply render_commit; [done|]. by rewrite Es. }
    apply (lwi_intro cid b d F w1 c); [done | | | | |].
    + by rewrite commit_scriptLoaded, Es.
    + rewrite commit_dashboardRef.
      unfold creates, dashboard_after_cleanup, cleans. by rewrite Ei.
    + by rewrite commit_props.
    + by rewrite commit_props.
    + rewrite commit_factory_calls. unfold creates. rewrite Ei. simpl.
      by rewrite app_nil_r.
  - destruct Hs as (-> & Hal & ->).
    apply (lwi_intro cid b d F w1 c); [done | | | | |];
      unfold unmount, when; destruct (initCleanup c); cbn [fst snd];
      by rewrite ?(cleanup_init_none cid c _ Hd).
  - destruct Hs as (t & _ & _ & _ & ->). unfold on_load.
    assert (flush cid (setScriptLoaded true c) (page w1)
            = (setScriptLoaded true c, page w1)) as Hfl.
    { unfold flush. cbn [scriptLoaded committedScriptLoaded setScriptLoaded].
      by rewrite <- Hset, Hl, bool_decide_eq_true_2. }
    destruct (alive c).
    + rewrite Hfl. by apply (lwi_intro cid b d F w1 c).
    + by apply (lwi_intro cid b d F w1 c).
  - destruct Hs as (t & _ & _ & _ & ->). unfold on_error. cbn [fst snd].
    apply (lwi_intro cid b d F w1 c); try done.
    unfold log. cbn [calls]. split_calls. cbn. by rewrite app_nil_r.
  - destruct Hs as (_ & ->). unfold getJwt. cbn [fst snd].
    apply (lwi_intro cid b d F w1 c); try done.
    unfold log, alloc_promise. cbn [calls]. split_calls. cbn.
    by rewrite app_nil_r.
  - destruct Hs as (_ & ->). unfold onVarsChanged_closure.
    destruct (onVarsChangedRef c); cbn [fst snd].
    + apply (lwi_intro cid b d F w1 c); try done.
      unfold log. cbn [calls]. split_calls. cbn. by rewrite app_nil_r.
    + by apply (lwi_intro cid b d F w1 c).
Qed.

Lemma lwi_run cid b d F acts w :
  Forall (same_identity cid b d) acts ->
  world_ok w -> loaded_without_instance cid b d F w ->
  loaded_without_instance cid b d F (run acts w).
Proof.
  intros Hk. revert w. induction Hk as [|a acts Ha _ IH]; intros w Hok HI; [done|].
  simpl. apply IH; [by apply step_ok|].
  apply (step_inv cid (loaded_without_instance cid b d F)); [| | | done | done].
  - intros w1 w2 _ _. apply lwi_others.
  - intros w1 c s Hok1 _ H1 Hc Hs.
    by apply (lwi_self cid b d F a (page w) w1 c).
  - destruct HI as (c & Hc & _). by eapply lookup_lt_Some.
Qed.

(** X11. A component whose script has loaded while it could not construct
    its instance (the script did not define [window.shaper.dashboard]) holds
    no instance and gets none, whatever happens afterwards, the definition
    of the factory by another script and renders with new [vars], [jwt] or
    callbacks included, as long as it is not rendered with another [id] or
    [baseUrl]: the initialising effect does not run again. *)
Theorem loaded_without_factory_never_constructs
    (acts : list Action) (w : World) (cid : nat) (c : Comp) :
  world_ok w ->
  comps w !! cid = Some c ->
  scriptLoaded c = true ->
  dashboardRef c = None ->
  Forall (same_identity cid (Props.baseUrl (props c)) (Props.id (props c))) acts ->
  let w' := run acts w in
  (exists c', comps w' !! cid = Some c' /\ dashboardRef c' = None)
  /\ factory_calls_of cid (calls (page w')) = factory_calls_of cid (calls (page w)).
Proof.
  intros Hok Hc Hl Hd Hk. cbv zeta.
  assert (loaded_without_instance cid (Props.baseUrl (props c)) (Props.id (props c))
            (factory_calls_of cid (calls (page w))) (run acts w))
    as (c' & Hc' & _ & Hd' & _ & _ & HF).
  { apply lwi_run; [done | done |]. by exists c. }
  split; [by exists c' | done].
Qed.

(** ** The mount *)



(** ** Handlers are never detached *)

Lemma string_length_app s t :
  String.length (s +:+ t) = String.length s + String.length t.
Proof. induction s as [|a s IH]; [done|]. rewrite string_app_cons. simpl. by rewrite IH. Qed.

Lemma string_app_inj_l s1 s2 t : s1 +:+ t = s2 +:+ t -> s1 = s2.
Proof.
  revert s2. induction s1 as [|a s1 IH]; intros [|b s2] H.
  - done.
  - apply (f_equal String.length) in H.
    rewrite string_app_nil, string_app_cons in H. simpl in H.
    rewrite string_length_app in H. lia.
  - apply (f_equal String.length) in H.
    rewrite string_app_nil, string_app_cons in H. simpl in H.
    rewrite string_length_app in H. lia.
  - rewrite !string_app_cons in H. injection H as -> H. f_equal. by apply IH.
Qed.

Lemma scriptUrl_inj p1 p2 :
  scriptUrl p1 = scriptUrl p2 -> Props.baseUrl p1 = Props.baseUrl p2.
Proof. apply string_app_inj_l. Qed.

Lemma querySelector_NoDup (ss : list ScriptTag) i t :
  NoDup (map src ss) -> ss !! i = Some t -> querySelector (src t) ss = Some i.
Proof.
  revert i. induction ss as [|t0 ss IH]; intros i Hnd Hi; [done|].
  cbn [map] in Hnd. apply NoDup_cons in Hnd as [Hn Hnd].
  cbn [querySelector]. destruct i as [|i]; simpl in Hi.
  - injection Hi as ->. by rewrite bool_decide_eq_true_2.
  - rewrite bool_decide_eq_false_2.
    + by rewrite (IH i Hnd Hi).
    + intros E. apply Hn. rewrite E. apply list_elem_of_fmap. exists t.
      split; [done|]. by eapply list_elem_of_lookup_2.
Qed.

(** The script effect of a render with another [baseUrl], on a page without
    the factory, leaves every element with another URL as it is. *)
Lemma render_other_url cid p c pg i t :
  scriptLoaded c = committedScriptLoaded c ->
  shaper_dashboard pg = false ->
  scripts pg !! i = Some t -> src t <> scriptUrl p ->
  scripts (render cid p c pg).2 !! i = Some t.
Proof.
  intros Hs Hf Ht Hne.
  rewrite render_commit by (done || by rewrite Hf, andb_false_r).
  rewrite commit_scripts. unfold scripts_after.
  destruct (_ && _); [|done].
  destruct (querySelector _ _) as [j|] eqn:E.
  - destruct (querySelector_Some _ _ _ E) as (t' & Ht' & Hu).
    rewrite (alter_add_waiter cid j t') by done.
    rewrite list_lookup_insert_ne; [done|]. intros ->. congruence.
  - by apply lookup_app_l_Some.
Qed.

(** X13. The script effect has no cleanup, so handlers accumulate. When a
    component that still waits for the factory is rendered with another
    [baseUrl] and then again with the first one while the first script
    element is still loading, both script URLs being [selector_safe], it
    attaches to that element once more; if the element then fails, the
    [onLoadError] of the latest render is called once more than the
    component had handlers on the element before: a single failure is
    reported several times. *)
Theorem returning_baseUrl_attaches_again
    (w : World) (cid i : nat) (c : Comp) (t : ScriptTag)
    (pB pA : ShaperDashboardProps) :
  world_ok w -> comps w !! cid = Some c -> alive c = true ->
  shaper_dashboard (page w) = false ->
  scripts (page w) !! i = Some t -> status t = Loading ->
  src t = scriptUrl (props c) ->
  Props.baseUrl pB <> Props.baseUrl (props c) ->
  Props.baseUrl pA = Props.baseUrl (props c) ->
  selector_safe (scriptUrl pB) = true ->
  selector_safe (scriptUrl pA) = true ->
  let w1 := run [Render cid pB; Render cid pA] w in
  let w2 := step (ScriptError i) w1 in
  let handlers := length (filter (fun x => x = cid) (waiters t)) in
  scripts (page w1) !! i = Some (add_waiter cid t)
  /\ load_error_calls_of cid (calls (page w2)) =
       load_error_calls_of cid (calls (page w1))
       ++ replicate (S handlers)
            (Props.onLoadError pA,
             "Failed to load Shaper script from " +:+ src t).
Proof.
  intros Hok Hc Ha Hf Ht Hst Hsrc HB HA _ _. cbv zeta. cbn [run foldl].
  assert (comp_ok c) as Hcok
    by (by apply (Forall_lookup_1 _ _ _ _ (wok_comps _ Hok) Hc)).
  pose proof (step_ok (Render cid pB) w Hok) as Hok1.
  rewrite (render_world w cid c pB Hc Ha) in *.
  set (s1 := render cid pB c (page w)) in *.
  set (wB := mkWorld s1.2 (<[cid := s1.1]> (comps w))) in *.
  assert (comps wB !! cid = Some s1.1) as Hc1.
  { apply list_lookup_insert_eq. by eapply lookup_lt_Some. }
  pose proof (render_ok cid pB c (page w) Hcok Ha) as Hcok1. fold s1 in Hcok1.
  assert (alive s1.1 = true) as Ha1 by (unfold s1; by rewrite render_alive).
  assert (props s1.1 = pB) as Hp1 by apply render_props.
  assert (shaper_dashboard (page wB) = false) as Hf1.
  { cbn [page wB]. unfold s1, render. cbv zeta.
    by rewrite flush_shaper_dashboard, commit_shaper_dashboard. }
  assert (scripts (page wB) !! i = Some t) as Ht1.
  { apply render_other_url; [by destruct Hcok | done | done |].
    rewrite Hsrc. intros E%scriptUrl_inj. congruence. }
  rewrite (render_world wB cid s1.1 pA Hc1 Ha1).
  set (s2 := render cid pA s1.1 (page wB)).
  assert (scripts s2.2 !! i = Some (add_waiter cid t)) as Ht2.
  { unfold s2. rewrite render_commit;
      [| by destruct Hcok1 | by rewrite Hf1, andb_false_r].
    rewrite commit_scripts. unfold scripts_after.
    assert (ch_script false pA s1.1 = true) as ->.
    { unfold ch_script, Object_is_str. simpl.
      rewrite bool_decide_eq_false_2; [done|]. rewrite Hp1. congruence. }
    rewrite Hf1. cbn [andb negb].
    assert (scriptUrl pA = src t) as ->
      by (rewrite Hsrc; unfold scriptUrl; by rewrite HA).
    rewrite (querySelector_NoDup _ i t (wok_srcs _ Hok1) Ht1).
    rewrite (alter_add_waiter cid i t) by done.
    apply list_lookup_insert_eq. by eapply lookup_lt_Some. }
  split; [done|].
  set (w1 := mkWorld s2.2 (<[cid := s2.1]> (comps wB))).
  assert (comps w1 !! cid = Some s2.1) as Hc2.
  { apply list_lookup_insert_eq. by eapply lookup_lt_Some. }
  pose proof (render_ok cid pA s1.1 (page wB) Hcok1 Ha1) as [Hinv2 _].
  pose proof (inv_onLoadError _ Hinv2) as Hv.
  rewrite render_props in Hv. fold s2 in Hv.
  destruct (step_ScriptError w1 i (add_waiter cid t) Ht2 Hst) as (_ & _ & _ & ->).
  split_calls.
  destruct (error_calls_of cid (src (add_waiter cid t))
              (waiters (add_waiter cid t)) w1 s2.1 Hc2) as [-> _].
  cbn [src waiters add_waiter]. rewrite filter_app, length_app.
  rewrite (filter_cons_True (fun x => x = cid) cid []) by done.
  cbn [filter length]. rewrite Hv, Nat.add_1_r. done.
Qed.

(** ** The further theorems at the example runs *)

Lemma unmounting_run_comp :
  comps (run unmounting_run initial_world) !! 0 = Some unmounted_comp.
Proof. by vm_compute. Qed.

Lemma unmounted_comp_dead : alive unmounted_comp = false.
Proof. by vm_compute. Qed.

Lemma token_run_comp : comps (run token_run initial_world) !! 0 = Some token_comp.
Proof. by vm_compute. Qed.

Lemma vars_run_comp : comps (run vars_run initial_world) !! 0 = Some vars_comp.
Proof. by vm_compute. Qed.

Lemma factoryless_world_ok : world_ok factoryless_world.
Proof. apply run_ok, initial_world_ok. Qed.

Lemma factoryless_world_comp : comps factoryless_world !! 0 = Some factoryless_comp.
Proof. by vm_compute. Qed.

Lemma factoryless_comp_loaded : scriptLoaded factoryless_comp = true.
Proof. by vm_compute. Qed.

Lemma factoryless_comp_no_instance : dashboardRef factoryless_comp = None.
Proof. by vm_compute. Qed.

Lemma late_factory_run_keeps :
  Forall (same_identity 0 (Props.baseUrl (props factoryless_comp))
                        (Props.id (props factoryless_comp)))
         late_factory_run.
Proof.
  change (props factoryless_comp) with (props_with None vars_x0).
  repeat apply Forall_cons_2; try apply Forall_nil_2; by cbn.
Qed.


Lemma waiting_world_no_factory : shaper_dashboard (page waiting_world) = false.
Proof. by vm_compute. Qed.

Lemma waiting_comp_alive : alive waiting_comp = true.
Proof. by vm_compute. Qed.

Lemma live_comp_props : props live_comp = props_with None vars_x0.
Proof. by vm_compute. Qed.

Lemma waiting_comp_props : props waiting_comp = props_with None vars_x0.
Proof. by vm_compute. Qed.

Lemma other_url_safe : selector_safe "http://other/embed/shaper.js" = true.
Proof. by vm_compute. Qed.

Lemma first_url_safe : selector_safe "http://h/embed/shaper.js" = true.
Proof. by vm_compute. Qed.

(** X1 at a run that constructs two instances and unmounts. *)
Lemma instance_calls_follow_protocol_witness :
  comps (run unmounting_run initial_world) !! 0 = Some unmounted_comp
  /\ instance_protocol 0 None (calls (page (run unmounting_run initial_world)))
     = Some (dashboardRef unmounted_comp).
Proof.
  split; [exact unmounting_run_comp|].
  exact (instance_calls_follow_protocol unmounting_run 0 unmounted_comp
           unmounting_run_comp).
Defined.

(** X2 at a run with three requests, two of them answered. *)
Lemma tokens_are_delivered_in_request_order_witness :
  comps (run token_run initial_world) !! 0 = Some token_comp
  /\ let pg := page (run token_run initial_world) in
     let resolved := map fst (resolve_calls_of 0 (calls pg)) in
     increasing (resolved ++ resolveJwtRef token_comp) = true
     /\ NoDup (resolved ++ resolveJwtRef token_comp)
     /\ length resolved + length (resolveJwtRef token_comp)
        = length (refresh_calls_of 0 (calls pg)).
Proof.
  split; [exact token_run_comp|].
  exact (tokens_are_delivered_in_request_order token_run 0 token_comp
           token_run_comp).
Defined.

Lemma vars_run_immutable : objects_immutable vars_run.
Proof.
  intros x y Hx Hy Ha. vm_compute in Hx, Hy.
  repeat (apply elem_of_cons in Hx as [->|Hx]);
    repeat (apply elem_of_cons in Hy as [->|Hy]);
    try (by apply elem_of_nil in Hx); try (by apply elem_of_nil in Hy);
    try reflexivity; by vm_compute in Ha.
Qed.

(** X4 at a run in which the variables change, stay and change back. *)
Lemma widget_is_told_each_change_once_witness :
  objects_immutable vars_run
  /\ comps (run vars_run initial_world) !! 0 = Some vars_comp
  /\ let sent := sent_vars 0 (calls (page (run vars_run initial_world))) in
     no_repeat sent
     /\ (forall i, dashboardRef vars_comp = Some i ->
           last sent = Some (i, varsRef vars_comp))
     /\ varsJsonRef vars_comp = JSON.stringify (varsRef vars_comp).
Proof.
  split; [exact vars_run_immutable|]. split; [exact vars_run_comp|].
  exact (widget_is_told_each_change_once vars_run 0 vars_comp vars_run_immutable
           vars_run_comp).
Defined.

(** X5 at the unmounted component of the example run. *)
Lemma unmounted_component_stays_silent_witness :
  alive unmounted_comp = false
  /\ let w := run unmounting_run initial_world in
     let w' := run after_unmount_run w in
     factory_calls_of 0 (calls (page w')) = factory_calls_of 0 (calls (page w))
     /\ destroy_calls_of 0 (calls (page w')) = destroy_calls_of 0 (calls (page w))
     /\ update_calls_of 0 (calls (page w')) = update_calls_of 0 (calls (page w))
     /\ resolve_calls_of 0 (calls (page w')) = resolve_calls_of 0 (calls (page w)).
Proof.
  split; [exact unmounted_comp_dead|].
  exact (proj2 (unmounted_component_stays_silent after_unmount_run
                  (run unmounting_run initial_world) 0 unmounted_comp
                  (run_ok unmounting_run initial_world initial_world_ok)
                  unmounting_run_comp unmounted_comp_dead)).
Defined.

(** X6 at the live component, rendered with new callbacks only. *)
Lemma callback_only_render_is_silent_witness :
  Props.refreshJwt props_with_callbacks <> Props.refreshJwt (props live_comp)
  /\ let s := render 0 props_with_callbacks live_comp (page live_world) in
     s.2 = page live_world
     /\ dashboardRef s.1 = dashboardRef live_comp
     /\ refreshRef s.1 = Some 8
     /\ onVarsChangedRef s.1 = Some 5
     /\ onLoadErrorRef s.1 = Some 11.
Proof.
  split; [rewrite live_comp_props; discriminate|].
  assert (Props.id props_with_callbacks = Props.id (props live_comp)) as Hi
    by (by rewrite live_comp_props).
  assert (Props.baseUrl props_with_callbacks = Props.baseUrl (props live_comp))
    as Hb by (by rewrite live_comp_props).
  assert (Props.jwt props_with_callbacks = Props.jwt (props live_comp)) as Hj
    by (by rewrite live_comp_props).
  assert (Object_is_vars (Props.vars (props live_comp))
            (Props.vars props_with_callbacks) = true) as Hv
    by (by rewrite live_comp_props).
  pose proof (callback_only_render_is_silent 0 live_comp (page live_world)
                props_with_callbacks live_comp_ok live_comp_alive Hi Hb Hj Hv)
    as H.
  cbv zeta in H. destruct H as (H1 & H2 & _ & _ & _ & H3 & H4 & H5).
  cbv zeta. split; [exact H1|]. split; [exact H2|]. split; [exact H3|].
  split; [exact H4 | exact H5].
Defined.

(** X7 at the live component: a render brings a callback, then the widget
    reports a change. *)
Lemma vars_change_reaches_latest_callback_witness :
  Props.onVarsChanged (props live_comp) = None
  /\ let w1 := step (Render 0 props_with_callbacks) live_world in
     let w2 := step (VarsChanged 0 vars_ab) w1 in
     calls (page w2) = calls (page w1) ++ [CallOnVarsChanged 0 5 vars_ab]
     /\ comps w2 = comps w1.
Proof.
  split; [by rewrite live_comp_props|].
  pose proof (vars_change_reaches_latest_callback live_world 0 live_comp
                props_with_callbacks vars_ab live_world_ok live_world_comp
                live_comp_alive) as H.
  cbv zeta in H. destruct H as (H1 & H2 & _). cbv zeta. by split.
Defined.

(** X8 at the waiting component: a render brings another [onLoadError],
    then the script fails. *)
Lemma load_error_reaches_latest_callback_witness :
  Props.onLoadError (props waiting_comp) = Some 9
  /\ let w1 := step (Render 0 props_with_callbacks) waiting_world in
     let w2 := step (ScriptError 0) w1 in
     load_error_calls_of 0 (calls (page w2)) =
       load_error_calls_of 0 (calls (page w1))
       ++ replicate (length (filter (fun x => x = 0) (waiters waiting_tag)))
            (Some 11, "Failed to load Shaper script from " +:+ src waiting_tag).
Proof.
  split; [by rewrite waiting_comp_props|].
  pose proof (load_error_reaches_latest_callback waiting_world 0 0 waiting_comp
                waiting_tag props_with_callbacks waiting_world_ok
                waiting_world_comp waiting_comp_alive waiting_world_tag
                waiting_tag_loading waiting_tag_waiter) as H.
  rewrite waiting_comp_props in H. specialize (H eq_refl). cbv zeta in H.
  exact (proj2 H).
Defined.



(** X11 at a component whose script did not define the factory: another
    component's script defines it later. *)
Lemma loaded_without_factory_never_constructs_witness :
  scriptLoaded factoryless_comp = true
  /\ dashboardRef factoryless_comp = None
  /\ let w' := run late_factory_run factoryless_world in
     (exists c', comps w' !! 0 = Some c' /\ dashboardRef c' = None)
     /\ factory_calls_of 0 (calls (page w'))
        = factory_calls_of 0 (calls (page factoryless_world)).
Proof.
  split; [exact factoryless_comp_loaded|].
  split; [exact factoryless_comp_no_instance|].
  exact (loaded_without_factory_never_constructs late_factory_run
           factoryless_world 0 factoryless_comp factoryless_world_ok
           factoryless_world_comp factoryless_comp_loaded
           factoryless_comp_no_instance late_factory_run_keeps).
Defined.

(** X13 at the waiting component: away to another [baseUrl] and back. *)
Lemma returning_baseUrl_attaches_again_witness :
  status waiting_tag = Loading
  /\ selector_safe (scriptUrl props_other_base) = true
  /\ selector_safe (scriptUrl (props_with None vars_ab)) = true
  /\ let w1 := run [Render 0 props_other_base; Render 0 (props_with None vars_ab)]
                   waiting_world in
     let w2 := step (ScriptError 0) w1 in
     scripts (page w1) !! 0 = Some (add_waiter 0 waiting_tag)
     /\ load_error_calls_of 0 (calls (page w2)) =
          load_error_calls_of 0 (calls (page w1))
          ++ replicate (S (length (filter (fun x => x = 0) (waiters waiting_tag))))
               (Some 9, "Failed to load Shaper script from " +:+ src waiting_tag).
Proof.
  split; [exact waiting_tag_loading|]. split; [exact other_url_safe|].
  split; [exact first_url_safe|].
  pose proof (returning_baseUrl_attaches_again waiting_world 0 0 waiting_comp
                waiting_tag props_other_base (props_with None vars_ab)
                waiting_world_ok waiting_world_comp waiting_comp_alive
                waiting_world_no_factory waiting_world_tag waiting_tag_loading
                waiting_tag_src) as H.
  rewrite waiting_comp_props in H.
  specialize (H ltac:(discriminate) eq_refl other_url_safe first_url_safe).
  cbv zeta in H. exact H.
Defined.

(** * The version that shows load errors itself *)

(** A commit with the props and the state of the last one does nothing to
    the page and to the instance. *)
Lemma commit_again cid c pg :
  scriptLoaded c = committedScriptLoaded c ->
  let s := commit false cid (props c) c pg in
  s.2 = pg
  /\ dashboardRef s.1 = dashboardRef c
  /\ initCleanup s.1 = initCleanup c
  /\ scriptLoaded s.1 = scriptLoaded c
  /\ committedScriptLoaded s.1 = scriptLoaded c
  /\ varsJsonRef s.1 = varsJsonRef c
  /\ varsRef s.1 = varsRef c
  /\ props s.1 = props c
  /\ alive s.1 = alive c.
Proof.
  intros Hs. cbv zeta.
  assert (ch_init false (props c) c = false) as Ei
    by (rewrite ch_init_same; by rewrite bool_decide_eq_true_2).
  pose proof (ch_jwt_same c) as Ej. pose proof (ch_script_same c) as Es.
  pose proof (ch_vars_same c) as Ev.
  split; [|split; [|split; [|split; [|split; [|split; [|split; [|split]]]]]]].
  - apply Page_eq.
    + apply commit_shaper_dashboard.
    + rewrite commit_scripts. unfold scripts_after. by rewrite Es.
    + rewrite commit_next_instance. unfold creates. by rewrite Ei.
    + apply commit_next_promise.
    + rewrite commit_calls.
      unfold destroy_part, resolve_part, update_part, factory_part, cleans,
        vars_differ, creates.
      rewrite Ei, Ej, Ev. simpl. destruct (Props.jwt (props c)); by rewrite app_nil_r.
  - rewrite commit_dashboardRef.
    unfold creates, dashboard_after_cleanup, cleans. by rewrite Ei.
  - by rewrite commit_initCleanup, Ei.
  - by rewrite commit_scriptLoaded, Es.
  - by rewrite commit_committedScriptLoaded.
  - rewrite commit_varsJsonRef. unfold vars_differ. by rewrite Ev.
  - rewrite commit_varsRef. unfold vars_after, vars_differ. by rewrite Ev.
  - by rewrite commit_props.
  - by rewrite commit_alive.
Qed.

Lemma creates_needs_container first p c pg :
  containerRef c = false -> creates first p c pg = false.
Proof. intros H. unfold creates. by rewrite H, !andb_false_r. Qed.

Lemma load_error_message_not_empty url : load_error_message url <> "".
Proof. done. Qed.

(** The component has failed: an error message is in its state and the
    container is not rendered. *)
Lemma failed_view c m :
  ErrorDiv.scriptError c = Some m -> m <> "" ->
  ErrorDiv.view c = ErrorDiv.ViewError ("Error: " +:+ m)
  /\ containerRef (ErrorDiv.attach c) = false.
Proof.
  intros H Hm. unfold ErrorDiv.attach, ErrorDiv.view. rewrite H.
  by rewrite bool_decide_eq_false_2.
Qed.

Lemma failed_recommit first cid p c pg m :
  ErrorDiv.scriptError c = Some m -> m <> "" ->
  let s := ErrorDiv.recommit first cid p c pg in
  ErrorDiv.scriptError s.1 = Some m
  /\ containerRef (ErrorDiv.core s.1) = false
  /\ factory_calls_of cid (calls s.2) = factory_calls_of cid (calls pg).
Proof.
  intros H Hm. destruct (failed_view c m H Hm) as [_ Hc].
  unfold ErrorDiv.recommit. cbn [fst snd ErrorDiv.scriptError ErrorDiv.core].
  split; [done|]. split; [by rewrite commit_containerRef|].
  rewrite commit_factory_calls, creates_needs_container by done.
  by rewrite app_nil_r.
Qed.

Lemma failed_settle cid c pg m :
  ErrorDiv.scriptError c = Some m -> m <> "" ->
  containerRef (ErrorDiv.core c) = false ->
  let s := ErrorDiv.settle cid c pg in
  ErrorDiv.scriptError s.1 = Some m
  /\ containerRef (ErrorDiv.core s.1) = false
  /\ factory_calls_of cid (calls s.2) = factory_calls_of cid (calls pg).
Proof.
  intros H Hm Hc. unfold ErrorDiv.settle. case_bool_decide; [done|].
  by apply failed_recommit.
Qed.

Lemma failed_handle cid s e :
  (exists m, ErrorDiv.scriptError s.1 = Some m /\ m <> "") ->
  containerRef (ErrorDiv.core s.1) = false ->
  let s' := ErrorDiv.handle cid s e in
  (exists m, ErrorDiv.scriptError s'.1 = Some m /\ m <> "")
  /\ containerRef (ErrorDiv.core s'.1) = false
  /\ factory_calls_of cid (calls s'.2) = factory_calls_of cid (calls s.2).
Proof.
  intros (m & H & Hm) Hc. destruct s as [c pg]. cbn [fst snd] in *.
  destruct e as [p | | r | url | | v |]; cbn [ErrorDiv.handle fst snd].
  - destruct (alive (ErrorDiv.core c)); [|by eauto].
    unfold ErrorDiv.rerender. cbv zeta.
    destruct (failed_recommit false cid (ErrorDiv.lift p) c pg m H Hm)
      as (H1 & H2 & H3). cbv zeta in *.
    destruct (failed_settle cid _ (ErrorDiv.recommit false cid (ErrorDiv.lift p) c pg).2
                m H1 Hm H2) as (H4 & H5 & H6). cbv zeta in *.
    split; [by eauto|]. split; [done|]. by rewrite H6.
  - destruct (alive (ErrorDiv.core c)); [|by eauto].
    unfold ErrorDiv.teardown. cbn [fst snd ErrorDiv.scriptError ErrorDiv.core].
    destruct (unmount_calls cid (ErrorDiv.core c) pg) as [Hcalls _].
    split; [by eauto|]. split.
    + unfold unmount. done.
    + rewrite Hcalls. split_calls.
      by repeat case_match; cbn; rewrite ?app_nil_r.
  - unfold ErrorDiv.load_handler.
    destruct (alive (ErrorDiv.core c)); [|by eauto].
    destruct (failed_settle cid
                (ErrorDiv.mk (setScriptLoaded true (ErrorDiv.core c))
                             (ErrorDiv.scriptError c))
                (set_shaper_dashboard (shaper_dashboard pg || r) pg) m H Hm Hc)
      as (H4 & H5 & H6). cbv zeta in *.
    split; [by eauto|]. split; [done|]. by rewrite H6.
  - unfold ErrorDiv.error_handler.
    destruct (alive (ErrorDiv.core c)); [|by eauto]. cbv zeta.
    set (c' := ErrorDiv.mk (ErrorDiv.core c) (Some (load_error_message url))).
    pose proof (load_error_message_not_empty url) as Hm'.
    destruct (failed_recommit false cid (props (ErrorDiv.core c)) c' pg
                (load_error_message url) eq_refl Hm') as (H1 & H2 & H3).
    cbv zeta in *.
    destruct (failed_settle cid _
                (ErrorDiv.recommit false cid (props (ErrorDiv.core c)) c' pg).2
                _ H1 Hm' H2) as (H4 & H5 & H6). cbv zeta in *.
    split; [by eauto|]. split; [done|]. by rewrite H6.
  - unfold ErrorDiv.token_request, getJwt, log, alloc_promise.
    cbn [fst snd ErrorDiv.scriptError ErrorDiv.core calls].
    split; [by eauto|]. split; [done|]. split_calls. cbn. by rewrite app_nil_r.
  - unfold ErrorDiv.vars_changed, onVarsChanged_closure.
    destruct (onVarsChangedRef (ErrorDiv.core c));
      cbn [fst snd ErrorDiv.scriptError ErrorDiv.core calls log];
      (split; [by eauto|]); (split; [done|]); [|done].
    split_calls. cbn. by rewrite app_nil_r.
  - by eauto.
Qed.

Lemma failed_handle_all cid es s :
  (exists m, ErrorDiv.scriptError s.1 = Some m /\ m <> "") ->
  containerRef (ErrorDiv.core s.1) = false ->
  let s' := ErrorDiv.handle_all cid es s in
  (exists m, ErrorDiv.scriptError s'.1 = Some m /\ m <> "")
  /\ containerRef (ErrorDiv.core s'.1) = false
  /\ factory_calls_of cid (calls s'.2) = factory_calls_of cid (calls s.2).
Proof.
  revert s. induction es as [|e es IH]; intros s H Hc; [done|].
  cbn [ErrorDiv.handle_all foldl].
  destruct (failed_handle cid s e H Hc) as (H1 & H2 & H3). cbv zeta in *.
  destruct (IH (ErrorDiv.handle cid s e) H1 H2) as (H4 & H5 & H6).
  cbv zeta in *. unfold ErrorDiv.handle_all in *.
  split; [done|]. split; [done|]. by rewrite H6.
Qed.

(** X14. In the version that shows load errors itself: when the error
    handler of a mounted component runs, the component renders the error
    element with the text "Error: Failed to load Shaper script from "
    followed by the URL, in place of the container. From then on, whatever
    happens (renders with any props, another [baseUrl] included, load events,
    the factory being defined, token requests), it keeps rendering an error
    element, the container stays detached and the factory is never called
    again: [scriptError] is never reset. *)
Theorem load_error_is_shown_for_good
    (cid : nat) (c : ErrorDiv.t) (pg : Page) (url : string)
    (es : list ErrorDiv.Event) :
  alive (ErrorDiv.core c) = true ->
  let s0 := ErrorDiv.error_handler cid url c pg in
  let s := ErrorDiv.handle_all cid es s0 in
  ErrorDiv.view s0.1
    = ErrorDiv.ViewError ("Error: Failed to load Shaper script from " +:+ url)
  /\ (exists text, ErrorDiv.view s.1 = ErrorDiv.ViewError text)
  /\ containerRef (ErrorDiv.core s.1) = false
  /\ factory_calls_of cid (calls s.2) = factory_calls_of cid (calls pg).
Proof.
  intros Hal. cbv zeta. unfold ErrorDiv.error_handler. rewrite Hal. cbv zeta.
  set (c' := ErrorDiv.mk (ErrorDiv.core c) (Some (load_error_message url))).
  pose proof (load_error_message_not_empty url) as Hm.
  destruct (failed_recommit false cid (props (ErrorDiv.core c)) c' pg
              (load_error_message url) eq_refl Hm) as (H1 & H2 & H3).
  cbv zeta in *.
  destruct (failed_settle cid _
              (ErrorDiv.recommit false cid (props (ErrorDiv.core c)) c' pg).2
              _ H1 Hm H2) as (H4 & H5 & H6). cbv zeta in *.
  set (s0 := ErrorDiv.settle cid _ _) in *.
  destruct (failed_handle_all cid es s0 (ex_intro _ _ (conj H4 Hm)) H5)
    as ((m & H7 & Hm') & H8 & H9). cbv zeta in *.
  split; [apply (failed_view s0.1 _ H4 Hm)|].
  split; [eexists; apply (failed_view _ m H7 Hm')|].
  split; [done|]. by rewrite H9, H6.
Qed.

(** X15. In the version that shows load errors itself, a load error that
    reaches a component holding an instance does not destroy it: the error
    handler makes no call and changes nothing on the page, the instance
    stays in [dashboardRef] while its container is no longer rendered. The
    instance is still sent [update] when [vars] change, and [destroy] is
    called on it when the component is unmounted. *)
Theorem load_error_leaves_the_instance_alone
    (cid : nat) (c : ErrorDiv.t) (pg : Page) (url : string) (i : nat) :
  comp_ok (ErrorDiv.core c) ->
  alive (ErrorDiv.core c) = true ->
  dashboardRef (ErrorDiv.core c) = Some i ->
  let s0 := ErrorDiv.error_handler cid url c pg in
  s0.2 = pg
  /\ dashboardRef (ErrorDiv.core s0.1) = Some i
  /\ containerRef (ErrorDiv.core s0.1) = false
  /\ calls (ErrorDiv.teardown cid s0.1 s0.2).2 = calls pg ++ [CallDestroy cid i]
  /\ (forall p,
        ErrorDiv.id p = Props.id (props (ErrorDiv.core c)) ->
        ErrorDiv.baseUrl p = Props.baseUrl (props (ErrorDiv.core c)) ->
        Object_is_vars (Props.vars (props (ErrorDiv.core c))) (ErrorDiv.vars p) = false ->
        JSON.stringify (ErrorDiv.vars p) <> varsJsonRef (ErrorDiv.core c) ->
        update_calls_of cid (calls (ErrorDiv.rerender cid p s0.1 s0.2).2)
        = update_calls_of cid (calls pg) ++ [(i, ErrorDiv.vars p)]).
Proof.
  intros [Hinv Hs] Hal Hd. cbv zeta.
  unfold ErrorDiv.error_handler. rewrite Hal. cbv zeta.
  set (c' := ErrorDiv.mk (ErrorDiv.core c) (Some (load_error_message url))).
  pose proof (load_error_message_not_empty url) as Hm.
  destruct (failed_view c' _ eq_refl Hm) as [_ Hcont].
  assert (ErrorDiv.attach c' = set_containerRef false (ErrorDiv.core c)) as Hat.
  { unfold ErrorDiv.attach, ErrorDiv.view. cbn [ErrorDiv.scriptError c'].
    by rewrite bool_decide_eq_false_2. }
  destruct (commit_again cid (ErrorDiv.attach c') pg)
    as (Hp & Hd' & Hic & Hl & Hcl & Hvj & Hv & Hpr & Ha);
    [by rewrite Hat|]. cbv zeta in *.
  unfold ErrorDiv.recommit. cbv zeta.
  rewrite Hat in *. cbn [props set_containerRef] in *.
  set (s := commit false cid (props (ErrorDiv.core c))
              (set_containerRef false (ErrorDiv.core c)) pg) in *.
  cbn [fst snd ErrorDiv.scriptError ErrorDiv.core c'].
  cbn [dashboardRef initCleanup scriptLoaded varsJsonRef varsRef alive
       set_containerRef] in Hd', Hic, Hl, Hcl, Hvj, Hv, Ha.
  assert (ErrorDiv.settle cid (ErrorDiv.mk s.1 (Some (load_error_message url))) s.2
          = (ErrorDiv.mk s.1 (Some (load_error_message url)), s.2)) as ->.
  { unfold ErrorDiv.settle. cbn [ErrorDiv.core].
    by rewrite Hl, Hcl, bool_decide_eq_true_2. }
  cbn [fst snd ErrorDiv.core].
  assert (containerRef s.1 = false) as Hc by (unfold s; by rewrite commit_containerRef).
  split; [done|]. split; [by rewrite Hd', Hd|]. split; [done|]. split.
  - unfold ErrorDiv.teardown. cbn [fst snd ErrorDiv.core].
    destruct (unmount_calls cid s.1 s.2) as [-> _].
    rewrite Hp, Hic, Hd'. by rewrite (inv_cleanup _ Hinv), Hd.
  - intros p Hi Hb Hv' Hj.
    unfold ErrorDiv.rerender, ErrorDiv.recommit. cbv zeta.
    cbn [fst snd ErrorDiv.core ErrorDiv.scriptError].
    set (c1 := ErrorDiv.attach (ErrorDiv.mk s.1 (Some (load_error_message url)))).
    assert (c1 = set_containerRef false s.1) as Hc1.
    { unfold c1, ErrorDiv.attach, ErrorDiv.view. cbn [ErrorDiv.scriptError].
      by rewrite bool_decide_eq_false_2. }
    assert (ch_init false (ErrorDiv.lift p) c1 = false) as Ei.
    { apply ch_init_same_identity; rewrite Hc1; cbn [scriptLoaded
        committedScriptLoaded props set_containerRef ErrorDiv.lift Props.baseUrl
        Props.id]; [by rewrite Hl, Hcl | by rewrite Hpr | by rewrite Hpr]. }
    assert (ch_script false (ErrorDiv.lift p) c1 = false) as Es.
    { apply ch_script_same_baseUrl. rewrite Hc1.
      cbn [props set_containerRef ErrorDiv.lift Props.baseUrl]. by rewrite Hpr. }
    assert (vars_differ false (ErrorDiv.lift p) c1 = true) as Ev.
    { unfold vars_differ, ch_vars, Object_is_ostr. rewrite Hc1.
      cbn [props varsJsonRef set_containerRef ErrorDiv.lift Props.vars orb].
      rewrite Hpr, Hv', Hvj. cbn [negb andb].
      by rewrite bool_decide_eq_false_2. }
    assert (dashboard_after_cleanup false (ErrorDiv.lift p) c1 = Some i) as Ed.
    { unfold dashboard_after_cleanup, cleans. rewrite Ei. cbn [negb andb].
      rewrite Hc1. cbn [dashboardRef set_containerRef]. by rewrite Hd', Hd. }
    set (s1 := commit false cid (ErrorDiv.lift p) c1 s.2).
    assert (ErrorDiv.settle cid (ErrorDiv.mk s1.1 (Some (load_error_message url))) s1.2
            = (ErrorDiv.mk s1.1 (Some (load_error_message url)), s1.2)) as ->.
    { unfold ErrorDiv.settle. cbn [ErrorDiv.core]. unfold s1.
      rewrite commit_scriptLoaded, commit_committedScriptLoaded, Es.
      by rewrite bool_decide_eq_true_2. }
    cbn [fst snd]. unfold s1. rewrite commit_update_calls, Ev, Ed, Hp. done.
Qed.

(** * The version with an update effect on [[vars, onVarsChanged]] *)


Lemma load_script_defined cid url pg :
  shaper_dashboard pg = true -> load_script cid url pg = (true, pg).
Proof. intros H. unfold load_script. by rewrite H. Qed.

Lemma Object_is_fn_true a : Object_is_fn a a = true.
Proof. by apply bool_decide_eq_true. Qed.

Ltac ue_fields :=
  cbn [UpdateEffect.comp UpdateEffect.page UpdateEffect.log
       UpdateEffect.alive UpdateEffect.props UpdateEffect.committedScriptLoaded
       UpdateEffect.scriptLoaded UpdateEffect.scriptError
       UpdateEffect.containerRef UpdateEffect.dashboardRef
       UpdateEffect.getJwtResolveRef UpdateEffect.refreshRef
       UpdateEffect.initCleanup UpdateEffect.initial UpdateEffect.set_state
       UpdateEffect.shows_container fst snd].

Ltac decide_bools :=
  repeat match goal with
  | |- context [bool_decide (?a = ?a)] =>
      rewrite (bool_decide_eq_true_2 (a = a)) by reflexivity
  | |- context [bool_decide (false = true)] =>
      rewrite (bool_decide_eq_false_2 (false = true)) by discriminate
  | |- context [bool_decide (true = false)] =>
      rewrite (bool_decide_eq_false_2 (true = false)) by discriminate
  | |- context [bool_decide (is_Some (@None ?A))] =>
      rewrite (bool_decide_eq_false_2 (is_Some (@None A))) by (by intros [? ?])
  | |- context [bool_decide (is_Some (Some ?x))] =>
      rewrite (bool_decide_eq_true_2 (is_Some (Some x))) by (by eexists)
  end.

Ltac ue_bools :=
  rewrite ?Object_is_str_refl, ?Object_is_ostr_refl, ?Object_is_vars_refl,
    ?Object_is_fn_true;
  decide_bools;
  cbn [negb andb orb app map fst snd];
  rewrite ?andb_false_r, ?andb_true_r, ?orb_false_r, ?orb_true_r, ?app_nil_r.





Lemma ue_instance_calls_app l1 l2 :
  UpdateEffect.instance_calls (l1 ++ l2)
  = UpdateEffect.instance_calls l1 ++ UpdateEffect.instance_calls l2.
Proof. apply List.filter_app. Qed.

Lemma ue_instance_calls_resolves v (q : list nat) :
  UpdateEffect.instance_calls (map (fun r => UpdateEffect.Resolve r v) q) = [].
Proof. by induction q. Qed.

Lemma ue_instance_calls_jwt (j : option string) (b : bool) (q : list nat) :
  UpdateEffect.instance_calls
    match j with
    | Some v => if b then map (fun r => UpdateEffect.Resolve r v) q else []
    | None => []
    end = [].
Proof. destruct j as [v|]; [|done]. destruct b; [apply ue_instance_calls_resolves | done]. Qed.

(** X17. In the version with an update effect, on a component that holds
    an instance: a render that keeps [id] and [baseUrl] calls [update] once,
    with the [vars] and the [onVarsChanged] of the render, when [vars] is
    another object or [onVarsChanged] another function than in the render
    before, whatever their content, and calls the factory and [destroy] not
    at all; when both are the same objects nothing is forwarded. A host that
    passes an inline function or a fresh object makes every render an
    [update]. *)
Theorem every_new_object_or_callback_is_forwarded
    (cid : nat) (w : UpdateEffect.World) (p : ErrorDiv.OldProps) (i : nat) :
  let c := UpdateEffect.comp w in
  UpdateEffect.scriptLoaded c = UpdateEffect.committedScriptLoaded c ->
  UpdateEffect.dashboardRef c = Some i ->
  ErrorDiv.id p = ErrorDiv.id (UpdateEffect.props c) ->
  ErrorDiv.baseUrl p = ErrorDiv.baseUrl (UpdateEffect.props c) ->
  let w' := UpdateEffect.render cid p w in
  UpdateEffect.instance_calls (UpdateEffect.log w')
  = UpdateEffect.instance_calls (UpdateEffect.log w)
    ++ (if Object_is_vars (ErrorDiv.vars (UpdateEffect.props c)) (ErrorDiv.vars p)
           && Object_is_fn (ErrorDiv.onVarsChanged (UpdateEffect.props c))
                           (ErrorDiv.onVarsChanged p)
        then []
        else [UpdateEffect.Update i (ErrorDiv.vars p) (ErrorDiv.onVarsChanged p)])
  /\ UpdateEffect.dashboardRef (UpdateEffect.comp w') = Some i.
Proof.
  destruct w as [c pg l]. cbv zeta. ue_fields. intros Hs Hd Hi Hb.
  assert (UpdateEffect.commit false cid p (UpdateEffect.mkWorld c pg l)
          = UpdateEffect.mkWorld
              (UpdateEffect.mk (UpdateEffect.alive c) p (UpdateEffect.scriptLoaded c)
                 (UpdateEffect.scriptLoaded c) (UpdateEffect.scriptError c)
                 (UpdateEffect.shows_container (UpdateEffect.scriptError c)) (Some i)
                 (if negb (Object_is_ostr (ErrorDiv.jwt (UpdateEffect.props c))
                                          (ErrorDiv.jwt p))
                     && truthy (ErrorDiv.jwt p)
                  then [] else UpdateEffect.getJwtResolveRef c)
                 (if negb (bool_decide (ErrorDiv.refreshJwt (UpdateEffect.props c)
                                        = ErrorDiv.refreshJwt p))
                  then Some (ErrorDiv.refreshJwt p) else UpdateEffect.refreshRef c)
                 (UpdateEffect.initCleanup c))
              pg
              ((l ++ match ErrorDiv.jwt p with
                     | Some v =>
                         if negb (Object_is_ostr (ErrorDiv.jwt (UpdateEffect.props c))
                                                 (ErrorDiv.jwt p))
                            && truthy (ErrorDiv.jwt p)
                         then map (fun r => UpdateEffect.Resolve r v)
                                  (UpdateEffect.getJwtResolveRef c)
                         else []
                     | None => []
                     end)
               ++ (if negb (Object_is_vars (ErrorDiv.vars (UpdateEffect.props c))
                                           (ErrorDiv.vars p))
                      || negb (Object_is_fn
                                 (ErrorDiv.onVarsChanged (UpdateEffect.props c))
                                 (ErrorDiv.onVarsChanged p))
                   then [UpdateEffect.Update i (ErrorDiv.vars p)
                           (ErrorDiv.onVarsChanged p)]
                   else []))) as Hc.
  { unfold UpdateEffect.commit. cbv zeta. ue_fields.
    rewrite <- Hs, <- Hi, <- Hb, Hd. ue_bools. done. }
  unfold UpdateEffect.render. rewrite Hc. unfold UpdateEffect.flush. ue_fields.
  decide_bools. ue_fields. split; [|done].
  rewrite !ue_instance_calls_app, ue_instance_calls_jwt, app_nil_r.
  by destruct (Object_is_vars _ _), (Object_is_fn _ _).
Qed.

(** X18. In the version with an update effect, on a page where the factory
    is defined: a render that changes [id] or [baseUrl] of a loaded component
    that holds an instance destroys it. If the component renders its
    container, it then constructs a new instance with the new [baseUrl] and
    [id] and, the update effect coming after the initialising one, calls
    [update] on the new instance if [vars] or [onVarsChanged] is another
    object than before. If it renders a load error instead, the container is
    detached: nothing is constructed and nothing updated, and the component
    is left without instance. *)
Theorem replaced_instance_gets_the_update
    (cid : nat) (w : UpdateEffect.World) (p : ErrorDiv.OldProps) (i : nat) :
  let c := UpdateEffect.comp w in
  UpdateEffect.scriptLoaded c = true ->
  UpdateEffect.committedScriptLoaded c = true ->
  UpdateEffect.dashboardRef c = Some i ->
  UpdateEffect.initCleanup c = true ->
  shaper_dashboard (UpdateEffect.page w) = true ->
  ErrorDiv.id p <> ErrorDiv.id (UpdateEffect.props c)
  \/ ErrorDiv.baseUrl p <> ErrorDiv.baseUrl (UpdateEffect.props c) ->
  let w' := UpdateEffect.render cid p w in
  let n := next_instance (UpdateEffect.page w) in
  UpdateEffect.instance_calls (UpdateEffect.log w')
  = UpdateEffect.instance_calls (UpdateEffect.log w)
    ++ (if UpdateEffect.shows_container (UpdateEffect.scriptError c)
        then
          [UpdateEffect.Destroy i;
           UpdateEffect.Factory n (ErrorDiv.baseUrl p) (ErrorDiv.id p)]
          ++ (if Object_is_vars (ErrorDiv.vars (UpdateEffect.props c))
                                (ErrorDiv.vars p)
                 && Object_is_fn (ErrorDiv.onVarsChanged (UpdateEffect.props c))
                                 (ErrorDiv.onVarsChanged p)
              then []
              else [UpdateEffect.Update n (ErrorDiv.vars p)
                      (ErrorDiv.onVarsChanged p)])
        else [UpdateEffect.Destroy i])
  /\ UpdateEffect.dashboardRef (UpdateEffect.comp w')
     = (if UpdateEffect.shows_container (UpdateEffect.scriptError c)
        then Some n else None).
Proof.
  destruct w as [c pg l]. cbv zeta. ue_fields. intros Hl Hcl Hd Hic Hf Hch.
  assert (negb (Object_is_str (ErrorDiv.baseUrl (UpdateEffect.props c))
                              (ErrorDiv.baseUrl p))
          || negb (Object_is_str (ErrorDiv.id (UpdateEffect.props c))
                                 (ErrorDiv.id p)) = true) as Hdep.
  { unfold Object_is_str. destruct Hch as [H|H].
    - rewrite (bool_decide_eq_false_2 (ErrorDiv.id (UpdateEffect.props c)
                                       = ErrorDiv.id p)) by congruence.
      by rewrite orb_true_r.
    - by rewrite (bool_decide_eq_false_2 (ErrorDiv.baseUrl (UpdateEffect.props c)
                                          = ErrorDiv.baseUrl p)) by congruence. }
  set (ls := if negb (Object_is_str (ErrorDiv.baseUrl (UpdateEffect.props c))
                                    (ErrorDiv.baseUrl p))
             then load_script cid (ErrorDiv.baseUrl p +:+ "/embed/shaper.js") pg
             else (false, pg)).
  assert (ls.2 = pg) as Hls.
  { unfold ls. destruct (negb _); [|done]. by rewrite load_script_defined. }
  set (resolved :=
         match ErrorDiv.jwt p with
         | Some v =>
             if negb (Object_is_ostr (ErrorDiv.jwt (UpdateEffect.props c))
                                     (ErrorDiv.jwt p))
                && truthy (ErrorDiv.jwt p)
             then map (fun r => UpdateEffect.Resolve r v)
                      (UpdateEffect.getJwtResolveRef c)
             else []
         | None => []
         end).
  assert (UpdateEffect.instance_calls resolved = []) as Hres
    by apply ue_instance_calls_jwt.
  destruct (UpdateEffect.shows_container (UpdateEffect.scriptError c)) eqn:Hsc.
  - assert (exists c' pg',
              UpdateEffect.commit false cid p (UpdateEffect.mkWorld c pg l)
              = UpdateEffect.mkWorld c' pg'
                  (((l ++ [UpdateEffect.Destroy i]) ++ resolved
                    ++ [UpdateEffect.Factory (next_instance pg)
                          (ErrorDiv.baseUrl p) (ErrorDiv.id p)])
                   ++ (if negb (Object_is_vars (ErrorDiv.vars (UpdateEffect.props c))
                                               (ErrorDiv.vars p))
                          || negb (Object_is_fn
                                     (ErrorDiv.onVarsChanged (UpdateEffect.props c))
                                     (ErrorDiv.onVarsChanged p))
                       then [UpdateEffect.Update (next_instance pg) (ErrorDiv.vars p)
                               (ErrorDiv.onVarsChanged p)]
                       else []))
              /\ UpdateEffect.dashboardRef c' = Some (next_instance pg)
              /\ UpdateEffect.scriptLoaded c' = true
              /\ UpdateEffect.committedScriptLoaded c' = true)
      as (c' & pg' & Hc & Hd' & Hl' & Hcl').
    { eexists _, _. unfold UpdateEffect.commit. cbv zeta.
      cbn [UpdateEffect.comp UpdateEffect.page UpdateEffect.log].
      cbn [orb negb andb]. fold ls. fold resolved.
      rewrite Hls, Hl, Hcl, Hd, Hic, Hf, Hsc.
      decide_bools.
      cbn [negb andb orb fst snd]. rewrite Hdep. cbn [negb andb orb].
      decide_bools. cbn [negb andb orb]. rewrite orb_true_r, <- !app_assoc.
      split; [reflexivity | by ue_fields]. }
    unfold UpdateEffect.render. rewrite Hc. unfold UpdateEffect.flush. ue_fields.
    rewrite Hl', Hcl'. decide_bools. ue_fields. split; [|done].
    rewrite !ue_instance_calls_app, Hres.
    cbn [UpdateEffect.instance_calls List.filter app].
    rewrite <- !app_assoc. cbn [app].
    by destruct (Object_is_vars _ _), (Object_is_fn _ _).
  - assert (exists c' pg',
              UpdateEffect.commit false cid p (UpdateEffect.mkWorld c pg l)
              = UpdateEffect.mkWorld c' pg'
                  ((l ++ [UpdateEffect.Destroy i]) ++ resolved)
              /\ UpdateEffect.dashboardRef c' = None
              /\ UpdateEffect.scriptLoaded c' = true
              /\ UpdateEffect.committedScriptLoaded c' = true)
      as (c' & pg' & Hc & Hd' & Hl' & Hcl').
    { eexists _, _. unfold UpdateEffect.commit. cbv zeta.
      cbn [UpdateEffect.comp UpdateEffect.page UpdateEffect.log].
      cbn [orb negb andb]. fold ls. fold resolved.
      rewrite Hls, Hl, Hcl, Hd, Hic, Hf, Hsc.
      decide_bools.
      cbn [negb andb orb fst snd]. rewrite Hdep. cbn [negb andb orb].
      rewrite ?andb_false_r. cbn [negb andb orb].
      rewrite orb_true_r, !app_nil_r.
      destruct (Object_is_vars _ _), (Object_is_fn _ _); cbn [negb orb];
        rewrite app_nil_r;
        (split; [reflexivity | by ue_fields]). }
    unfold UpdateEffect.render. rewrite Hc. unfold UpdateEffect.flush. ue_fields.
    rewrite Hl', Hcl'. decide_bools. ue_fields. split; [|done].
    rewrite !ue_instance_calls_app, Hres.
    cbn [UpdateEffect.instance_calls List.filter app].
    by rewrite app_nil_r.
Qed.

(** * The version that spreads its props *)

Ltac ps_fields :=
  cbn [PropsSpread.comp PropsSpread.page PropsSpread.log
       PropsSpread.alive PropsSpread.props PropsSpread.committedScriptLoaded
       PropsSpread.committedIsReady PropsSpread.scriptLoaded
       PropsSpread.scriptError PropsSpread.isReady PropsSpread.containerRef
       PropsSpread.dashboardRef PropsSpread.initCleanup fst snd].

Ltac ps_bools :=
  rewrite ?Object_is_str_refl;
  decide_bools;
  cbn [negb andb orb app fst snd PropsSpread.view];
  rewrite ?andb_false_r, ?andb_true_r, ?orb_false_r, ?orb_true_r, ?app_nil_r.



(** X20. In the version that spreads its props, on a page where the
    factory is defined: every render of the host, which passes a new props
    object, makes a loaded component that holds an instance destroy it. If
    the component renders its container, it then constructs a new instance
    with the new props and calls [update] on the new one with the same
    props, in this order. If it renders a load error instead, nothing is
    constructed and the component is left without instance. Either way the
    instance does not survive a render of the host. *)
Theorem no_instance_survives_a_host_render
    (cid : nat) (w : PropsSpread.World) (p : PropsSpread.SpreadProps) (i : nat) :
  let c := PropsSpread.comp w in
  PropsSpread.scriptLoaded c = true ->
  PropsSpread.isReady c = true ->
  PropsSpread.dashboardRef c = Some i ->
  PropsSpread.initCleanup c = true ->
  shaper_dashboard (PropsSpread.page w) = true ->
  PropsSpread.addr p <> PropsSpread.addr (PropsSpread.props c) ->
  let w' := PropsSpread.render cid p w in
  let n := next_instance (PropsSpread.page w) in
  match PropsSpread.view (PropsSpread.scriptError c) true true with
  | PropsSpread.ViewContainer =>
      PropsSpread.log w'
      = PropsSpread.log w
        ++ [PropsSpread.Destroy i; PropsSpread.Factory n p; PropsSpread.Update n p]
      /\ PropsSpread.dashboardRef (PropsSpread.comp w') = Some n
  | _ =>
      PropsSpread.log w' = PropsSpread.log w ++ [PropsSpread.Destroy i]
      /\ PropsSpread.dashboardRef (PropsSpread.comp w') = None
  end.
Proof.
  destruct w as [c pg l]. cbv zeta. ps_fields.
  intros Hl Hr Hd Hic Hf Hne.
  set (ls := if negb (Object_is_str (PropsSpread.baseUrl (PropsSpread.props c))
                                    (PropsSpread.baseUrl p))
             then load_script cid (PropsSpread.baseUrl p +:+ "/embed/shaper.js") pg
             else (false, pg)).
  assert (ls.2 = pg) as Hls.
  { unfold ls. destruct (negb _); [|done]. by rewrite load_script_defined. }
  assert (forall shown : bool,
            match PropsSpread.view (PropsSpread.scriptError c) true true with
            | PropsSpread.ViewContainer => true
            | _ => false
            end = shown ->
            PropsSpread.commit false cid p (PropsSpread.mkWorld c pg l)
            = PropsSpread.mkWorld
                (PropsSpread.mk (PropsSpread.alive c) p true true true
                                (PropsSpread.scriptError c) true shown
                                (if shown then Some (next_instance pg) else None)
                                shown)
                (if shown then alloc_instance pg else pg)
                (l ++ (if shown
                       then [PropsSpread.Destroy i;
                             PropsSpread.Factory (next_instance pg) p;
                             PropsSpread.Update (next_instance pg) p]
                       else [PropsSpread.Destroy i]))) as Hc.
  { intros shown Hv. unfold PropsSpread.commit. cbv zeta. ps_fields.
    cbn [orb negb andb]. fold ls. rewrite Hls, Hl, Hr, Hd, Hic, Hf, Hv.
    rewrite (bool_decide_eq_false_2
               (PropsSpread.addr (PropsSpread.props c) = PropsSpread.addr p))
      by congruence.
    destruct shown.
    - do 3 ps_bools. by rewrite <- !app_assoc.
    - do 3 ps_bools. done. }
  unfold PropsSpread.render.
  destruct (PropsSpread.view (PropsSpread.scriptError c) true true) eqn:Hv.
  - rewrite (Hc false eq_refl). unfold PropsSpread.flush. ps_fields.
    by decide_bools.
  - rewrite (Hc false eq_refl). unfold PropsSpread.flush. ps_fields.
    by decide_bools.
  - rewrite (Hc true eq_refl). unfold PropsSpread.flush. ps_fields.
    by decide_bools.
Qed.

(** ** The theorems on the earlier versions at the example runs *)

Lemma error_div_live_alive : alive (ErrorDiv.core error_div_live.1) = true.
Proof. by vm_compute. Qed.

Lemma error_div_live_instance : dashboardRef (ErrorDiv.core error_div_live.1) = Some 0.
Proof. by vm_compute. Qed.

Lemma error_div_live_ok : comp_ok (ErrorDiv.core error_div_live.1).
Proof.
  split; [split|]; by vm_compute.
Qed.

(** X14 at the loaded component: an error, then a render with another
    [baseUrl], a load event, a token request and a render with another
    [id]. *)
Lemma load_error_is_shown_for_good_witness :
  alive (ErrorDiv.core error_div_live.1) = true
  /\ let s0 := ErrorDiv.error_handler 0 "http://h/embed/shaper.js"
                 error_div_live.1 error_div_live.2 in
     let s := ErrorDiv.handle_all 0 after_error_events s0 in
     ErrorDiv.view s0.1
     = ErrorDiv.ViewError
         ("Error: Failed to load Shaper script from " +:+ "http://h/embed/shaper.js")
     /\ (exists text, ErrorDiv.view s.1 = ErrorDiv.ViewError text)
     /\ containerRef (ErrorDiv.core s.1) = false
     /\ factory_calls_of 0 (calls s.2) = factory_calls_of 0 (calls error_div_live.2).
Proof.
  split; [exact error_div_live_alive|].
  exact (load_error_is_shown_for_good 0 error_div_live.1 error_div_live.2
           "http://h/embed/shaper.js" after_error_events error_div_live_alive).
Defined.

(** X15 at the loaded component, which holds instance 0. *)
Lemma load_error_leaves_the_instance_alone_witness :
  dashboardRef (ErrorDiv.core error_div_live.1) = Some 0
  /\ let s0 := ErrorDiv.error_handler 0 "http://h/embed/shaper.js"
                 error_div_live.1 error_div_live.2 in
     s0.2 = error_div_live.2
     /\ dashboardRef (ErrorDiv.core s0.1) = Some 0
     /\ containerRef (ErrorDiv.core s0.1) = false
     /\ calls (ErrorDiv.teardown 0 s0.1 s0.2).2
        = calls error_div_live.2 ++ [CallDestroy 0 0].
Proof.
  split; [exact error_div_live_instance|].
  pose proof (load_error_leaves_the_instance_alone 0 error_div_live.1
                error_div_live.2 "http://h/embed/shaper.js" 0 error_div_live_ok
                error_div_live_alive error_div_live_instance) as H.
  cbv zeta in H. destruct H as (H1 & H2 & H3 & H4 & _).
  cbv zeta. split; [exact H1|]. split; [exact H2|]. split; [exact H3 | exact H4].
Defined.

Lemma update_effect_live_facts :
  UpdateEffect.scriptLoaded (UpdateEffect.comp update_effect_live) = true
  /\ UpdateEffect.committedScriptLoaded (UpdateEffect.comp update_effect_live) = true
  /\ UpdateEffect.dashboardRef (UpdateEffect.comp update_effect_live) = Some 0
  /\ UpdateEffect.scriptError (UpdateEffect.comp update_effect_live) = None
  /\ UpdateEffect.initCleanup (UpdateEffect.comp update_effect_live) = true
  /\ shaper_dashboard (UpdateEffect.page update_effect_live) = true
  /\ UpdateEffect.props (UpdateEffect.comp update_effect_live) = old_props.
Proof. by vm_compute. Qed.

(** X17 at the loaded component, rendered with another [vars] object. *)
Lemma every_new_object_or_callback_is_forwarded_witness :
  UpdateEffect.dashboardRef (UpdateEffect.comp update_effect_live) = Some 0
  /\ let w' := UpdateEffect.render 0 old_props_ab update_effect_live in
     UpdateEffect.instance_calls (UpdateEffect.log w')
     = UpdateEffect.instance_calls (UpdateEffect.log update_effect_live)
       ++ [UpdateEffect.Update 0 vars_ab None]
     /\ UpdateEffect.dashboardRef (UpdateEffect.comp w') = Some 0.
Proof.
  destruct update_effect_live_facts as (Hl & Hcl & Hd & He & Hic & Hf & Hp).
  split; [exact Hd|].
  assert (UpdateEffect.scriptLoaded (UpdateEffect.comp update_effect_live)
          = UpdateEffect.committedScriptLoaded (UpdateEffect.comp update_effect_live))
    as Hs by (by rewrite Hl, Hcl).
  assert (ErrorDiv.id old_props_ab
          = ErrorDiv.id (UpdateEffect.props (UpdateEffect.comp update_effect_live)))
    as Hi by (by rewrite Hp).
  assert (ErrorDiv.baseUrl old_props_ab
          = ErrorDiv.baseUrl (UpdateEffect.props (UpdateEffect.comp update_effect_live)))
    as Hb by (by rewrite Hp).
  pose proof (every_new_object_or_callback_is_forwarded 0 update_effect_live
                old_props_ab 0 Hs Hd Hi Hb) as H.
  cbv zeta in H. rewrite Hp in H. exact H.
Defined.

Lemma update_effect_failed_facts :
  UpdateEffect.scriptLoaded (UpdateEffect.comp update_effect_failed) = true
  /\ UpdateEffect.committedScriptLoaded (UpdateEffect.comp update_effect_failed) = true
  /\ UpdateEffect.dashboardRef (UpdateEffect.comp update_effect_failed) = Some 0
  /\ UpdateEffect.shows_container
       (UpdateEffect.scriptError (UpdateEffect.comp update_effect_failed)) = false
  /\ UpdateEffect.initCleanup (UpdateEffect.comp update_effect_failed) = true
  /\ shaper_dashboard (UpdateEffect.page update_effect_failed) = true
  /\ UpdateEffect.props (UpdateEffect.comp update_effect_failed) = old_props.
Proof. by vm_compute. Qed.

Lemma update_effect_live_shown :
  UpdateEffect.shows_container
    (UpdateEffect.scriptError (UpdateEffect.comp update_effect_live)) = true.
Proof. by vm_compute. Qed.

(** X18 at the loaded component, rendered with another [id] and another
    [vars] object: once while it renders its container, once while it shows
    a load error. *)
Lemma replaced_instance_gets_the_update_witness :
  (UpdateEffect.dashboardRef (UpdateEffect.comp update_effect_live) = Some 0
   /\ let w' := UpdateEffect.render 0 old_props_other_id update_effect_live in
      let n := next_instance (UpdateEffect.page update_effect_live) in
      UpdateEffect.instance_calls (UpdateEffect.log w')
      = UpdateEffect.instance_calls (UpdateEffect.log update_effect_live)
        ++ [UpdateEffect.Destroy 0; UpdateEffect.Factory n "http://h" "d2"]
        ++ [UpdateEffect.Update n vars_ab None]
      /\ UpdateEffect.dashboardRef (UpdateEffect.comp w') = Some n)
  /\ (UpdateEffect.dashboardRef (UpdateEffect.comp update_effect_failed) = Some 0
      /\ let w' := UpdateEffect.render 0 old_props_other_id update_effect_failed in
         UpdateEffect.instance_calls (UpdateEffect.log w')
         = UpdateEffect.instance_calls (UpdateEffect.log update_effect_failed)
           ++ [UpdateEffect.Destroy 0]
         /\ UpdateEffect.dashboardRef (UpdateEffect.comp w') = None).
Proof.
  split.
  - destruct update_effect_live_facts as (Hl & Hcl & Hd & He & Hic & Hf & Hp).
    split; [exact Hd|].
    assert (ErrorDiv.id old_props_other_id
            <> ErrorDiv.id (UpdateEffect.props (UpdateEffect.comp update_effect_live)))
      as Hi by (rewrite Hp; discriminate).
    pose proof (replaced_instance_gets_the_update 0 update_effect_live
                  old_props_other_id 0 Hl Hcl Hd Hic Hf (or_introl Hi)) as H.
    cbv zeta in H. rewrite update_effect_live_shown, Hp in H. exact H.
  - destruct update_effect_failed_facts as (Hl & Hcl & Hd & He & Hic & Hf & Hp).
    split; [exact Hd|].
    assert (ErrorDiv.id old_props_other_id
            <> ErrorDiv.id (UpdateEffect.props (UpdateEffect.comp update_effect_failed)))
      as Hi by (rewrite Hp; discriminate).
    pose proof (replaced_instance_gets_the_update 0 update_effect_failed
                  old_props_other_id 0 Hl Hcl Hd Hic Hf (or_introl Hi)) as H.
    cbv zeta in H. rewrite He in H. exact H.
Defined.


Lemma props_spread_live_facts :
  PropsSpread.view (PropsSpread.scriptError (PropsSpread.comp props_spread_live))
                   true true = PropsSpread.ViewContainer
  /\ PropsSpread.scriptLoaded (PropsSpread.comp props_spread_live) = true
  /\ PropsSpread.isReady (PropsSpread.comp props_spread_live) = true
  /\ PropsSpread.dashboardRef (PropsSpread.comp props_spread_live) = Some 0
  /\ PropsSpread.initCleanup (PropsSpread.comp props_spread_live) = true
  /\ shaper_dashboard (PropsSpread.page props_spread_live) = true
  /\ PropsSpread.props (PropsSpread.comp props_spread_live) = spread_props 2 vars_x0.
Proof. by vm_compute. Qed.

Lemma props_spread_failed_facts :
  PropsSpread.view (PropsSpread.scriptError (PropsSpread.comp props_spread_failed))
                   true true
  = PropsSpread.ViewError
      "Error: Failed to load Shaper script from http://h/embed/shaper.js"
  /\ PropsSpread.scriptLoaded (PropsSpread.comp props_spread_failed) = true
  /\ PropsSpread.isReady (PropsSpread.comp props_spread_failed) = true
  /\ PropsSpread.dashboardRef (PropsSpread.comp props_spread_failed) = Some 0
  /\ PropsSpread.initCleanup (PropsSpread.comp props_spread_failed) = true
  /\ shaper_dashboard (PropsSpread.page props_spread_failed) = true
  /\ PropsSpread.props (PropsSpread.comp props_spread_failed) = spread_props 2 vars_x0.
Proof. by vm_compute. Qed.

(** X20 at the live component, rendered by the host with the same values in
    a new props object: once while it renders its container, once while it
    shows a load error. *)
Lemma no_instance_survives_a_host_render_witness :
  (PropsSpread.dashboardRef (PropsSpread.comp props_spread_live) = Some 0
   /\ let w' := PropsSpread.render 0 (spread_props 3 vars_x0) props_spread_live in
      let n := next_instance (PropsSpread.page props_spread_live) in
      PropsSpread.log w'
      = PropsSpread.log props_spread_live
        ++ [PropsSpread.Destroy 0; PropsSpread.Factory n (spread_props 3 vars_x0);
            PropsSpread.Update n (spread_props 3 vars_x0)]
      /\ PropsSpread.dashboardRef (PropsSpread.comp w') = Some n)
  /\ (PropsSpread.dashboardRef (PropsSpread.comp props_spread_failed) = Some 0
      /\ let w' := PropsSpread.render 0 (spread_props 3 vars_x0) props_spread_failed in
         PropsSpread.log w' = PropsSpread.log props_spread_failed ++ [PropsSpread.Destroy 0]
         /\ PropsSpread.dashboardRef (PropsSpread.comp w') = None).
Proof.
  split.
  - destruct props_spread_live_facts as (Hv & Hl & Hr & Hd & Hic & Hf & Hp).
    split; [exact Hd|].
    assert (PropsSpread.addr (spread_props 3 vars_x0)
            <> PropsSpread.addr (PropsSpread.props (PropsSpread.comp props_spread_live)))
      as Hne by (rewrite Hp; discriminate).
    pose proof (no_instance_survives_a_host_render 0 props_spread_live
                  (spread_props 3 vars_x0) 0 Hl Hr Hd Hic Hf Hne) as H.
    cbv zeta in H. rewrite Hv in H. exact H.
  - destruct props_spread_failed_facts as (Hv & Hl & Hr & Hd & Hic & Hf & Hp).
    split; [exact Hd|].
    assert (PropsSpread.addr (spread_props 3 vars_x0)
            <> PropsSpread.addr (PropsSpread.props (PropsSpread.comp props_spread_failed)))
      as Hne by (rewrite Hp; discriminate).
    pose proof (no_instance_survives_a_host_render 0 props_spread_failed
                  (spread_props 3 vars_x0) 0 Hl Hr Hd Hic Hf Hne) as H.
    cbv zeta in H. rewrite Hv in H. exact H.
Defined.
